(** * health-policy-mapper: job state machine, checkpoint log and aggregator

    A shallow embedding of the Python sources
    - [domain/entities/job.py]                 (module [Job])
    - [domain/value_objects/column.py]         (module [Column])
    - [presentation/parsers/column_parser.py]  (module [ColumnParser])
    - [application/use_cases/aggregator.py]    (module [Aggregator])
    - [application/use_cases/llm_processor.py] and
      [application/use_cases/job_lifecycle.py] (module [JobLifecycle])
    together with the properties of the specification that concern them.

    Modelling conventions.
    - A Python [str] is a Rocq [string]; a character is a code point below
      256 (all literals of the sources are ASCII).
    - A pandas cell is [NaN] (null) or [Str s]; [astype_str] is
      [.astype(str)], under which a null prints as ["nan"].
    - A method that may raise runs in the small state-and-exception monad
      [M]: it returns the outcome together with the object after the call.
    - The raw CSV of a job is modelled at the level of its data lines: no
      entry for a path that does not exist, the list of the lines written
      otherwise, each line keyed by the field names of the header.  How
      [pd.read_csv] turns the text of a cell into a value (nulls, numbers)
      belongs to pandas; it is the parameter [read_text] of the lifecycle.
    - The calls of one run are sequential, as in the sources; two runs of
      the same job at the same time are not modelled. *)

From Stdlib Require Import ZArith Ascii String.
From stdpp Require Import base decidable option list strings gmap sorting.

Local Open Scope string_scope.
Local Open Scope Z_scope.

(* ===================================================================== *)
(** ** Python strings *)
(* ===================================================================== *)

Module Py.

Definition code (c : ascii) : N := N_of_ascii c.

(** [str.isspace] on one character, which is also the class [\s] of [re]
    on [str] patterns: TAB..CR, FS..US, space, NEL and NBSP. *)
Definition isspace (c : ascii) : bool :=
  let n := code c in
  (((9 <=? n) && (n <=? 13)) || ((28 <=? n) && (n <=? 32))
   || (n =? 133) || (n =? 160))%N.

(** [str.lower] on one character. *)
Definition lower_char (c : ascii) : ascii :=
  let n := code c in
  if (((65 <=? n) && (n <=? 90))
      || ((192 <=? n) && (n <=? 222) && negb (n =? 215)))%N
  then ascii_of_N (n + 32) else c.

Fixpoint lower (s : string) : string :=
  match s with
  | EmptyString => EmptyString
  | String c s' => String (lower_char c) (lower s')
  end.

Fixpoint lstrip (s : string) : string :=
  match s with
  | EmptyString => EmptyString
  | String c s' => if isspace c then lstrip s' else s
  end.

Fixpoint rstrip (s : string) : string :=
  match s with
  | EmptyString => EmptyString
  | String c s' =>
      match rstrip s' with
      | EmptyString => if isspace c then EmptyString else String c EmptyString
      | r => String c r
      end
  end.

(** [s.strip()] *)
Definition strip (s : string) : string := rstrip (lstrip s).

(** [s.replace(old, new)] for a one-character [old], the only form the
    sources use. *)
Fixpoint replace (old : ascii) (new : string) (s : string) : string :=
  match s with
  | EmptyString => EmptyString
  | String c s' =>
      if decide (c = old) then new ++ replace old new s'
      else String c (replace old new s')
  end.

(** [s.endswith(suffix)] *)
Definition endswith (s suffix : string) : bool :=
  let n := String.length s in
  let k := String.length suffix in
  (k <=? n)%nat && String.eqb (String.substring (n - k) k s) suffix.

(** [sep.join(l)] *)
Fixpoint join (sep : string) (l : list string) : string :=
  match l with
  | [] => EmptyString
  | [x] => x
  | x :: l' => x ++ sep ++ join sep l'
  end.

(** [re.split(r",\s*", s)]: a separator is a comma and the white space
    that follows it.  [skip] holds right after a comma, while the
    separator may still grow; [cur] is the piece being read. *)
Fixpoint split_go (skip : bool) (cur : string) (s : string) : list string :=
  match s with
  | EmptyString => [cur]
  | String c s' =>
      if skip && isspace c then split_go true cur s'
      else if decide (c = ","%char) then cur :: split_go true EmptyString s'
      else split_go false (cur ++ String c EmptyString) s'
  end.

Definition split_comma (s : string) : list string :=
  split_go false EmptyString s.

(** [sorted(l)] on strings: the order of code points, lexicographic. *)
Definition sorted (l : list string) : list string := merge_sort String.le l.

(** [sorted(list(set(l)))]: the distinct elements, in order. *)
Definition sorted_set (l : list string) : list string :=
  sorted (remove_dups l).

(** Truth value of a [str]: non-empty. *)
Definition truthy (s : string) : bool := negb (String.eqb s EmptyString).

End Py.

(* ===================================================================== *)
(** ** Exceptions and the method monad *)
(* ===================================================================== *)

(** The [detail] of the HTTP errors raised at the submission boundary; the
    constructor records which message it is and the data it is built from. *)
Inductive http_detail : Type :=
| InvalidColumnsJson                      (* "Invalid columns JSON: ..." *)
| ColumnsPayloadNotList                   (* "Columns payload must be a JSON list" *)
| InvalidColumnAtIndex (idx : nat)        (* "Invalid column at index {idx}: ..." *)
| InvalidColumnName (idx : nat) (name : string)
                                          (* "Invalid column at index {idx} (name=...): ..." *)
| DuplicateColumnNames (names : list string)
                                          (* "Duplicate column names: {sorted(dups)}" *)
| FilenameMissing.                        (* "Filename missing" *)

Inductive exn : Type :=
| ValueError (msg : string)
| InvalidColumnNameError (msg : string)   (* a subclass of ValueError *)
| KeyError (msg : string)
| RuntimeError (msg : string)
| FileNotFoundError (msg : string)
| HTTPException (status_code : Z) (detail : http_detail).

Inductive res (A : Type) : Type :=
| Ok (a : A)
| Raise (e : exn).
Arguments Ok {A} a.
Arguments Raise {A} e.

Definition is_ok {A} (r : res A) : bool :=
  match r with Ok _ => true | Raise _ => false end.

(** A method on an object of type [S]: outcome and object after the call. *)
Definition M (S A : Type) : Type := S -> res A * S.

Definition ret {S A} (a : A) : M S A := fun s => (Ok a, s).
Definition raise {S A} (e : exn) : M S A := fun s => (Raise e, s).
Definition bind {S A B} (m : M S A) (k : A -> M S B) : M S B :=
  fun s => match m s with
           | (Ok a, s') => k a s'
           | (Raise e, s') => (Raise e, s')
           end.
Definition get {S} : M S S := fun s => (Ok s, s).
Definition modify {S} (f : S -> S) : M S unit := fun s => (Ok tt, f s).

Declare Scope method_scope.
Delimit Scope method_scope with method.
Notation "x <- m ;; k" := (bind m (fun x => k))
  (at level 62, m at level 61, right associativity) : method_scope.
Notation "m ;;; k" := (bind m (fun _ => k))
  (at level 62, right associativity) : method_scope.

(* ===================================================================== *)
(** ** pandas data frames *)
(* ===================================================================== *)

Inductive cell : Type :=
| NaN
| Str (s : string).

Global Instance cell_eq_dec : EqDecision cell.
Proof. solve_decision. Defined.

Global Instance cell_inhabited : Inhabited cell := populate NaN.

(** [.astype(str)] on one cell *)
Definition astype_str (c : cell) : string :=
  match c with NaN => "nan" | Str s => s end.

(** [pd.notna] *)
Definition notna (c : cell) : bool :=
  match c with NaN => false | Str _ => true end.

(** A frame: the column labels and the rows, each row holding its cells in
    the order of the labels. *)
Record DataFrame : Type := mkDataFrame {
  df_columns : list string;
  df_rows : list (list cell)
}.

(** Position of a label among the columns. *)
Fixpoint col_index (c : string) (cols : list string) : option nat :=
  match cols with
  | [] => None
  | c' :: cols' =>
      if decide (c' = c) then Some 0%nat
      else S <$> col_index c cols'
  end.

(** [c in df.columns] *)
Definition has_column (c : string) (df : DataFrame) : bool :=
  bool_decide (is_Some (col_index c (df_columns df))).

(** The cell of a row at a position. *)
Definition cell_at (i : nat) (r : list cell) : cell := r !!! i.

(** [df[c]] as the list of its values, for a column that exists. *)
Definition series (i : nat) (df : DataFrame) : list cell :=
  cell_at i <$> df_rows df.

(** [df.empty]: no rows or no columns. *)
Definition df_empty (df : DataFrame) : bool :=
  bool_decide (df_rows df = []) || bool_decide (df_columns df = []).

(* ===================================================================== *)
(** ** domain/value_objects/column.py *)
(* ===================================================================== *)

Module Column.

(** A frozen dataclass: a value, with no operation that changes it. *)
Record t : Type := mkColumn {
  name : string;
  description : string
}.

Definition in_range (lo hi : N) (c : ascii) : bool :=
  ((lo <=? Py.code c) && (Py.code c <=? hi))%N.

(** [[a-zA-Z_]] *)
Definition is_start (c : ascii) : bool :=
  in_range 97 122 c || in_range 65 90 c || bool_decide (c = "_"%char).

(** [[a-zA-Z0-9_]] *)
Definition is_word (c : ascii) : bool :=
  is_start c || in_range 48 57 c.

Definition newline : ascii := ascii_of_N 10.

(** [[a-zA-Z0-9_]*$] at the current position.  Without [re.MULTILINE] the
    anchor [$] of Python's [re] holds at the end of the text and also just
    before a line feed that ends the text. *)
Fixpoint match_tail (s : string) : bool :=
  match s with
  | EmptyString => true
  | String c s' =>
      (is_word c && match_tail s')
      || (bool_decide (c = newline) && bool_decide (s' = EmptyString))
  end.

(** [re.match(r'^[a-zA-Z_][a-zA-Z0-9_]*$', s)] is not [None]. *)
Definition re_match (s : string) : bool :=
  match s with
  | EmptyString => false
  | String c s' => is_start c && match_tail s'
  end.

(** The pre-processing of the name in [__post_init__]. *)
Definition processed_name (name : string) : string :=
  let p := Py.lower name in
  let p := Py.replace " " "_" p in
  let p := Py.replace "-" "_" p in
  let p := Py.replace "+" "_" p in
  let p := Py.replace "'" "" p in
  let p := Py.replace (ascii_of_N 34) "" p in
  let p := Py.replace "(" "" p in
  let p := Py.replace ")" "" p in
  let p := Py.replace "&" "_and_" p in
  let p := Py.replace "/" "_" p in
  let p := Py.replace "\" "_" p in
  p.

(** [Column(name=..., description=...)]: the dataclass constructor
    followed by [__post_init__]. *)
Definition __post_init__ (name description : string) : res t :=
  let p := processed_name name in
  if negb (re_match p) then
    Raise (InvalidColumnNameError
             ("Invalid column name: " ++ p ++
              ". Must start with a letter or underscore and contain only letters, digits, and underscores."))
  else if (300 <? String.length description)%nat then
    Raise (ValueError "Description must be a string not exceeding 300 characters.")
  else Ok (mkColumn p description).

End Column.

(* ===================================================================== *)
(** ** domain/entities/job.py *)
(* ===================================================================== *)

Definition UUID : Type := N.

Module Path.
(** A [pathlib.Path]: the directory and the final component. *)
Record t : Type := mkPath { parent : string; name : string }.

Global Instance eq_dec : EqDecision t.
Proof. solve_decision. Defined.

(** [str(p)] *)
Definition to_str (p : t) : string := parent p ++ "/" ++ name p.
End Path.

Module Job.

Inductive JobStatus : Type :=
| PENDING | RUNNING | FAILED | DONE | DONE_WITH_ERRORS.

Global Instance JobStatus_eq_dec : EqDecision JobStatus.
Proof. solve_decision. Defined.

Record t : Type := mkJob {
  id : UUID;
  files : list Path.t;
  context : string;
  columns : list Column.t;
  status : JobStatus;
  result : option DataFrame;
  error_message : option string;
  total_files : Z;
  files_processed : Z;
  error_count : Z
}.

Definition set_status (v : JobStatus) (j : t) : t :=
  mkJob (id j) (files j) (context j) (columns j) v (result j)
        (error_message j) (total_files j) (files_processed j) (error_count j).
Definition set_result (v : option DataFrame) (j : t) : t :=
  mkJob (id j) (files j) (context j) (columns j) (status j) v
        (error_message j) (total_files j) (files_processed j) (error_count j).
Definition set_error_message (v : option string) (j : t) : t :=
  mkJob (id j) (files j) (context j) (columns j) (status j) (result j)
        v (total_files j) (files_processed j) (error_count j).
Definition set_files_processed (v : Z) (j : t) : t :=
  mkJob (id j) (files j) (context j) (columns j) (status j) (result j)
        (error_message j) (total_files j) v (error_count j).
Definition set_error_count (v : Z) (j : t) : t :=
  mkJob (id j) (files j) (context j) (columns j) (status j) (result j)
        (error_message j) (total_files j) (files_processed j) v.

(** [Job(files, context, columns, job_id)] *)
Definition __init__ (files : list Path.t) (context : string)
    (columns : list Column.t) (job_id : UUID) : t :=
  mkJob job_id files context columns PENDING None None
        (Z.of_nat (length files)) 0 0.

Local Open Scope method_scope.

Definition start : M t unit :=
  self <- get ;;
  if decide (status self <> PENDING) then
    raise (ValueError "Job can only be started if it is in pending state.")
  else modify (set_status RUNNING).

Definition update_progress (files_processed : Z) (error_count : option Z)
  : M t unit :=
  modify (set_files_processed files_processed) ;;;
  match error_count with
  | Some n => modify (set_error_count n)
  | None => ret tt
  end.

(** One value of the [error] column counts as an error: not null, not
    [''], and not blank once stripped. *)
Definition error_value (c : cell) : bool :=
  notna c
  && negb (bool_decide (c = Str ""))
  && negb (bool_decide (Py.strip (astype_str c) = "")).

Definition _has_errors (result : option DataFrame) : bool :=
  match result with
  | None => false
  | Some df =>
      if df_empty df then false
      else match col_index "error" (df_columns df) with
           | Some i => existsb error_value (series i df)
           | None => false
           end
  end.

Definition complete (result : DataFrame) : M t unit :=
  self <- get ;;
  if decide (status self <> RUNNING) then
    raise (ValueError "Job can only be completed if it is running.")
  else
    (if _has_errors (Some result)
     then modify (set_status DONE_WITH_ERRORS)
     else modify (set_status DONE)) ;;;
    modify (set_result (Some result)).

Definition complete_with_errors (result : DataFrame) : M t unit :=
  self <- get ;;
  if decide (status self <> RUNNING) then
    raise (ValueError "Job can only be completed if it is running.")
  else
    modify (set_status DONE_WITH_ERRORS) ;;;
    modify (set_result (Some result)).

Definition fail (message : string) : M t unit :=
  self <- get ;;
  if decide (status self <> RUNNING) then
    raise (ValueError "Job can only be failed if it is running.")
  else
    modify (set_status FAILED) ;;;
    modify (set_error_message (Some message)).

Definition restart_for_retry (new_files_processed : Z) : M t unit :=
  self <- get ;;
  if decide (status self <> DONE_WITH_ERRORS) then
    raise (ValueError "Job can only be restarted if it has done_with_errors status.")
  else
    modify (set_status RUNNING) ;;;
    modify (set_files_processed new_files_processed).

End Job.

(* ===================================================================== *)
(** ** presentation/schema.py and presentation/parsers/column_parser.py *)
(* ===================================================================== *)

Module ColumnParser.

(** The values [json.loads] returns, as far as the parser looks at them:
    a list of items, an item being a dictionary or not, a field of a
    dictionary being a string or not. *)
Inductive jfield : Type :=
| JStr (s : string)
| JNotStr.

Inductive jitem : Type :=
| JDict (fields : list (string * jfield))
| JNotDict.

(** What [json.loads] gives other than a [JSONDecodeError]: a list,
    another value, or an exception of another class ([RecursionError] on
    a payload nested too deep, [ValueError] on an integer literal longer
    than the digit limit). *)
Inductive json : Type :=
| JList (items : list jitem)
| JNotList
| JRaised (e : exn).

Fixpoint field (k : string) (fields : list (string * jfield))
  : option jfield :=
  match fields with
  | [] => None
  | (k', v) :: fields' => if decide (k' = k) then Some v else field k fields'
  end.

(** The pydantic model [ColumnInput] built from an item: [name] is a
    required string that is not blank,
    [description] an optional string; [None] stands for any error raised. *)
Definition ColumnInput (item : jitem) : option (string * string) :=
  match item with
  | JDict fields =>
      match field "name" fields with
      | Some (JStr n) =>
          if bool_decide (Py.strip n = "") then None
          else match field "description" fields with
               | None => Some (n, "")
               | Some (JStr d) => Some (n, d)
               | Some JNotStr => None
               end
      | _ => None
      end
  | JNotDict => None
  end.

(** First loop: validate the shape of every item, counting from [idx]. *)
Fixpoint inputs_from (idx : nat) (data : list jitem)
  : res (list (string * string)) :=
  match data with
  | [] => Ok []
  | item :: data' =>
      match ColumnInput item with
      | None => Raise (HTTPException 400 (InvalidColumnAtIndex idx))
      | Some ci =>
          match inputs_from (S idx) data' with
          | Ok l => Ok (ci :: l)
          | Raise e => Raise e
          end
      end
  end.

(** Second loop: build the value objects, counting from [idx]. *)
Fixpoint domain_columns_from (idx : nat) (inputs : list (string * string))
  : res (list Column.t) :=
  match inputs with
  | [] => Ok []
  | (n, d) :: inputs' =>
      match Column.__post_init__ n d with
      | Raise _ => Raise (HTTPException 400 (InvalidColumnName idx n))
      | Ok c =>
          match domain_columns_from (S idx) inputs' with
          | Ok l => Ok (c :: l)
          | Raise e => Raise e
          end
      end
  end.

(** Third loop: the pair of sets [(seen, dups)] after the columns. *)
Fixpoint detect (cs : list Column.t) (seen dups : gset string)
  : gset string * gset string :=
  match cs with
  | [] => (seen, dups)
  | c :: cs' =>
      let dups' :=
        if decide (Column.name c ∈ seen) then dups ∪ {[ Column.name c ]}
        else dups in
      detect cs' (seen ∪ {[ Column.name c ]}) dups'
  end.

Section Parser.
(** [json.loads]; [None] stands for [JSONDecodeError], the one class the
    parser catches. *)
Variable json_loads : string -> option json.

Definition parse_columns_payload (raw : string) : res (list Column.t) :=
  match json_loads raw with
  | None => Raise (HTTPException 400 InvalidColumnsJson)
  | Some (JRaised e) => Raise e
  | Some (JList data) =>
      match inputs_from 1 data with
      | Raise e => Raise e
      | Ok inputs =>
          match domain_columns_from 1 inputs with
          | Raise e => Raise e
          | Ok domain_columns =>
              let dups := (detect domain_columns ∅ ∅).2 in
              if decide (dups <> ∅) then
                Raise (HTTPException 400
                         (DuplicateColumnNames (Py.sorted (elements dups))))
              else Ok domain_columns
          end
      end
  | Some JNotList => Raise (HTTPException 400 ColumnsPayloadNotList)
  end.
End Parser.

End ColumnParser.

(* ===================================================================== *)
(** ** application/use_cases/aggregator.py *)
(* ===================================================================== *)

Module Aggregator.

Record t : Type := mkAggregator { grouping_key : string }.

Definition __init__ : t := mkAggregator "country_alpha_3_code".

Section Methods.
Variable self : t.

Definition _validate_input (df : DataFrame) : res unit :=
  if negb (has_column (grouping_key self) df) then
    Raise (KeyError ("Required column '" ++ grouping_key self ++
                     "' not found in DataFrame"))
  else Ok tt.

(** The rows one row explodes into: none when the two lists differ in
    length, else one per pair, both cells trimmed. *)
Definition explode_row (ic inm : nat) (r : list cell) : list (list cell) :=
  let codes := Py.split_comma (astype_str (cell_at ic r)) in
  let names := Py.split_comma (astype_str (cell_at inm r)) in
  if bool_decide (length codes = length names) then
    (fun cn : string * string =>
       <[inm := Str (Py.strip cn.2)]> (<[ic := Str (Py.strip cn.1)]> r))
    <$> zip codes names
  else [].

Definition _safe_explode_countries (df : DataFrame) : DataFrame :=
  let codes_col := grouping_key self in
  let name_col := "country" in
  match col_index codes_col (df_columns df),
        col_index name_col (df_columns df) with
  | Some ic, Some inm =>
      mkDataFrame (df_columns df) (df_rows df ≫= explode_row ic inm)
  | _, _ => df
  end.

Definition _categorize_columns (df : DataFrame)
  : list string * list string :=
  let all_columns :=
    filter (fun col => col <> grouping_key self) (df_columns df) in
  let justification_columns :=
    filter (fun col => Py.endswith col "_justification" = true)
           all_columns in
  let regular_columns :=
    filter (fun col => Py.endswith col "_justification" = false
                       /\ col ∉ ["source_file"; "error"])
           all_columns in
  (regular_columns, justification_columns).

(** [series.dropna()] *)
Definition dropna (series : list cell) : list string :=
  omap (fun c => match c with NaN => None | Str s => Some s end) series.

Definition _get_first_value (series : list cell) : string :=
  match dropna series with
  | v :: _ => v
  | [] => ""
  end.

Definition _apply_yes_wins_rule (series : list cell) : string :=
  match dropna series with
  | [] => "Not specified"
  | (v :: _) as non_null_series =>
      if existsb (fun x => bool_decide (Py.lower x = "yes")) non_null_series
      then "yes"
      else v
  end.

Definition _is_valid_justification (justification : string) : bool :=
  if bool_decide (Py.strip justification = "") then false
  else
    let invalid_values := ["not specified"; "not found"; "nan"; "none"; ""] in
    bool_decide (Py.strip (Py.lower justification) ∉ invalid_values).

(** The rows of a frame whose key equals [country_code]. *)
Definition country_rows (df : DataFrame) (ik : nat) (country_code : string)
  : list (list cell) :=
  filter (fun r => cell_at ik r = Str country_code) (df_rows df).

(** The keys of the groups of [groupby]: the distinct values of the key
    that are not null, sorted. *)
Definition group_keys (df : DataFrame) (ik : nat) : list string :=
  Py.sorted_set (dropna (series ik df)).

(** The frame of [groupby(...).agg(agg_dict)] for a dictionary that is
    not empty; on an empty one [agg] raises, which [aggregate] below
    accounts for. *)
Definition _aggregate_regular_columns (df : DataFrame)
    (regular_columns : list string) : DataFrame :=
  match col_index (grouping_key self) (df_columns df) with
  | None => mkDataFrame [] []
  | Some ik =>
      let agg (group : list (list cell)) (col : string) : cell :=
        match col_index col (df_columns df) with
        | None => NaN
        | Some i =>
            if decide (col = "country")
            then Str (_get_first_value (cell_at i <$> group))
            else Str (_apply_yes_wins_rule (cell_at i <$> group))
        end in
      mkDataFrame
        (grouping_key self :: regular_columns)
        ((fun k => Str k :: (agg (country_rows df ik k) <$> regular_columns))
         <$> group_keys df ik)
  end.

(** The values of a policy column in a group, lower-cased and trimmed. *)
Definition series_vals (i : nat) (group : list (list cell)) : list string :=
  (fun r => Py.strip (Py.lower (astype_str (cell_at i r)))) <$> group.

(** [str(src_row.get(jcol, "")) if pd.notna(src_row.get(jcol)) else ""] *)
Definition justification_text (original_df : DataFrame) (jcol : string)
    (src_row : list cell) : string :=
  match col_index jcol (df_columns original_df) with
  | Some ij =>
      if notna (cell_at ij src_row)
      then astype_str (cell_at ij src_row) else ""
  | None => ""
  end.

(** [str(src_row.get("source_file", "Unknown_File"))] *)
Definition source_file_text (original_df : DataFrame)
    (src_row : list cell) : string :=
  match col_index "source_file" (df_columns original_df) with
  | Some isf => astype_str (cell_at isf src_row)
  | None => "Unknown_File"
  end.

(** The entries ["<source_file>: <justification>"] of the rows given. *)
Definition formatted_justifications (original_df : DataFrame)
    (jcol : string) (matching_docs : list (list cell)) : list string :=
  matching_docs ≫= fun src_row =>
    let justification := justification_text original_df jcol src_row in
    let source_file := source_file_text original_df src_row in
    if _is_valid_justification justification
    then [source_file ++ ": " ++ justification]
    else [].

(** The cell written in [just_col] for one key and one policy column;
    the column was initialised to [""]. *)
Definition justification_cell (original_df : DataFrame) (ik : nat)
    (country_code : string) (col : string) : string :=
  match col_index col (df_columns original_df) with
  | None => ""
  | Some i =>
      let group := country_rows original_df ik country_code in
      let vals := series_vals i group in
      let any_yes := existsb (fun v => bool_decide (v = "yes")) vals in
      let allowed_no_like := ["no"; "not specified"; ""; "nan"] in
      let all_no_or_not_spec :=
        forallb (fun v => bool_decide (v ∈ allowed_no_like)) vals
        && negb any_yes in
      let include_mask : option (string -> bool) :=
        if any_yes then Some (fun v => bool_decide (v = "yes"))
        else if all_no_or_not_spec
             then Some (fun v => bool_decide (v ∈ ["no"; "not specified"]))
             else None in
      match include_mask with
      | None => ""
      | Some mask =>
          let matching_docs :=
            filter (fun r =>
                      mask (Py.strip (Py.lower (astype_str (cell_at i r))))
                      = true) group in
          let jcol := col ++ "_justification" in
          let justification_text :=
            if negb (bool_decide (matching_docs = []))
               && has_column jcol original_df
            then Py.join " | "
                   (Py.sorted_set
                      (formatted_justifications original_df jcol
                                                matching_docs))
            else "" in
          if Py.truthy justification_text then justification_text
          else "Justification not provided"
      end
  end.

Definition policy_columns (regular_columns : list string) : list string :=
  filter (fun col => col <> "country") regular_columns.

(** [df[col] = value] on every row: a new last column, or the existing
    column overwritten. *)
Definition set_column (col : string) (value : list cell -> cell)
    (df : DataFrame) : DataFrame :=
  match col_index col (df_columns df) with
  | Some i =>
      mkDataFrame (df_columns df) ((fun r => <[i := value r]> r) <$> df_rows df)
  | None =>
      mkDataFrame (df_columns df ++ [col])%list
                  ((fun r => (r ++ [value r])%list) <$> df_rows df)
  end.

Definition _add_justification_columns (original_df result : DataFrame)
    (regular_columns : list string) : DataFrame :=
  match col_index (grouping_key self) (df_columns original_df),
        col_index (grouping_key self) (df_columns result) with
  | Some ik, Some rk =>
      foldl (fun res col =>
               set_column (col ++ "_justification")
                 (fun row =>
                    Str (justification_cell original_df ik
                           (astype_str (cell_at rk row)) col))
                 res)
            result (policy_columns regular_columns)
  | _, _ => result
  end.

(** [df[labels]] *)
Definition select (labels : list string) (df : DataFrame) : DataFrame :=
  mkDataFrame labels
    ((fun r =>
        (fun l => match col_index l (df_columns df) with
                  | Some i => cell_at i r
                  | None => NaN
                  end) <$> labels) <$> df_rows df).

Definition _reorder_columns (result : DataFrame)
    (regular_columns : list string) : DataFrame :=
  let final_column_order :=
    ((if has_column "country" result then ["country"] else [])
     ++ [grouping_key self]
     ++ (policy_columns regular_columns ≫= fun col =>
           col :: (if has_column (col ++ "_justification")%string result
                   then [(col ++ "_justification")%string] else [])))%list in
  let existing_columns :=
    filter (fun col => has_column col result = true) final_column_order in
  select existing_columns result.

(** [agg] refuses an empty dictionary with [ValueError], so that the call
    of [_aggregate_regular_columns] raises when there is no regular
    column.  After that the frame is read by position.  pandas resolves
    the two masks of [_add_justification_columns] by index label, and
    [explode] repeats the label of a row on the rows it gives: label and
    position agree as long as no row lists one code twice, and the frames
    on which they do not are outside this definition. *)
Definition aggregate (df : DataFrame) : res DataFrame :=
  match _validate_input df with
  | Raise e => Raise e
  | Ok _ =>
      let df := _safe_explode_countries df in
      let '(regular_columns, justification_columns) :=
        _categorize_columns df in
      if decide (regular_columns = []) then
        Raise (ValueError "No objects to concatenate")
      else
        let result := _aggregate_regular_columns df regular_columns in
        let result := _add_justification_columns df result regular_columns in
        let result := _reorder_columns result regular_columns in
        Ok result
  end.

End Methods.

End Aggregator.

(* ===================================================================== *)
(** ** application/use_cases/llm_processor.py *)
(* ===================================================================== *)

(** A Python [dict] with string keys and values, in insertion order. *)
Definition dict : Type := list (string * string).

Fixpoint dict_get (k : string) (d : dict) : option string :=
  match d with
  | [] => None
  | (k', v) :: d' => if decide (k' = k) then Some v else dict_get k d'
  end.

(** [d[k] = v]: the value replaced in place, or a new last entry. *)
Fixpoint dict_set (k v : string) (d : dict) : dict :=
  match d with
  | [] => [(k, v)]
  | (k', v') :: d' =>
      if decide (k' = k) then (k, v) :: d' else (k', v') :: dict_set k v d'
  end.

(** [d.setdefault(k, v)] *)
Definition dict_setdefault (k v : string) (d : dict) : dict :=
  match dict_get k d with
  | Some _ => d
  | None => dict_set k v d
  end.

(** [d.update(d2)], which is what [**d2] does inside a dict display. *)
Definition dict_update (d d2 : dict) : dict :=
  foldl (fun acc kv => dict_set kv.1 kv.2 acc) d d2.

(** [pd.DataFrame(records)]: the union of the keys in order of appearance;
    a key a record lacks gives a null. *)
Definition DataFrame_of_records (records : list dict) : DataFrame :=
  let cols := remove_dups (records ≫= fun d => d.*1) in
  mkDataFrame cols
    ((fun d => (fun c => match dict_get c d with
                         | Some v => Str v
                         | None => NaN
                         end) <$> cols) <$> records).

(** [try: m except Exception: pass] around a call whose value is unused. *)
Definition swallow {S A} (m : M S A) : M S unit :=
  fun s => match m s with (_, s') => (Ok tt, s') end.

(** [try: m except Exception as e: h e] *)
Definition try_except {S A} (m : M S A) (h : exn -> M S A) : M S A :=
  fun s => match m s with
           | (Ok a, s') => (Ok a, s')
           | (Raise e, s') => h e s'
           end.

(** [try: m finally: f] *)
Definition try_finally {S A} (m : M S A) (f : M S unit) : M S A :=
  fun s => match m s with
           | (r, s') => match f s' with
                        | (Ok _, s'') => (r, s'')
                        | (Raise e, s'') => (Raise e, s'')
                        end
           end.

(** [str(e)] *)
Definition str_exn (e : exn) : string :=
  match e with
  | ValueError msg | InvalidColumnNameError msg | RuntimeError msg
  | FileNotFoundError msg => msg
  | KeyError msg => "'" ++ msg ++ "'"
  | HTTPException _ _ => ""
  end.

Module LLMProcessor.

Section Run.
Context {S : Type}.
(** [document.exists()] and [self.client.process], whose prompt is built
    from the context, the columns and the name of the document. *)
Variable exists_ : Path.t -> bool.
Variable client_process :
  Path.t -> string -> list Column.t -> res (list dict).

Variables (context : string) (columns : list Column.t).
Variable row_callback : dict -> M S unit.

Local Open Scope method_scope.

(** The record of a document that was processed. *)
Definition success_record (file_name : string) (item : dict) : dict :=
  dict_set "error" "" (dict_update [("source_file", file_name)] item).

(** The record of a document whose processing raised. *)
Definition error_record (file_name err_msg : string) : dict :=
  foldl (fun record col =>
           dict_setdefault (Column.name col ++ "_justification") ""
             (dict_setdefault (Column.name col) "" record))
        [("source_file", file_name);
         ("error", String.substring 0 1000 err_msg)]
        columns.

(** The body of the loop for one document: the record it appends. *)
Definition process_document (document : Path.t) : M S dict :=
  if negb (exists_ document) then
    raise (FileNotFoundError
             ("Document " ++ Path.to_str document ++ " does not exist."))
  else
    let file_name := Path.name document in
    let attempt : res dict :=
      match client_process document context columns with
      | Raise e => Raise e
      | Ok [] =>
          Raise (ValueError ("No results returned for document " ++
                             Path.to_str document ++ "."))
      | Ok (item :: _) => Ok (success_record file_name item)
      end in
    match attempt with
    | Ok record =>
        swallow (row_callback record) ;;; ret record
    | Raise e =>
        let record := error_record file_name (str_exn e) in
        swallow (row_callback record) ;;; ret record
    end.

Fixpoint run_loop (documents : list Path.t) (records : list dict)
  : M S (list dict) :=
  match documents with
  | [] => ret records
  | document :: documents' =>
      record <- process_document document ;;
      run_loop documents' (records ++ [record])%list
  end.

Definition run (documents : list Path.t) : M S DataFrame :=
  records <- run_loop documents [] ;;
  ret (DataFrame_of_records records).
End Run.

End LLMProcessor.

(* ===================================================================== *)
(** ** infrastructure/repository/job_repo_inmemory.py and
       application/use_cases/job_lifecycle.py *)
(* ===================================================================== *)

Module JobLifecycle.

(** One data line of the raw CSV, as [csv.DictWriter] writes it: for
    every field name of the header, the text of the record under that
    key, or [''] when the record has no such key. *)
Definition csv_row : Type := list (string * string).

Definition row_text (k : string) (r : csv_row) : string :=
  default "" (dict_get k r).

(** What the lifecycle acts on: the store of the repository, in which a
    job is the one object every holder of it sees, and for every job the
    data lines of [raw_data_{job_id}.csv], absent while the path does not
    exist.  The header of that file is always [all_fieldnames] of the
    job, whose columns never change. *)
Record World : Type := mkWorld {
  repo : gmap UUID Job.t;
  raw_csv : gmap UUID (list csv_row)
}.

Definition set_repo (f : gmap UUID Job.t -> gmap UUID Job.t) (w : World)
  : World := mkWorld (f (repo w)) (raw_csv w).
Definition set_raw_csv
    (f : gmap UUID (list csv_row) -> gmap UUID (list csv_row)) (w : World)
  : World := mkWorld (repo w) (f (raw_csv w)).

(** The state of one call of [_process_remaining_files]: the world and
    the two sets local to the call that [row_callback] closes over. *)
Record Session : Type := mkSession {
  world : World;
  total_processed_files : gset string;
  error_files : gset string
}.

Definition set_world (f : World -> World) (s : Session) : Session :=
  mkSession (f (world s)) (total_processed_files s) (error_files s).

(** Run a computation on the world inside a session, and a method of
    [Job] on the job object stored under [job_id]. *)
Definition in_world {A} (m : M World A) : M Session A :=
  fun s => match m (world s) with
           | (r, w') => (r, set_world (fun _ => w') s)
           end.

Local Open Scope method_scope.

(** [InMemoryJobRepository] *)
Definition new_job (job : Job.t) : M World UUID :=
  modify (set_repo (fun st => <[Job.id job := job]> st)) ;;; ret (Job.id job).

Definition get_job (job_id : UUID) : M World Job.t :=
  w <- get ;;
  match repo w !! job_id with
  | Some job => ret job
  | None => raise (ValueError "Job not found")
  end.

(** [update_job(job)] for the job object held under [job_id]: the store
    already refers to that object, so only the check remains. *)
Definition update_job (job_id : UUID) : M World unit :=
  w <- get ;;
  match repo w !! job_id with
  | Some _ => ret tt
  | None => raise (ValueError "Job not found")
  end.

(** A method called on the job object stored under [job_id]. *)
Definition on_job {A} (job_id : UUID) (m : M Job.t A) : M World A :=
  fun w => match repo w !! job_id with
           | Some job =>
               match m job with
               | (r, job') => (r, set_repo (fun st => <[job_id := job']> st) w)
               end
           | None => (Raise (ValueError "Job not found"), w)
           end.

Definition create_job (files : list Path.t) (context : string)
    (columns : list Column.t) (job_id : UUID) : M World UUID :=
  new_job (Job.__init__ files context columns job_id).

Definition all_fieldnames (columns : list Column.t) : list string :=
  ("source_file" ::
     (columns ≫= fun col =>
        [Column.name col; (Column.name col ++ "_justification")%string])
     ++ ["error"])%list.

Section Lifecycle.
(** How [pd.read_csv] reads the text of one cell (nulls, numbers), a
    matter of pandas and not of these sources. *)
Variable read_text : string -> cell.
Variable exists_ : Path.t -> bool.
Variable client_process :
  Path.t -> string -> list Column.t -> res (list dict).

(** [DataFrame.to_csv] writes a null as the empty text. *)
Definition to_csv_text (c : cell) : string :=
  match c with NaN => "" | Str s => s end.

(** [pd.read_csv(raw_csv_path)] *)
Definition read_csv (fieldnames : list string) (lines : list csv_row)
  : DataFrame :=
  mkDataFrame fieldnames
    ((fun r => (fun k => read_text (row_text k r)) <$> fieldnames)
     <$> lines).

Definition _get_processed_files (raw : option (list csv_row))
  : list string :=
  match raw with
  | None => []
  | Some lines =>
      (fun r => astype_str (read_text (row_text "source_file" r))) <$> lines
  end.

(** The lines [_clean_raw_csv_errors] writes back. *)
Definition _clean_raw_csv_errors (lines : list csv_row) : list csv_row :=
  (fun r : csv_row =>
     (fun kv : string * string => (kv.1, to_csv_text (read_text kv.2))) <$> r)
  <$> filter (fun r => Job.error_value (read_text (row_text "error" r)) = false)
             lines.

Definition _get_unprocessed_files (job : Job.t)
    (processed_files : list string) (error_files : gset string)
  : list Path.t :=
  filter (fun file_path =>
            Path.name file_path ∉ processed_files
            \/ Path.name file_path ∈ error_files)
         (Job.files job).

Definition _update_job_progress (job_id : UUID) (files_processed : Z)
    (error_count : option Z) : M World unit :=
  swallow (on_job job_id (Job.update_progress files_processed error_count)).

(** [row_callback(record, index, total)], the closure defined in
    [_process_remaining_files]. *)
Definition row_callback (job_id : UUID) (processed_sources : gset string)
    (fieldnames : list string)
    (baseline_files_processed baseline_error_count : Z)
    (record : dict) : M Session unit :=
  let src := default "None" (dict_get "source_file" record) in
  if decide (src ∈ processed_sources) then ret tt
  else
    s <- get ;;
    if decide (src ∈ total_processed_files s) then ret tt
    else
      (* open(raw_csv_path, mode): 'w' creates the file and its header *)
      modify (set_world (set_raw_csv (fun fs =>
        match fs !! job_id with
        | Some _ => fs
        | None => <[job_id := []]> fs
        end))) ;;;
      (* writer.writerow(record) *)
      (if forallb (fun k => bool_decide (k ∈ fieldnames)) record.*1 then
         modify (set_world (set_raw_csv (fun fs =>
           <[job_id :=
               (default [] (fs !! job_id)
                ++ [(fun k => (k, default "" (dict_get k record)))
                    <$> fieldnames])%list]> fs)))
       else raise (ValueError "dict contains fields not in fieldnames")) ;;;
      modify (fun s => mkSession (world s)
                         (total_processed_files s ∪ {[ src ]})
                         (error_files s)) ;;;
      (if Py.truthy (default "" (dict_get "error" record)) then
         modify (fun s => mkSession (world s) (total_processed_files s)
                            (error_files s ∪ {[ src ]}))
       else ret tt) ;;;
      s <- get ;;
      let new_files_processed :=
        baseline_files_processed
        + Z.of_nat (size (total_processed_files s)) in
      let new_error_count :=
        baseline_error_count + Z.of_nat (size (error_files s)) in
      in_world (_update_job_progress job_id new_files_processed
                                     (Some new_error_count)).

(** The work set computed when no list is given: the files of the job
    whose name is not in [processed_sources]. *)
Definition remaining_files (job : Job.t) (processed_sources : gset string)
  : list Path.t :=
  filter (fun p => Path.name p ∉ processed_sources) (Job.files job).

Definition _process_remaining_files (job_id : UUID)
    (processed_sources : gset string)
    (files_to_process : option (list Path.t)) : M World unit :=
  job <- get_job job_id ;;
  let files_to_process :=
    match files_to_process with
    | Some l => l
    | None => remaining_files job processed_sources
    end in
  let all_fieldnames := all_fieldnames (Job.columns job) in
  if decide (files_to_process = []) then
    w <- get ;;
    match raw_csv w !! job_id with
    | Some lines =>
        on_job job_id (Job.complete (read_csv all_fieldnames lines))
    | None => ret tt
    end
  else
    let baseline_files_processed := Job.files_processed job in
    let baseline_error_count := Job.error_count job in
    fun w =>
      match LLMProcessor.run exists_ client_process
              (Job.context job) (Job.columns job)
              (row_callback job_id processed_sources all_fieldnames
                 baseline_files_processed baseline_error_count)
              files_to_process
              (mkSession w ∅ ∅) with
      | (Raise e, s) => (Raise e, world s)
      | (Ok df_new, s) =>
          let df_raw :=
            match raw_csv (world s) !! job_id with
            | Some lines => read_csv all_fieldnames lines
            | None => df_new
            end in
          on_job job_id (Job.complete df_raw) (world s)
      end.

(** [process_job] once the job is known to be RUNNING: the rest of the
    method after the dispatch on the status. *)
Definition process_running_job (job_id : UUID) (resume : bool)
  : M World unit :=
  w <- get ;;
  let raw := raw_csv w !! job_id in
  processed_sources <-
    (if bool_decide (is_Some raw) && resume then
       let processed_sources : gset string :=
         list_to_set (_get_processed_files raw) in
       on_job job_id
         (Job.update_progress (Z.of_nat (size processed_sources)) None) ;;;
       ret processed_sources
     else ret ∅) ;;
  try_finally
    (try_except
       (_process_remaining_files job_id processed_sources None)
       (fun e => on_job job_id (Job.fail (str_exn e))))
    (update_job job_id).

Definition process_job (job_id : UUID) (resume : bool) : M World unit :=
  job <- get_job job_id ;;
  match Job.status job with
  | Job.PENDING =>
      on_job job_id Job.start ;;; update_job job_id ;;;
      process_running_job job_id resume
  | Job.RUNNING => process_running_job job_id resume
  | Job.DONE | Job.DONE_WITH_ERRORS | Job.FAILED => ret tt
  end.

(** The cleaned CSV is returned as its data lines. *)
Definition prepare_retry_and_get_cleaned_csv (job_id : UUID)
  : M World (list csv_row) :=
  job <- get_job job_id ;;
  if decide (Job.status job <> Job.DONE_WITH_ERRORS) then
    raise (ValueError "Only jobs with done_with_errors status can be retried")
  else
    w <- get ;;
    match raw_csv w !! job_id with
    | None => raise (RuntimeError "Raw CSV not found for job")
    | Some lines =>
        modify (set_raw_csv (fun fs =>
                  <[job_id := _clean_raw_csv_errors lines]> fs)) ;;;
        w <- get ;;
        let processed_files := _get_processed_files (raw_csv w !! job_id) in
        on_job job_id
          (Job.restart_for_retry (Z.of_nat (length processed_files))) ;;;
        on_job job_id (modify (Job.set_error_count 0)) ;;;
        update_job job_id ;;;
        w <- get ;;
        ret (default [] (raw_csv w !! job_id))
    end.

Definition _update_job_for_retry (job_id : UUID)
    (files_processed_count : Z) : M World unit :=
  on_job job_id (Job.restart_for_retry files_processed_count) ;;;
  update_job job_id.

Definition retry_failed_records (job_id : UUID) : M World unit :=
  job <- get_job job_id ;;
  if decide (Job.status job <> Job.RUNNING) then ret tt
  else
    w <- get ;;
    match raw_csv w !! job_id with
    | None =>
        on_job job_id (Job.fail "Raw CSV not found") ;;; update_job job_id
    | Some lines =>
        try_finally
          (try_except
             (let processed_files := _get_processed_files (Some lines) in
              let files_to_process :=
                _get_unprocessed_files job processed_files ∅ in
              if decide (files_to_process = []) then
                on_job job_id
                  (Job.complete
                     (read_csv (all_fieldnames (Job.columns job)) lines)) ;;;
                update_job job_id
              else
                _process_remaining_files job_id
                  (list_to_set processed_files) (Some files_to_process))
             (fun e => on_job job_id (Job.fail (str_exn e))))
          (update_job job_id)
    end.

Definition get_job_result (job_id : UUID) : M World DataFrame :=
  job <- get_job job_id ;;
  match Job.result job with
  | Some df =>
      if decide (Job.status job ∈ [Job.DONE; Job.DONE_WITH_ERRORS])
      then ret df
      else raise (RuntimeError "Job is not done or has no result.")
  | None => raise (RuntimeError "Job is not done or has no result.")
  end.

End Lifecycle.

End JobLifecycle.

(* ===================================================================== *)
(** ** presentation/controllers/job_controller.py: job submission *)
(* ===================================================================== *)

Module JobController.

Import JobLifecycle.
Local Open Scope method_scope.

Section Controller.
Variable json_loads : string -> option ColumnParser.json.
(** [str(get_job_temp_dir(job_id))] *)
Variable get_job_temp_dir : UUID -> string.

(** The loop that stages the uploads, as far as the file names go: an
    upload is given by its [filename], which may be [None], and the
    result lists the destinations.  Writing an upload to its destination
    (l.56-58), and the [OSError] of a destination that cannot be opened,
    are left out. *)
Fixpoint stage (tmp_dir : string) (files : list (option string))
  : res (list Path.t) :=
  match files with
  | [] => Ok []
  | None :: _ => Raise (HTTPException 400 FilenameMissing)
  | Some filename :: files' =>
      match stage tmp_dir files' with
      | Ok paths => Ok (Path.mkPath tmp_dir filename :: paths)
      | Raise e => Raise e
      end
  end.

(** [POST /]: [temp_job_id] is the fresh [uuid.uuid4()]; the background
    task that later runs [process_job] is only scheduled here. *)
Definition create_job (files : list (option string)) (context : string)
    (columns : string) (temp_job_id : UUID) : M World UUID :=
  match ColumnParser.parse_columns_payload json_loads columns with
  | Raise e => raise e
  | Ok domain_columns =>
      match stage (get_job_temp_dir temp_job_id) files with
      | Raise e => raise e
      | Ok paths =>
          JobLifecycle.create_job paths context domain_columns temp_job_id
      end
  end.
End Controller.

End JobController.

(* ===================================================================== *)
(** ** Calls on a job, one after the other *)
(* ===================================================================== *)

Module JobCalls.

(** One call of a method of [Job] that changes the job. *)
Inductive call : Type :=
| Start
| UpdateProgress (files_processed : Z) (error_count : option Z)
| Complete (result : DataFrame)
| CompleteWithErrors (result : DataFrame)
| Fail (message : string)
| RestartForRetry (new_files_processed : Z).

Definition perform (c : call) : M Job.t unit :=
  match c with
  | Start => Job.start
  | UpdateProgress fp ec => Job.update_progress fp ec
  | Complete df => Job.complete df
  | CompleteWithErrors df => Job.complete_with_errors df
  | Fail msg => Job.fail msg
  | RestartForRetry n => Job.restart_for_retry n
  end.

(** The job after a sequence of calls, by a caller that goes on after a
    call that raised. *)
Fixpoint perform_all (cs : list call) (j : Job.t) : Job.t :=
  match cs with
  | [] => j
  | c :: cs' => perform_all cs' (perform c j).2
  end.

(** The status from which a call is legal; [update_progress] has none. *)
Definition source_status (c : call) : option Job.JobStatus :=
  match c with
  | Start => Some Job.PENDING
  | UpdateProgress _ _ => None
  | Complete _ | CompleteWithErrors _ | Fail _ => Some Job.RUNNING
  | RestartForRetry _ => Some Job.DONE_WITH_ERRORS
  end.

End JobCalls.

(* ===================================================================== *)
(** ** infrastructure/llm_clients/gemini_client.py: [_normalize] *)
(* ===================================================================== *)

Module GeminiClient.

(** A value of the parsed response as far as [_normalize] looks at it:
    [None], a [str], or any other value, known by its truth value and by
    the text [str()] gives for it. *)
Inductive value : Type :=
| PNone
| PStr (s : string)
| POther (truth : bool) (text : string).

(** What a field of the response maps to: a [dict], or a value that is
    not a [dict]. *)
Inductive info : Type :=
| InfoDict (d : list (string * value))
| InfoValue (v : value).

(** Truth value, as [or] tests it. *)
Definition truthy (v : value) : bool :=
  match v with
  | PNone => false
  | PStr s => Py.truthy s
  | POther truth _ => truth
  end.

(** [str(v)] *)
Definition str (v : value) : string :=
  match v with
  | PNone => "None"
  | PStr s => s
  | POther _ text => text
  end.

(** [d.get(k, dflt)] *)
Fixpoint get (k : string) (d : list (string * value)) (dflt : value) : value :=
  match d with
  | [] => dflt
  | (k', v) :: d' => if decide (k' = k) then v else get k d' dflt
  end.

(** [d[k] = v] *)
Fixpoint set (k : string) (v : value) (d : list (string * value))
  : list (string * value) :=
  match d with
  | [] => [(k, v)]
  | (k', v') :: d' =>
      if decide (k' = k) then (k, v) :: d' else (k', v') :: set k v d'
  end.

Section Normalize.
(** [repr(info)], used in the message of the error only. *)
Variable repr : info -> string.

(** The body of the loop for one field: [(value, just)]. *)
Definition field_values (field : string) (i : info) : res (value * value) :=
  match i with
  | InfoDict d =>
      Ok (get "value" d (PStr "Not specified"),
          get "justification" d (PStr "Not found"))
  | InfoValue v =>
      if bool_decide (field ∈ ["country"; "country_alpha_3_code"]) then
        Ok (match v with
            | PNone => PStr "Not specified"
            | _ => PStr (str v)
            end,
            PStr "")
      else
        Raise (ValueError ("Field '" ++ field
                           ++ "' has unexpected structure: "
                           ++ repr i))
  end.

Fixpoint normalize_from (record : list (string * info))
    (normalized : list (string * value)) : res (list (string * value)) :=
  match record with
  | [] => Ok normalized
  | (field, i) :: record' =>
      match field_values field i with
      | Raise e => Raise e
      | Ok (value, just) =>
          normalize_from record'
            (set (field ++ "_justification") just
               (set field
                    (if truthy value then value else PStr "Not specified")
                    normalized))
      end
  end.

Definition _normalize (record : list (string * info))
  : res (list (string * value)) :=
  normalize_from record [].

End Normalize.

End GeminiClient.

(* ===================================================================== *)
(** ** Notions of the specification *)
(* ===================================================================== *)

Module Spec.

(** A record of the frame with a value in the [error] column that is not
    null and, as a text, not empty. *)
Definition has_nonempty_error (df : DataFrame) : Prop :=
  exists i r s,
    col_index "error" (df_columns df) = Some i /\ r ∈ df_rows df
    /\ cell_at i r = Str s /\ s <> "".

(** A record with an [error] that is not null and not blank: something
    is left of the text once white space is stripped from its ends. *)
Definition has_nonblank_error (df : DataFrame) : Prop :=
  exists i r s,
    col_index "error" (df_columns df) = Some i /\ r ∈ df_rows df
    /\ cell_at i r = Str s /\ Py.strip s <> "".


(** A text made of characters that all satisfy [p]. *)
Fixpoint all_chars (p : ascii -> bool) (s : string) : bool :=
  match s with
  | EmptyString => true
  | String c s' => p c && all_chars p s'
  end.

(** A legal identifier: the whole text matches
    [[a-zA-Z_][a-zA-Z0-9_]*]. *)
Definition identifier (s : string) : bool :=
  match s with
  | EmptyString => false
  | String c s' => Column.is_start c && all_chars Column.is_word s'
  end.

(** A text that occurs at two positions of a list. *)
Definition occurs_twice (x : string) (l : list string) : Prop :=
  exists i j : nat, i <> j /\ l !! i = Some x /\ l !! j = Some x.

(** [v] is the first value of the series that is not null, or [dflt]
    when every value is null. *)
Definition first_non_null (series : list cell) (dflt v : string) : Prop :=
  (exists pre post,
     series = (pre ++ Str v :: post)%list /\ Forall (fun c => c = NaN) pre)
  \/ (Forall (fun c => c = NaN) series /\ v = dflt).

(** [v] is the first value of the series that is not empty: neither null
    nor the empty text. *)
Definition first_non_empty (series : list cell) (v : string) : Prop :=
  exists pre post,
    series = (pre ++ Str v :: post)%list /\ v <> ""
    /\ Forall (fun c => c = NaN \/ c = Str "") pre.

(** Some value of the series that is not null equals ["yes"] when case
    is ignored. *)
Definition some_yes (series : list cell) : Prop :=
  exists s, Str s ∈ series /\ Py.lower s = "yes".

(** A justification text that is kept: not blank and, lower-cased and
    trimmed, none of the placeholder texts. *)
Definition valid_justification (j : string) : Prop :=
  Py.strip j <> ""
  /\ Py.strip (Py.lower j)
     ∉ ["not specified"; "not found"; "nan"; "none"; ""].

(** [text] is the merged justification of the rows given: their entries
    ["<source_file>: <justification>"] with a valid justification,
    without duplicates, in lexicographic order, joined with [" | "], or
    the literal ["Justification not provided"] when there is no entry. *)
Definition merged (df : DataFrame) (jcol : string)
    (rows : list (list cell)) (text : string) : Prop :=
  exists l : list string,
    Sorted String.le l /\ NoDup l
    /\ (forall e, e ∈ l <->
           exists r, r ∈ rows
             /\ valid_justification (Aggregator.justification_text df jcol r)
             /\ e = Aggregator.source_file_text df r ++ ": "
                    ++ Aggregator.justification_text df jcol r)
    /\ text = match l with
              | [] => "Justification not provided"
              | _ => Py.join " | " l
              end.

(** The merged justification of a group as the claim words it: when some
    value is ["yes"] up to case, the rows whose raw value is exactly
    ["yes"] contribute; otherwise, when every value is no-like, the rows
    valued ["no"] or ["not specified"] contribute; otherwise no row does;
    and an empty set of entries gives the literal. *)
Definition justification_as_stated (df : DataFrame) (ik : nat)
    (country_code col : string) : string :=
  match col_index col (df_columns df) with
  | None => "Justification not provided"
  | Some i =>
      let group := Aggregator.country_rows df ik country_code in
      let vals := Aggregator.series_vals i group in
      let contributing :=
        if existsb (fun v => bool_decide (v = "yes")) vals then
          filter (fun r => cell_at i r = Str "yes") group
        else if forallb (fun v => bool_decide
                           (v ∈ ["no"; "not specified"; ""; "nan"])) vals
        then filter (fun r =>
                       Py.strip (Py.lower (astype_str (cell_at i r)))
                       ∈ ["no"; "not specified"]) group
        else [] in
      match Py.sorted_set
              (Aggregator.formatted_justifications
                 df (col ++ "_justification") contributing) with
      | [] => "Justification not provided"
      | l => Py.join " | " l
      end
  end.

(** The data lines of the checkpoint log of a job, none while the file
    does not exist, and the [source_file] of each, in order. *)
Definition log_lines (w : JobLifecycle.World) (job_id : UUID)
  : list JobLifecycle.csv_row :=
  default [] (JobLifecycle.raw_csv w !! job_id).

Definition logged (w : JobLifecycle.World) (job_id : UUID) : list string :=
  JobLifecycle.row_text "source_file" <$> log_lines w job_id.




End Spec.

(* ===================================================================== *)
(** ** Sample inputs *)
(* ===================================================================== *)

Module Samples.

Definition doc (n : string) : Path.t := Path.mkPath "/tmp/hpm_jobs/7" n.

Definition hpv : Column.t := Column.mkColumn "hpv" "".

(** A job of three documents in a given status, with given counters. *)
Definition job_in (st : Job.JobStatus) (result : option DataFrame)
    (msg : option string) (processed errors : Z) : Job.t :=
  Job.mkJob 7%N [doc "a.pdf"; doc "b.pdf"; doc "c.pdf"] "ctx" [hpv]
            st result msg 3 processed errors.

Definition running : Job.t := job_in Job.RUNNING None None 0 0.
Definition pending : Job.t := job_in Job.PENDING None None 0 0.

(** A log of one record whose [error] is a single space. *)
Definition df_blank_error : DataFrame :=
  mkDataFrame ["source_file"; "hpv"; "hpv_justification"; "error"]
              [[Str "a.pdf"; NaN; NaN; Str " "]].

(** A log with one clean record and one failed record. *)
Definition df_one_error : DataFrame :=
  mkDataFrame ["source_file"; "hpv"; "hpv_justification"; "error"]
              [[Str "a.pdf"; Str "yes"; Str "p. 3"; NaN];
               [Str "b.pdf"; NaN; NaN; Str "No results returned"]].

(** A log with clean records only. *)
Definition df_clean : DataFrame :=
  mkDataFrame ["source_file"; "hpv"; "hpv_justification"; "error"]
              [[Str "a.pdf"; Str "yes"; Str "p. 3"; NaN]].

(** A job that ended with two failed documents out of three. *)
Definition done_with_errors : Job.t :=
  job_in Job.DONE_WITH_ERRORS (Some df_one_error) None 3 2.

(** The name ["abc"] followed by a line feed. *)
Definition abc_newline : string := "abc" ++ String Column.newline "".

(** A decoder that returns one given payload. *)
Definition loads (payload : ColumnParser.json) (raw : string)
  : option ColumnParser.json := Some payload.

Definition item (n : string) : ColumnParser.jitem :=
  ColumnParser.JDict [("name", ColumnParser.JStr n)].

(** Two names that normalize to the same identifier. *)
Definition payload_dup : ColumnParser.json :=
  ColumnParser.JList [item "Vaccination for HPV"; item "vaccination-for-hpv"].

(** The same two names followed by a name that is not valid. *)
Definition payload_dup_invalid : ColumnParser.json :=
  ColumnParser.JList
    [item "Vaccination for HPV"; item "vaccination-for-hpv"; item "123abc"].

(** A record set without the key column. *)
Definition df_no_key : DataFrame :=
  mkDataFrame ["source_file"; "country"; "hpv"; "error"]
              [[Str "a.pdf"; Str "Austria"; Str "yes"; NaN]].

(** The two rows of the row-explosion example of the specification. *)
Definition df_multi : DataFrame :=
  mkDataFrame ["source_file"; "country_alpha_3_code"; "country"; "hpv"]
              [[Str "a.pdf"; Str "AUT, DEU"; Str "Austria, Germany"; Str "yes"];
               [Str "b.pdf"; Str "AUT, DEU"; Str "Austria"; Str "no"]].

(** Two records of one country, the first with a blank name. *)
Definition df_blank_name : DataFrame :=
  mkDataFrame ["country_alpha_3_code"; "country"]
              [[Str "DEU"; Str " "]; [Str "DEU"; Str "Germany"]].

(** The yes-wins example of the specification. *)
Definition df_yes_wins : DataFrame :=
  mkDataFrame ["source_file"; "country_alpha_3_code"; "hpv";
               "hpv_justification"]
              [[Str "a"; Str "AUT"; Str "no"; Str "j1"];
               [Str "b"; Str "AUT"; Str "yes"; Str "j2"];
               [Str "c"; Str "AUT"; Str "no"; Str "j3"]].

(** One record whose value is ["Yes"], and one whose value is neither
    yes nor no-like. *)
Definition df_capital_yes : DataFrame :=
  mkDataFrame ["source_file"; "country_alpha_3_code"; "hpv";
               "hpv_justification"]
              [[Str "a"; Str "AUT"; Str "Yes"; Str "j"]].

Definition df_ambiguous : DataFrame :=
  mkDataFrame ["source_file"; "country_alpha_3_code"; "hpv";
               "hpv_justification"]
              [[Str "a"; Str "AUT"; Str "partially"; Str "j"]].

(** A reader of CSV cells: the empty text is a null. *)
Definition read_text (t : string) : cell :=
  if decide (t = "") then NaN else Str t.

(** Every document exists; the client answers "yes" for [a.pdf], raises
    for [b.pdf] and returns a field the job did not ask for on [c.pdf]. *)
Definition exists_ (p : Path.t) : bool := true.

Definition client_process (p : Path.t) (context : string)
    (columns : list Column.t) : res (list dict) :=
  if decide (Path.name p = "a.pdf") then
    Ok [[("hpv", "yes"); ("hpv_justification", "p. 3")]]
  else if decide (Path.name p = "b.pdf") then
    Raise (RuntimeError "service unavailable")
  else Ok [[("hpv", "no"); ("hpv_justification", "p. 9"); ("extra", "x")]].

(** The job above, RUNNING, with the record of [a.pdf] already logged. *)
Definition line_a : JobLifecycle.csv_row :=
  [("source_file", "a.pdf"); ("hpv", "yes"); ("hpv_justification", "p. 3");
   ("error", "")].

Definition interrupted_world : JobLifecycle.World :=
  JobLifecycle.mkWorld {[ 7%N := job_in Job.RUNNING None None 1 0 ]}
                       {[ 7%N := [line_a] ]}.

(** The same job, just submitted. *)
Definition submitted_world : JobLifecycle.World :=
  JobLifecycle.mkWorld {[ 7%N := pending ]} ∅.

(** The all-no example of the specification. *)
Definition df_all_no : DataFrame :=
  mkDataFrame ["source_file"; "country_alpha_3_code"; "hpv";
               "hpv_justification"]
              [[Str "a"; Str "AUT"; Str "no"; Str "not found"];
               [Str "b"; Str "AUT"; Str "not specified"; Str "note"]].

Definition empty_world : JobLifecycle.World := JobLifecycle.mkWorld ∅ ∅.

End Samples.

(* ===================================================================== *)
(** ** Further notions and sample inputs *)
(* ===================================================================== *)

Module Notions.

(** The transitions of the job state machine. *)
Inductive edge : Job.JobStatus -> Job.JobStatus -> Prop :=
| edge_start : edge Job.PENDING Job.RUNNING
| edge_done : edge Job.RUNNING Job.DONE
| edge_done_with_errors : edge Job.RUNNING Job.DONE_WITH_ERRORS
| edge_failed : edge Job.RUNNING Job.FAILED
| edge_retry : edge Job.DONE_WITH_ERRORS Job.RUNNING.

(** A character that is not a capital letter of ASCII. *)
Definition not_capital (c : ascii) : bool := negb (Column.in_range 65 90 c).

(** A character that may occur in an accepted name: a word character or a
    line feed, and not a capital letter. *)
Definition settled (c : ascii) : bool :=
  (Column.is_word c || bool_decide (c = Column.newline)) && not_capital c.

(** The policy fields of a record set with the columns [cols]: every
    column but the key, the name, the source file, the error and the
    justifications, in the order of the record set. *)
Definition policy_fields (cols : list string) : list string :=
  filter (fun col =>
            (col ∉ ["country_alpha_3_code"; "country"; "source_file"; "error"])
            /\ Py.endswith col "_justification" = false) cols.

(** The regular fields of a record set with the columns [cols]: the
    policy fields and the name. *)
Definition regular_fields (cols : list string) : list string :=
  filter (fun col =>
            (col ∉ ["country_alpha_3_code"; "source_file"; "error"])
            /\ Py.endswith col "_justification" = false) cols.

(** The labels of the aggregated frame: the name if the record set has
    it, the key, then every policy field followed by its justification. *)
Definition output_labels (cols : list string) : list string :=
  ((if decide ("country" ∈ cols) then ["country"] else [])
   ++ "country_alpha_3_code"
      :: (policy_fields cols ≫= fun col =>
            [col; (col ++ "_justification")%string]))%list.

(** The cell of a row of a frame under a label. *)
Definition at_label (df : DataFrame) (label : string) (row : list cell)
  : option cell :=
  col_index label (df_columns df) ≫= fun i => row !! i.

(** The cell of a regular field for the group of a key. *)
Definition regular_cell (df : DataFrame) (ik : nat) (k col : string) : cell :=
  match col_index col (df_columns df) with
  | None => NaN
  | Some i =>
      if decide (col = "country")
      then Str (Aggregator._get_first_value
                  (cell_at i <$> Aggregator.country_rows df ik k))
      else Str (Aggregator._apply_yes_wins_rule
                  (cell_at i <$> Aggregator.country_rows df ik k))
  end.

(** The frame of the reduction of [df] once the justification columns of
    the fields [done] are added: the key, the regular fields, then the
    justifications, with one row per key. *)
Definition paired_frame (df : DataFrame) (ik : nat)
    (regular done : list string) : DataFrame :=
  mkDataFrame
    ("country_alpha_3_code"
     :: (regular ++ ((fun col => col ++ "_justification")%string <$> done)))%list
    ((fun k =>
        Str k :: ((regular_cell df ik k <$> regular)
                  ++ ((fun col => Str (Aggregator.justification_cell df ik k col))
                      <$> done)))%list
     <$> Aggregator.group_keys df ik).

(** The record [LLMProcessor.run] makes of a document that exists, by
    the outcome of the client: the first item the client returns, under
    the name of the document and with an empty error; or, when the client
    returns no item or raises, the error record of the message. *)
Inductive record_of
    (client_process : Path.t -> string -> list Column.t -> res (list dict))
    (context : string) (columns : list Column.t) (d : Path.t)
  : dict -> Prop :=
| record_of_item (item : dict) (rest : list dict) :
    client_process d context columns = Ok (item :: rest) ->
    record_of client_process context columns d
      (LLMProcessor.success_record (Path.name d) item)
| record_of_nothing :
    client_process d context columns = Ok [] ->
    record_of client_process context columns d
      (LLMProcessor.error_record columns (Path.name d)
         ("No results returned for document " ++ Path.to_str d ++ "."))
| record_of_exception (e : exn) :
    client_process d context columns = Raise e ->
    record_of client_process context columns d
      (LLMProcessor.error_record columns (Path.name d) (str_exn e)).

(** The job [j0] with the counters [row_callback] has written for the
    session [s]: the baselines of [j0] plus the sizes of the two sets. *)
Definition progressed (j0 : Job.t) (s : JobLifecycle.Session) : Job.t :=
  Job.set_error_count
    (Job.error_count j0 + Z.of_nat (size (JobLifecycle.error_files s)))
    (Job.set_files_processed
       (Job.files_processed j0
        + Z.of_nat (size (JobLifecycle.total_processed_files s)))
       j0).

(** The lines of a log that carry an error text. *)
Definition error_lines (lines : list JobLifecycle.csv_row)
  : list JobLifecycle.csv_row :=
  filter (fun r => JobLifecycle.row_text "error" r <> "") lines.

(** The state of a run that started on the job [j0] with the log [l0]:
    the stored job is [j0] with the counters of the session, and the log
    has grown by one line per name of the session, of which one per name
    in error carries an error text. *)
Definition in_step (job_id : UUID) (j0 : Job.t)
    (l0 : list JobLifecycle.csv_row) (s : JobLifecycle.Session) : Prop :=
  JobLifecycle.repo (JobLifecycle.world s) !! job_id = Some (progressed j0 s)
  /\ JobLifecycle.error_files s ⊆ JobLifecycle.total_processed_files s
  /\ exists new,
       Spec.log_lines (JobLifecycle.world s) job_id = (l0 ++ new)%list
       /\ length new = size (JobLifecycle.total_processed_files s)
       /\ length (error_lines new) = size (JobLifecycle.error_files s).

(** Two states of one job: what identifies the job is the same. *)
Definition same_identity (j j' : Job.t) : Prop :=
  Job.id j' = Job.id j /\ Job.files j' = Job.files j
  /\ Job.context j' = Job.context j /\ Job.columns j' = Job.columns j
  /\ Job.total_files j' = Job.total_files j.

(** The lines a run writes for the records it is handed, in order: a
    record is written unless its [source_file] was loaded from the log
    ([ps]) or already written in this run ([seen]), or it has a field
    that is not in the header. *)
Fixpoint written (ps : gset string) (fieldnames : list string)
    (seen : gset string) (records : list dict)
  : list JobLifecycle.csv_row :=
  match records with
  | [] => []
  | record :: records' =>
      let src := default "None" (dict_get "source_file" record) in
      if decide (src ∈ ps \/ src ∈ seen) then
        written ps fieldnames seen records'
      else if forallb (fun k => bool_decide (k ∈ fieldnames)) record.*1 then
        ((fun k => (k, default "" (dict_get k record))) <$> fieldnames)
        :: written ps fieldnames (seen ∪ {[ src ]}) records'
      else written ps fieldnames seen records'
  end.

(** A character other than the comma, and a text that is one trimmed
    value: no comma in it and no white space at its ends. *)
Definition no_comma (c : ascii) : bool := negb (bool_decide (c = ","%char)).

Definition single_value (s : string) : Prop :=
  Spec.all_chars no_comma s = true /\ Py.strip s = s.

(** A field of a response that [_normalize] accepts: it maps to a
    [dict], or it is one of the two country fields. *)
Definition structured (fi : string * GeminiClient.info) : Prop :=
  (exists d, fi.2 = GeminiClient.InfoDict d)
  \/ fi.1 ∈ ["country"; "country_alpha_3_code"].

(** The codes a row lists under the key, trimmed. *)
Definition listed_codes (ic : nat) (r : list cell) : list string :=
  Py.strip <$> Py.split_comma (astype_str (cell_at ic r)).

(** A record set in which no row lists one code twice.  The rows a row
    explodes into then have different keys, so that no group of the
    exploded record set holds two rows with one index label.  Without the
    key or without the name no row is exploded. *)
Definition codes_listed_once (df : DataFrame) : Prop :=
  match col_index "country_alpha_3_code" (df_columns df),
        col_index "country" (df_columns df) with
  | Some ic, Some _ => Forall (fun r => NoDup (listed_codes ic r)) (df_rows df)
  | _, _ => True
  end.

#[global] Instance codes_listed_once_dec (df : DataFrame) :
  Decision (codes_listed_once df).
Proof. unfold codes_listed_once. repeat case_match; apply _. Defined.

End Notions.

(** Further sample inputs. *)
Module Cases.

(** Only [a.pdf] exists. *)
Definition only_a (p : Path.t) : bool :=
  bool_decide (Path.name p = "a.pdf").

(** A row callback that counts its calls and raises on every one. *)
Definition counting : dict -> M nat unit :=
  fun _ n => (Raise (RuntimeError "disk full"), Datatypes.S n).

(** The job of three documents, ended with errors, and its log: the
    record of [a.pdf] and a failed record of [b.pdf]. *)
Definition line_b_failed : JobLifecycle.csv_row :=
  [("source_file", "b.pdf"); ("hpv", ""); ("hpv_justification", "");
   ("error", "service unavailable")].

Definition ended_world : JobLifecycle.World :=
  JobLifecycle.mkWorld {[ 7%N := Samples.done_with_errors ]}
                       {[ 7%N := [Samples.line_a; line_b_failed] ]}.

End Cases.

(* ===================================================================== *)
(** * Properties *)
(* ===================================================================== *)

(** ** The library functions, on examples *)

Example strip_example : Py.strip "  AUT " = "AUT".
Proof. reflexivity. Qed.

Example lower_example : Py.lower "Not Specified" = "not specified".
Proof. reflexivity. Qed.

Example split_comma_examples :
  Py.split_comma "AUT, DEU" = ["AUT"; "DEU"]
  /\ Py.split_comma "a,  ,b" = ["a"; ""; "b"]
  /\ Py.split_comma "" = [""]
  /\ Py.split_comma "a," = ["a"; ""].
Proof. repeat split. Qed.

Example sorted_set_example :
  Py.sorted_set ["b: x"; "a: y"; "B"; "a: y"] = ["B"; "a: y"; "b: x"].
Proof. reflexivity. Qed.

Example join_example : Py.join " | " ["a: y"; "b: x"] = "a: y | b: x".
Proof. reflexivity. Qed.

(** The all-no example of the specification: the value is the first
    non-null value, and of the two justifications only the valid one is
    kept. *)
Example all_no_example :
  Aggregator.aggregate Aggregator.__init__ Samples.df_all_no
  = Ok (mkDataFrame ["country_alpha_3_code"; "hpv"; "hpv_justification"]
                    [[Str "AUT"; Str "no"; Str "b: note"]]).
Proof. reflexivity. Qed.

(** ** The job state machine *)

Section JobProperties.
Import Job.

Lemma error_value_spec (c : cell) :
  error_value c = true <-> exists s, c = Str s /\ Py.strip s <> "".
Proof.
  unfold error_value. destruct c as [|s]; simpl.
  - split; [discriminate | intros (s & ? & _); discriminate].
  - rewrite andb_true_iff, !negb_true_iff, !bool_decide_eq_false. split.
    + intros [_ H]. eauto.
    + intros (s' & [= <-] & H). split; [| done].
      intros [= ->]. by apply H.
Qed.

Lemma _has_errors_spec (df : DataFrame) :
  _has_errors (Some df) = true <-> Spec.has_nonblank_error df.
Proof.
  unfold _has_errors, Spec.has_nonblank_error.
  destruct (df_empty df) eqn:Hempty.
  - split; [discriminate |]. intros (i & r & s & Hi & Hr & _).
    unfold df_empty in Hempty. apply orb_true_iff in Hempty as [H|H];
      apply bool_decide_eq_true in H.
    + rewrite H in Hr. by apply elem_of_nil in Hr.
    + rewrite H in Hi. discriminate.
  - destruct (col_index "error" (df_columns df)) as [i|] eqn:Hi.
    + unfold series. rewrite existsb_exists. split.
      * intros (c' & Hin & Hc). apply list_elem_of_In in Hin.
        apply list_elem_of_fmap in Hin as (r & -> & Hr).
        apply error_value_spec in Hc as (s & Hs & Hne).
        exists i, r, s. auto.
      * intros (i' & r & s & [= <-] & Hr & Hs & Hne).
        exists (cell_at i r). split.
        -- apply list_elem_of_In, list_elem_of_fmap. eauto.
        -- apply error_value_spec. eauto.
    + split; [discriminate |]. intros (? & ? & ? & [=] & _).
Qed.

End JobProperties.

Section JobTransitions.
Import Job.

(** C1, as stated, fails: a record whose [error] is one space has a
    non-empty error value, yet [complete] derives DONE from it. *)
Lemma complete_blank_error_counterexample :
  ~ (status Samples.running = RUNNING ->
     Spec.has_nonempty_error Samples.df_blank_error ->
     status (complete Samples.df_blank_error Samples.running).2
     = DONE_WITH_ERRORS).
Proof.
  intros H. specialize (H eq_refl). simpl in H.
  assert (DONE = DONE_WITH_ERRORS) as Habs; [| discriminate Habs].
  apply H. exists 3%nat, [Str "a.pdf"; NaN; NaN; Str " "], " ".
  repeat split; [apply list_elem_of_here | discriminate].
Qed.

(** C1 (amended).  From RUNNING, [complete(result)] succeeds, stores the
    result and sets DONE_WITH_ERRORS when some record of the result has
    an error that is neither null nor blank (empty once white space is
    stripped), and DONE when no record has one.  In every other status
    it raises the illegal-transition error and leaves the job as it
    was. *)
Theorem complete_status_derivation (j : Job.t) (df : DataFrame) :
  (status j = RUNNING ->
     (complete df j).1 = Ok tt
     /\ result (complete df j).2 = Some df
     /\ (Spec.has_nonblank_error df ->
         status (complete df j).2 = DONE_WITH_ERRORS)
     /\ (~ Spec.has_nonblank_error df -> status (complete df j).2 = DONE))
  /\ (status j <> RUNNING ->
      complete df j
      = (Raise (ValueError "Job can only be completed if it is running."), j)).
Proof.
  unfold complete, bind, get, raise, modify. split.
  - intros Hrun. destruct (decide (status j <> RUNNING)) as [Hne|_]; [done |].
    pose proof (_has_errors_spec df) as Hspec.
    destruct (_has_errors (Some df)); simpl;
      (split; [reflexivity | split; [reflexivity | split]]).
    + intros _. reflexivity.
    + intros Hno. exfalso. apply Hno, Hspec. reflexivity.
    + intros Herr. apply Hspec in Herr. discriminate.
    + intros _. reflexivity.
  - intros Hne. destruct (decide (status j <> RUNNING)); [reflexivity | done].
Qed.

Lemma complete_status_derivation_witness :
  status (complete Samples.df_one_error Samples.running).2 = DONE_WITH_ERRORS
  /\ status (complete Samples.df_blank_error Samples.running).2 = DONE
  /\ (complete Samples.df_clean Samples.pending).2 = Samples.pending.
Proof.
  split; [| split].
  - apply (proj1 (complete_status_derivation Samples.running
                    Samples.df_one_error) eq_refl).
    exists 3%nat, [Str "b.pdf"; NaN; NaN; Str "No results returned"],
      "No results returned".
    repeat split; [| vm_compute; discriminate].
    apply list_elem_of_further, list_elem_of_here.
  - apply (proj1 (complete_status_derivation Samples.running
                    Samples.df_blank_error) eq_refl).
    intros (i & r & s & Hi & Hr & Hs & Hne).
    injection Hi as <-. apply list_elem_of_singleton in Hr as ->.
    injection Hs as <-. apply Hne. reflexivity.
  - rewrite (proj2 (complete_status_derivation Samples.pending
                      Samples.df_clean)); [reflexivity | discriminate].
Defined.

End JobTransitions.

Section JobInvariants.
Import Job.




End JobInvariants.

(** ** The retry transition *)

Section RetryTransition.
Import Job JobLifecycle.

(** C5, as stated, fails: [restart_for_retry] leaves [error_count] as it
    was, here 2. *)
Lemma restart_for_retry_error_count_counterexample :
  ~ (status Samples.done_with_errors = DONE_WITH_ERRORS ->
     error_count (restart_for_retry 1 Samples.done_with_errors).2 = 0).
Proof. intros H. specialize (H eq_refl). discriminate H. Qed.

(** C5 (amended).  [restart_for_retry(processed_count)] is legal only
    from DONE_WITH_ERRORS and raises the illegal-transition error, leaving
    the job unchanged, in every other status.  When legal it sets the
    status to RUNNING and [files_processed] to [processed_count], and
    leaves [error_count] as it was.  The reset of [error_count] to 0 is
    done by the retry protocol: [prepare_retry_and_get_cleaned_csv], on a
    job in DONE_WITH_ERRORS whose raw CSV exists, removes the failed
    records, calls [restart_for_retry] with the number of records left
    and then sets [error_count] to 0. *)
Theorem restart_for_retry_transition (j : Job.t) (n : Z) :
  (status j = DONE_WITH_ERRORS ->
     (restart_for_retry n j).1 = Ok tt
     /\ status (restart_for_retry n j).2 = RUNNING
     /\ files_processed (restart_for_retry n j).2 = n
     /\ error_count (restart_for_retry n j).2 = error_count j)
  /\ (status j <> DONE_WITH_ERRORS ->
      restart_for_retry n j
      = (Raise (ValueError
                  "Job can only be restarted if it has done_with_errors status."),
         j))
  /\ (forall read_text (w : World) (job_id : UUID) (lines : list csv_row),
        repo w !! job_id = Some j ->
        status j = DONE_WITH_ERRORS ->
        raw_csv w !! job_id = Some lines ->
        let cleaned := _clean_raw_csv_errors read_text lines in
        let out := prepare_retry_and_get_cleaned_csv read_text job_id w in
        out.1 = Ok cleaned
        /\ raw_csv out.2 !! job_id = Some cleaned
        /\ exists j',
             repo out.2 !! job_id = Some j'
             /\ status j' = RUNNING
             /\ files_processed j' = Z.of_nat (length cleaned)
             /\ error_count j' = 0).
Proof.
  split; [| split].
  - intros Hst. unfold restart_for_retry, bind, get, raise, modify.
    destruct (decide (status j <> DONE_WITH_ERRORS)); [done |].
    simpl. auto.
  - intros Hst. unfold restart_for_retry, bind, get, raise, modify.
    destruct (decide (status j <> DONE_WITH_ERRORS)); [reflexivity | done].
  - intros read_text w job_id lines Hj Hst Hraw cleaned out.
    subst out cleaned.
    unfold prepare_retry_and_get_cleaned_csv, get_job, update_job, on_job,
      restart_for_retry, bind, get, ret, raise, modify.
    cbn. rewrite Hj. cbn.
    destruct (decide (status j <> DONE_WITH_ERRORS)) as [|_]; [done |].
    rewrite Hraw. cbn. rewrite Hj. cbn.
    destruct (decide (status j <> DONE_WITH_ERRORS)) as [|_]; [done |].
    repeat (first [ rewrite lookup_insert_eq | progress cbn ]).
    rewrite length_fmap.
    split; [reflexivity | split; [reflexivity |]].
    eexists. split; [reflexivity |]. cbn. auto.
Qed.

Lemma restart_for_retry_transition_witness :
  status (restart_for_retry 1 Samples.done_with_errors).2 = RUNNING
  /\ files_processed (restart_for_retry 1 Samples.done_with_errors).2 = 1
  /\ error_count (restart_for_retry 1 Samples.done_with_errors).2 = 2.
Proof.
  pose proof (proj1 (restart_for_retry_transition Samples.done_with_errors 1)
                    eq_refl) as (_ & H1 & H2 & H3).
  exact (conj H1 (conj H2 H3)).
Defined.

End RetryTransition.

(** ** Field specs *)

Section ColumnProperties.
Import Column.

(** What [[a-zA-Z0-9_]*$] accepts: word characters up to the end, with
    at most one line feed after them. *)
Lemma match_tail_spec (s : string) :
  match_tail s = true
  <-> Spec.all_chars is_word s = true
      \/ exists s', s = s' ++ String newline ""
                    /\ Spec.all_chars is_word s' = true.
Proof.
  induction s as [|c s IH]; simpl.
  - split; [by left | done].
  - rewrite orb_true_iff, !andb_true_iff, !bool_decide_eq_true, IH. split.
    + intros [[Hc [Hs|(s' & -> & Hs')]] | [-> ->]].
      * left. done.
      * right. exists (String c s'). simpl. by rewrite Hc, Hs'.
      * right. by exists "".
    + intros [[Hc Hs] | (s' & Heq & Hs')].
      * left. split; [done | by left].
      * destruct s' as [|c' s']; simpl in *.
        -- injection Heq as -> ->. by right.
        -- injection Heq as -> ->. apply andb_true_iff in Hs' as [Hc Hs'].
           left. split; [done |]. right. by exists s'.
Qed.

Lemma re_match_spec (s : string) :
  re_match s = true
  <-> Spec.identifier s = true
      \/ exists s', s = s' ++ String newline ""
                    /\ Spec.identifier s' = true.
Proof.
  destruct s as [|c s]; simpl.
  - split; [done |]. intros [? | (s' & Heq & Hs')]; [done |].
    destruct s'; simpl in *; discriminate.
  - rewrite andb_true_iff, match_tail_spec. split.
    + intros [Hc [Hs | (s' & -> & Hs')]].
      * left. by rewrite Hc, Hs.
      * right. exists (String c s'). simpl. by rewrite Hc, Hs'.
    + intros [H | (s' & Heq & Hs')].
      * apply andb_true_iff in H as [Hc Hs]. by split; [| left].
      * destruct s' as [|c' s']; simpl in *; [discriminate |].
        injection Heq as -> ->. apply andb_true_iff in Hs' as [Hc Hs'].
        split; [done |]. right. by exists s'.
Qed.

(** Construction raises [InvalidColumnNameError] exactly when the regular
    expression rejects the processed name. *)
Lemma post_init_invalid_name (name description : string) :
  (exists msg, __post_init__ name description
               = Raise (InvalidColumnNameError msg))
  <-> re_match (processed_name name) = false.
Proof.
  unfold __post_init__.
  destruct (re_match (processed_name name)); simpl.
  - split; [| done]. intros [msg H].
    destruct (_ <? _)%nat; discriminate.
  - split; [done | eauto].
Qed.

(** The two examples of the specification. *)
Lemma column_name_examples :
  __post_init__ "Vaccination for HPV" ""
  = Ok (mkColumn "vaccination_for_hpv" "")
  /\ (exists msg, __post_init__ "123abc" ""
                  = Raise (InvalidColumnNameError msg)).
Proof. split; [reflexivity | eexists; reflexivity]. Qed.

(** C8: the defect.  A name that ends in a line feed is accepted, and the
    field spec keeps a name that is not a legal identifier: the anchor
    [$] of the regular expression also holds before a final line feed. *)
Theorem column_accepts_trailing_newline :
  __post_init__ Samples.abc_newline ""
  = Ok (mkColumn Samples.abc_newline "")
  /\ processed_name Samples.abc_newline = Samples.abc_newline
  /\ Spec.identifier (processed_name Samples.abc_newline) = false.
Proof. repeat split. Qed.

End ColumnProperties.

(** ** The job-submission boundary *)

Section SubmissionProperties.
Import ColumnParser.

Lemma inputs_from_Ok (idx : nat) (data : list jitem)
    (inputs : list (string * string)) :
  Forall2 (fun item ci => ColumnInput item = Some ci) data inputs ->
  inputs_from idx data = Ok inputs.
Proof.
  intros H. revert idx. induction H as [|item ci data inputs Hi _ IH];
    intros idx; simpl; [done |].
  by rewrite Hi, IH.
Qed.

Lemma domain_columns_from_Ok (idx : nat) (inputs : list (string * string))
    (cols : list Column.t) :
  Forall2 (fun ci c => Column.__post_init__ ci.1 ci.2 = Ok c) inputs cols ->
  domain_columns_from idx inputs = Ok cols.
Proof.
  intros H. revert idx. induction H as [|[n d] c inputs cols Hc _ IH];
    intros idx; simpl; [done |].
  simpl in Hc. by rewrite Hc, IH.
Qed.

Lemma inputs_from_inv (idx : nat) (data : list jitem) :
  (exists inputs,
     inputs_from idx data = Ok inputs
     /\ Forall2 (fun item ci => ColumnInput item = Some ci) data inputs)
  \/ (exists k, inputs_from idx data
                = Raise (HTTPException 400 (InvalidColumnAtIndex k))).
Proof.
  revert idx. induction data as [|item data IH]; intros idx; simpl.
  - left. exists []. split; [done | constructor].
  - destruct (ColumnInput item) as [ci|] eqn:Hci; [| right; eauto].
    destruct (IH (S idx)) as [(inputs & -> & Hall) | [k ->]].
    + left. exists (ci :: inputs). split; [done | by constructor].
    + right. eauto.
Qed.

Lemma domain_columns_from_inv (idx : nat) (inputs : list (string * string)) :
  (exists cols,
     domain_columns_from idx inputs = Ok cols
     /\ Forall2 (fun ci c => Column.__post_init__ ci.1 ci.2 = Ok c) inputs cols)
  \/ (exists k n, domain_columns_from idx inputs
                  = Raise (HTTPException 400 (InvalidColumnName k n))).
Proof.
  revert idx. induction inputs as [|[n d] inputs IH]; intros idx; simpl.
  - left. exists []. split; [done | constructor].
  - destruct (Column.__post_init__ n d) as [c|e] eqn:Hc; [| right; eauto].
    destruct (IH (S idx)) as [(cols & -> & Hall) | (k & n' & ->)].
    + left. exists (c :: cols). split; [done | by constructor].
    + right. eauto.
Qed.

(** The names [detect] reports: those already reported, those seen before
    the loop that come again, and those that come twice. *)
Lemma detect_dups (cs : list Column.t) (seen dups : gset string) (x : string) :
  x ∈ (detect cs seen dups).2
  <-> x ∈ dups
      \/ (x ∈ seen /\ x ∈ Column.name <$> cs)
      \/ Spec.occurs_twice x (Column.name <$> cs).
Proof.
  revert seen dups. induction cs as [|c cs IH]; intros seen dups; simpl.
  - split; [by left |]. intros [H | [[_ H] | (i & j & _ & H & _)]]; [done | |].
    + by apply elem_of_nil in H.
    + by rewrite lookup_nil in H.
  - rewrite IH. clear IH. split.
    + intros [Hd | [[Hs Hin] | (i & j & Hij & Hi & Hj)]].
      * destruct (decide (Column.name c ∈ seen)); [| by left].
        apply elem_of_union in Hd as [Hd | Hd]; [by left |].
        apply elem_of_singleton in Hd as ->. right. left.
        split; [done | apply list_elem_of_here].
      * apply elem_of_union in Hs as [Hs | Hs].
        -- right. left. split; [done | by apply list_elem_of_further].
        -- apply elem_of_singleton in Hs as ->. right. right.
           apply list_elem_of_lookup in Hin as [k Hk].
           exists 0%nat, (S k). done.
      * right. right. exists (S i), (S j). repeat split; [lia | done | done].
    + intros [Hd | [[Hs Hin] | (i & j & Hij & Hi & Hj)]].
      * left. destruct (decide (Column.name c ∈ seen)); set_solver.
      * apply elem_of_cons in Hin as [-> | Hin].
        -- left. destruct (decide (Column.name c ∈ seen)); set_solver.
        -- right. left. split; [apply elem_of_union; by left | done].
      * destruct i as [|i], j as [|j]; simpl in *.
        -- done.
        -- injection Hi as <-. right. left.
           split; [set_solver | by eapply list_elem_of_lookup_2].
        -- injection Hj as <-. right. left.
           split; [set_solver | by eapply list_elem_of_lookup_2].
        -- right. right. exists i, j. repeat split; [lia | done | done].
Qed.

Lemma sorted_elem_of (x : string) (l : list string) : x ∈ Py.sorted l <-> x ∈ l.
Proof. unfold Py.sorted. by rewrite merge_sort_Permutation. Qed.

(** C9, as stated, fails: when a third entry is not a valid name, the
    submission is rejected with the error of that entry, not with the
    duplicate-column-names error, although the first two entries
    normalize to the same identifier. *)
Lemma duplicate_columns_counterexample :
  Column.__post_init__ "Vaccination for HPV" ""
  = Ok (Column.mkColumn "vaccination_for_hpv" "")
  /\ Column.__post_init__ "vaccination-for-hpv" ""
     = Ok (Column.mkColumn "vaccination_for_hpv" "")
  /\ ~ (exists names,
          parse_columns_payload (Samples.loads Samples.payload_dup_invalid) ""
          = Raise (HTTPException 400 (DuplicateColumnNames names))).
Proof.
  split; [reflexivity | split; [reflexivity |]].
  intros [names H]. vm_compute in H. discriminate H.
Qed.

(** C9 (amended).  When every entry of the submitted list is valid (a
    dictionary with a non-blank string [name], whose normalized name is
    accepted) and two entries normalize to the same identifier, the
    submission is rejected with status 400 and the duplicate-column-names
    error, which lists exactly the names that occur more than once.  That
    error is raised only when every entry is valid: an entry that is not
    valid is reported first, with its own error.  When the parser rejects
    the payload for any reason, job submission raises that error and
    creates no job: the store is unchanged. *)
Theorem duplicate_columns_rejected
    (json_loads : string -> option json) (get_job_temp_dir : UUID -> string)
    (raw : string) (data : list jitem) :
  json_loads raw = Some (JList data) ->
  (forall (inputs : list (string * string)) (cols : list Column.t) (x : string),
     Forall2 (fun item ci => ColumnInput item = Some ci) data inputs ->
     Forall2 (fun ci c => Column.__post_init__ ci.1 ci.2 = Ok c) inputs cols ->
     Spec.occurs_twice x (Column.name <$> cols) ->
     exists names,
       parse_columns_payload json_loads raw
       = Raise (HTTPException 400 (DuplicateColumnNames names))
       /\ forall y, y ∈ names <-> Spec.occurs_twice y (Column.name <$> cols))
  /\ (forall names,
        parse_columns_payload json_loads raw
        = Raise (HTTPException 400 (DuplicateColumnNames names)) ->
        exists inputs cols,
          Forall2 (fun item ci => ColumnInput item = Some ci) data inputs
          /\ Forall2 (fun ci c => Column.__post_init__ ci.1 ci.2 = Ok c)
                     inputs cols)
  /\ (forall e files context temp_job_id w,
        parse_columns_payload json_loads raw = Raise e ->
        JobController.create_job json_loads get_job_temp_dir
          files context raw temp_job_id w
        = (Raise e, w)).
Proof.
  intros Hjson. split; [| split].
  - intros inputs cols x Hin Hcols Hx.
    unfold parse_columns_payload. rewrite Hjson.
    rewrite (inputs_from_Ok _ _ _ Hin), (domain_columns_from_Ok _ _ _ Hcols).
    assert (Hd : forall y, y ∈ (detect cols ∅ ∅).2
                           <-> Spec.occurs_twice y (Column.name <$> cols)).
    { intros y. rewrite detect_dups. split; [| auto].
      intros [H | [[H _] | H]]; [set_solver | set_solver | done]. }
    destruct (decide ((detect cols ∅ ∅).2 <> ∅)) as [_|Hempty].
    + eexists. split; [reflexivity |]. intros y.
      by rewrite sorted_elem_of, elem_of_elements.
    + apply dec_stable in Hempty. apply Hd in Hx. rewrite Hempty in Hx.
      set_solver.
  - intros names. unfold parse_columns_payload. rewrite Hjson.
    destruct (inputs_from_inv 1 data) as [(inputs & -> & Hin) | [k ->]];
      [| discriminate].
    destruct (domain_columns_from_inv 1 inputs)
      as [(cols & -> & Hcols) | (k & n & ->)]; [| discriminate].
    eauto.
  - intros e files context temp_job_id w He.
    unfold JobController.create_job. by rewrite He.
Qed.

Lemma duplicate_columns_rejected_witness :
  exists names,
    parse_columns_payload (Samples.loads Samples.payload_dup) ""
    = Raise (HTTPException 400 (DuplicateColumnNames names))
    /\ forall y, y ∈ names
         <-> Spec.occurs_twice y ["vaccination_for_hpv"; "vaccination_for_hpv"].
Proof.
  refine (proj1 (duplicate_columns_rejected
            (Samples.loads Samples.payload_dup) (fun _ => "") ""
            [Samples.item "Vaccination for HPV"; Samples.item "vaccination-for-hpv"]
            eq_refl)
            [("Vaccination for HPV", ""); ("vaccination-for-hpv", "")]
            [Column.mkColumn "vaccination_for_hpv" "";
             Column.mkColumn "vaccination_for_hpv" ""]
            "vaccination_for_hpv" _ _ _).
  - repeat constructor.
  - repeat constructor.
  - exists 0%nat, 1%nat. repeat split. discriminate.
Defined.

End SubmissionProperties.

(** ** The aggregator *)

Section AggregatorInput.
Import Aggregator.

Lemma col_index_Some (c : string) (cols : list string) :
  is_Some (col_index c cols) <-> c ∈ cols.
Proof.
  induction cols as [|c' cols IH]; simpl.
  - split; [intros [? [=]] | intros H; by apply elem_of_nil in H].
  - destruct (decide (c' = c)) as [->|Hne].
    + split; [intros _; apply list_elem_of_here | eauto].
    + rewrite fmap_is_Some, IH, elem_of_cons. split; [by right |].
      intros [Heq | Hin]; [by subst | done].
Qed.

Lemma has_column_spec (c : string) (df : DataFrame) :
  has_column c df = true <-> c ∈ df_columns df.
Proof.
  unfold has_column. by rewrite bool_decide_eq_true, col_index_Some.
Qed.

(** C10.  The grouping key of the aggregator is the constant
    ["country_alpha_3_code"], which [aggregate] does not take from its
    caller; on a record set without a column of that name [aggregate]
    raises [KeyError] and returns no frame. *)
Theorem aggregate_requires_grouping_key (df : DataFrame) :
  grouping_key __init__ = "country_alpha_3_code"
  /\ ("country_alpha_3_code" ∉ df_columns df ->
      aggregate __init__ df
      = Raise (KeyError
                 "Required column 'country_alpha_3_code' not found in DataFrame")).
Proof.
  split; [reflexivity |]. unfold aggregate, _validate_input.
  change (grouping_key __init__) with "country_alpha_3_code".
  pose proof (has_column_spec "country_alpha_3_code" df) as Hc.
  destruct (has_column "country_alpha_3_code" df); cbn [negb].
  - intros Hn. exfalso. apply Hn, Hc. reflexivity.
  - intros _. reflexivity.
Qed.

Lemma aggregate_requires_grouping_key_witness :
  aggregate __init__ Samples.df_no_key
  = Raise (KeyError
             "Required column 'country_alpha_3_code' not found in DataFrame").
Proof.
  apply (proj2 (aggregate_requires_grouping_key Samples.df_no_key)).
  intros H. repeat (apply elem_of_cons in H as [H|H]; [discriminate H |]).
  by apply elem_of_nil in H.
Defined.

End AggregatorInput.

Section RowExpansion.
Import Aggregator.

(** C7.  When the frame has the key column and the name column, every
    row is replaced, in place and in order, by the rows it explodes into.
    A row whose key and name split (on a comma and the white space after
    it) into lists of the same length gives one row per pair of
    elements, in order: the row itself with the key cell and the name cell
    replaced by the two elements, trimmed, and every other cell kept.  A
    row whose two lists differ in length gives no row at all. *)
Theorem safe_explode_countries (ag : Aggregator.t) (df : DataFrame)
    (ic inm : nat) :
  col_index (grouping_key ag) (df_columns df) = Some ic ->
  col_index "country" (df_columns df) = Some inm ->
  df_columns (_safe_explode_countries ag df) = df_columns df
  /\ df_rows (_safe_explode_countries ag df)
     = df_rows df ≫= explode_row ic inm
  /\ forall r : list cell,
       let codes := Py.split_comma (astype_str (cell_at ic r)) in
       let names := Py.split_comma (astype_str (cell_at inm r)) in
       (length codes = length names ->
          length (explode_row ic inm r) = length codes
          /\ forall (k : nat) (c n : string),
               codes !! k = Some c -> names !! k = Some n ->
               exists row,
                 explode_row ic inm r !! k = Some row
                 /\ length row = length r
                 /\ (ic <> inm -> (ic < length r)%nat ->
                     row !! ic = Some (Str (Py.strip c)))
                 /\ ((inm < length r)%nat ->
                     row !! inm = Some (Str (Py.strip n)))
                 /\ (forall p : nat, p <> ic -> p <> inm ->
                     row !! p = r !! p))
       /\ (length codes <> length names -> explode_row ic inm r = []).
Proof.
  intros Hic Hinm. unfold _safe_explode_countries. rewrite Hic, Hinm.
  split; [reflexivity | split; [reflexivity |]].
  intros r. unfold explode_row.
  set (codes := Py.split_comma (astype_str (cell_at ic r))).
  set (names := Py.split_comma (astype_str (cell_at inm r))). split.
  - intros Hlen. rewrite bool_decide_eq_true_2 by done. split.
    + rewrite length_fmap, length_zip. lia.
    + intros k c n Hc Hn. eexists. split.
      * rewrite list_lookup_fmap.
        rewrite (proj2 (lookup_zip_with_Some pair codes names k (c, n)));
          [reflexivity |].
        exists c, n. done.
      * cbn [fst snd]. rewrite !length_insert.
        split; [reflexivity | split; [| split]].
        -- intros Hne Hlt. rewrite list_lookup_insert_ne by done.
           by rewrite list_lookup_insert_eq.
        -- intros Hlt. rewrite list_lookup_insert_eq; [done |].
           by rewrite length_insert.
        -- intros p Hp1 Hp2.
           by rewrite !list_lookup_insert_ne.
  - intros Hlen. by rewrite bool_decide_eq_false_2.
Qed.

Lemma safe_explode_countries_witness :
  df_rows (_safe_explode_countries __init__ Samples.df_multi)
  = [[Str "a.pdf"; Str "AUT"; Str "Austria"; Str "yes"];
     [Str "a.pdf"; Str "DEU"; Str "Germany"; Str "yes"]].
Proof.
  rewrite (proj1 (proj2 (safe_explode_countries __init__ Samples.df_multi
                           1 2 eq_refl eq_refl))).
  reflexivity.
Defined.

End RowExpansion.

Section RegularFields.
Import Aggregator.

Lemma dropna_nil (series : list cell) :
  dropna series = [] <-> Forall (fun c => c = NaN) series.
Proof.
  unfold dropna. induction series as [|[|s] series IH]; simpl.
  - split; [constructor | done].
  - rewrite IH. split; [by constructor | by inversion 1].
  - split; [done | by inversion 1].
Qed.

Lemma dropna_cons (series : list cell) (v : string) (rest : list string) :
  dropna series = v :: rest ->
  exists pre post,
    series = (pre ++ Str v :: post)%list /\ Forall (fun c => c = NaN) pre.
Proof.
  unfold dropna. induction series as [|[|s] series IH]; simpl; [done | |].
  - intros H. destruct (IH H) as (pre & post & -> & Hpre).
    exists (NaN :: pre), post. split; [done | by constructor].
  - intros [= -> _]. exists [], series. split; [done | constructor].
Qed.

Lemma elem_of_dropna (series : list cell) (s : string) :
  s ∈ dropna series <-> Str s ∈ series.
Proof.
  unfold dropna. rewrite list_elem_of_omap. split.
  - intros ([|s'] & Hin & [=]). by subst.
  - intros Hin. by exists (Str s).
Qed.

Lemma _get_first_value_spec (series : list cell) :
  Spec.first_non_null series "" (_get_first_value series).
Proof.
  unfold _get_first_value, Spec.first_non_null.
  destruct (dropna series) as [|v rest] eqn:Hd.
  - right. by rewrite <- dropna_nil.
  - left. by eapply dropna_cons.
Qed.

Lemma _apply_yes_wins_rule_spec (series : list cell) :
  (Spec.some_yes series -> _apply_yes_wins_rule series = "yes")
  /\ (~ Spec.some_yes series ->
      Spec.first_non_null series "Not specified"
                          (_apply_yes_wins_rule series)).
Proof.
  unfold _apply_yes_wins_rule, Spec.some_yes.
  assert (Hex : existsb (fun x => bool_decide (Py.lower x = "yes"))
                        (dropna series) = true
                <-> exists s, Str s ∈ series /\ Py.lower s = "yes").
  { rewrite existsb_exists. split.
    - intros (s & Hin & Hs). exists s. split.
      + by apply elem_of_dropna, list_elem_of_In.
      + by apply bool_decide_eq_true in Hs.
    - intros (s & Hin & Hs). exists s. split.
      + by apply list_elem_of_In, elem_of_dropna.
      + by apply bool_decide_eq_true. }
  destruct (dropna series) as [|v rest] eqn:Hd.
  - split.
    + intros Hyes. apply Hex in Hyes. discriminate.
    + intros _. right. by rewrite <- dropna_nil.
  - destruct (existsb _ (v :: rest)); split.
    + done.
    + intros Hno. exfalso. by apply Hno, Hex.
    + intros Hyes. apply Hex in Hyes. discriminate.
    + intros _. left. by eapply dropna_cons.
Qed.

(** C3, as stated, fails on the name field: [_get_first_value] takes the
    first value that is not null, so a group whose first name is the
    empty text resolves to the empty text and not to the first non-empty
    name; such a group arises from a record whose name cell is blank. *)
Lemma first_value_counterexample :
  Spec.first_non_empty [Str ""; Str "Germany"] "Germany"
  /\ _get_first_value [Str ""; Str "Germany"] = ""
  /\ ~ Spec.first_non_empty [Str ""; Str "Germany"]
         (_get_first_value [Str ""; Str "Germany"])
  /\ aggregate __init__ Samples.df_blank_name
     = Ok (mkDataFrame ["country"; "country_alpha_3_code"]
                       [[Str ""; Str "DEU"]]).
Proof.
  split; [| split; [reflexivity | split; [| reflexivity]]].
  - exists [Str ""], []. repeat split; [discriminate |].
    constructor; [by right | constructor].
  - intros (pre & post & _ & Hne & _). by apply Hne.
Qed.

(** C3 (amended).  The frame of the per-key reduction has one row per
    key and, after the key, one cell per regular field.  The cell of the
    name field [country] is the first value of the group that is not null
    (the empty text included), or the empty text when the group has only
    nulls.  The cell of every other regular field is ["yes"] if some
    non-null value of the group equals ["yes"] when case is ignored, and
    otherwise the first non-null value of the group, or
    ["Not specified"] when the group has only nulls. *)
Theorem regular_field_reduction (ag : Aggregator.t) (df : DataFrame)
    (regular : list string) (ik : nat) :
  col_index (grouping_key ag) (df_columns df) = Some ik ->
  df_columns (_aggregate_regular_columns ag df regular)
  = grouping_key ag :: regular
  /\ forall (n : nat) (k : string) (m : nat) (col : string) (i : nat),
       group_keys df ik !! n = Some k ->
       regular !! m = Some col ->
       col_index col (df_columns df) = Some i ->
       exists row v,
         df_rows (_aggregate_regular_columns ag df regular) !! n = Some row
         /\ row !! 0%nat = Some (Str k)
         /\ row !! S m = Some (Str v)
         /\ (col = "country" ->
             Spec.first_non_null (cell_at i <$> country_rows df ik k) "" v)
         /\ (col <> "country" ->
             (Spec.some_yes (cell_at i <$> country_rows df ik k) ->
              v = "yes")
             /\ (~ Spec.some_yes (cell_at i <$> country_rows df ik k) ->
                 Spec.first_non_null (cell_at i <$> country_rows df ik k)
                                     "Not specified" v)).
Proof.
  intros Hik. unfold _aggregate_regular_columns. rewrite Hik.
  split; [reflexivity |].
  intros n k m col i Hn Hm Hi. cbn [df_rows].
  rewrite list_lookup_fmap, Hn. cbn [fmap option_fmap option_map].
  eexists.
  exists (if decide (col = "country")
          then _get_first_value (cell_at i <$> country_rows df ik k)
          else _apply_yes_wins_rule (cell_at i <$> country_rows df ik k)).
  split; [reflexivity |]. split; [reflexivity |].
  rewrite lookup_cons, list_lookup_fmap, Hm.
  cbn [fmap option_fmap option_map]. rewrite Hi.
  destruct (decide (col = "country")) as [->|Hne].
  - split; [reflexivity |]. split; [| done].
    intros _. apply _get_first_value_spec.
  - split; [reflexivity |]. split; [done |].
    intros _. apply _apply_yes_wins_rule_spec.
Qed.

Lemma regular_field_reduction_witness :
  df_columns (_aggregate_regular_columns __init__ Samples.df_multi ["hpv"])
  = ["country_alpha_3_code"; "hpv"].
Proof.
  exact (proj1 (regular_field_reduction __init__ Samples.df_multi ["hpv"] 1
                  eq_refl)).
Defined.

End RegularFields.

Section JustificationMerge.
Import Aggregator.

Lemma _is_valid_justification_spec (j : string) :
  _is_valid_justification j = true <-> Spec.valid_justification j.
Proof.
  unfold _is_valid_justification, Spec.valid_justification.
  destruct (bool_decide (Py.strip j = "")) eqn:Hb.
  - apply bool_decide_eq_true in Hb. split; [done | by intros [? _]].
  - apply bool_decide_eq_false in Hb. rewrite bool_decide_eq_true.
    split; [done | by intros [_ ?]].
Qed.

Lemma elem_of_formatted (df : DataFrame) (jcol : string)
    (rows : list (list cell)) (e : string) :
  e ∈ formatted_justifications df jcol rows
  <-> exists r, r ∈ rows
        /\ Spec.valid_justification (justification_text df jcol r)
        /\ e = source_file_text df r ++ ": " ++ justification_text df jcol r.
Proof.
  unfold formatted_justifications. rewrite list_elem_of_bind. split.
  - intros (r & He & Hr). exists r. split; [done |].
    destruct (_is_valid_justification _) eqn:Hv.
    + apply _is_valid_justification_spec in Hv.
      by apply list_elem_of_singleton in He.
    + by apply elem_of_nil in He.
  - intros (r & Hr & Hv & ->). exists r. split; [| done].
    apply _is_valid_justification_spec in Hv. rewrite Hv.
    apply list_elem_of_here.
Qed.

Lemma formatted_without_column (df : DataFrame) (jcol : string)
    (rows : list (list cell)) :
  has_column jcol df = false -> formatted_justifications df jcol rows = [].
Proof.
  intros Hc. unfold formatted_justifications, justification_text.
  unfold has_column in Hc. apply bool_decide_eq_false in Hc.
  destruct (col_index jcol (df_columns df)) as [ij|]; [by destruct Hc |].
  induction rows as [|r rows IH]; [done |]. exact IH.
Qed.

Lemma sorted_set_spec (l : list string) :
  Sorted String.le (Py.sorted_set l) /\ NoDup (Py.sorted_set l)
  /\ forall e, e ∈ Py.sorted_set l <-> e ∈ l.
Proof.
  unfold Py.sorted_set, Py.sorted. split; [| split].
  - apply Sorted_merge_sort. apply _.
  - rewrite merge_sort_Permutation. apply NoDup_remove_dups.
  - intros e. by rewrite merge_sort_Permutation, elem_of_remove_dups.
Qed.

Lemma append_empty (s1 s2 : string) : s1 ++ s2 = "" -> s1 = "" /\ s2 = "".
Proof. destruct s1; simpl; [done | discriminate]. Qed.

Lemma join_truthy (sep x : string) (l : list string) :
  x <> "" -> Py.truthy (Py.join sep (x :: l)) = true.
Proof.
  intros Hx. unfold Py.truthy. apply negb_true_iff, String.eqb_neq.
  destruct l as [|y l]; simpl; [done |].
  intros H. by apply append_empty in H as [? _].
Qed.

(** The text written for a selection of rows. *)
Lemma merged_text (df : DataFrame) (jcol : string)
    (matching_docs : list (list cell)) :
  let justification_text :=
    if negb (bool_decide (matching_docs = [])) && has_column jcol df
    then Py.join " | "
           (Py.sorted_set (formatted_justifications df jcol matching_docs))
    else "" in
  Spec.merged df jcol matching_docs
    (if Py.truthy justification_text then justification_text
     else "Justification not provided").
Proof.
  intros text. subst text.
  exists (Py.sorted_set (formatted_justifications df jcol matching_docs)).
  destruct (sorted_set_spec (formatted_justifications df jcol matching_docs))
    as (Hs & Hn & He).
  split; [done | split; [done | split]].
  { intros e. by rewrite He, elem_of_formatted. }
  destruct (negb (bool_decide (matching_docs = [])) && has_column jcol df)
    eqn:Hcond.
  - destruct (Py.sorted_set _) as [|x l] eqn:Hl; [reflexivity |].
    rewrite join_truthy; [reflexivity |].
    assert (Hx : x ∈ x :: l) by apply list_elem_of_here.
    apply He, elem_of_formatted in Hx as (r & _ & _ & ->).
    intros H. apply append_empty in H as [_ H]. discriminate H.
  - assert (formatted_justifications df jcol matching_docs = []) as ->.
    { apply andb_false_iff in Hcond as [H|H].
      - apply negb_false_iff, bool_decide_eq_true in H. by subst.
      - by apply formatted_without_column. }
    reflexivity.
Qed.

End JustificationMerge.

Section JustificationColumns.
Import Aggregator.

(** C4, as stated, fails twice.  A record valued ["Yes"] contributes its
    justification, although its raw value is not exactly ["yes"]; and a
    group that is neither affirmative nor all no-like is left with the
    empty text, not with ["Justification not provided"]. *)
Lemma justification_merge_counterexample :
  justification_cell Samples.df_capital_yes 1 "AUT" "hpv" = "a: j"
  /\ justification_cell Samples.df_capital_yes 1 "AUT" "hpv"
     <> Spec.justification_as_stated Samples.df_capital_yes 1 "AUT" "hpv"
  /\ justification_cell Samples.df_ambiguous 1 "AUT" "hpv" = ""
  /\ justification_cell Samples.df_ambiguous 1 "AUT" "hpv"
     <> Spec.justification_as_stated Samples.df_ambiguous 1 "AUT" "hpv".
Proof.
  split; [reflexivity | split; [| split; [reflexivity |]]];
    vm_compute; discriminate.
Qed.

Lemma series_vals_exists (i : nat) (group : list (list cell)) (P : string -> Prop)
    `{!forall v, Decision (P v)} :
  existsb (fun v => bool_decide (P v)) (series_vals i group) = true
  <-> exists r, r ∈ group
        /\ P (Py.strip (Py.lower (astype_str (cell_at i r)))).
Proof.
  unfold series_vals. rewrite existsb_exists. split.
  - intros (v & Hin & Hv). apply list_elem_of_In in Hin.
    apply list_elem_of_fmap in Hin as (r & -> & Hr).
    apply bool_decide_eq_true in Hv. eauto.
  - intros (r & Hr & Hv). eexists. split.
    + apply list_elem_of_In, list_elem_of_fmap. eauto.
    + by apply bool_decide_eq_true.
Qed.

Lemma series_vals_forall (i : nat) (group : list (list cell)) (P : string -> Prop)
    `{!forall v, Decision (P v)} :
  forallb (fun v => bool_decide (P v)) (series_vals i group) = true
  <-> forall r, r ∈ group
        -> P (Py.strip (Py.lower (astype_str (cell_at i r)))).
Proof.
  unfold series_vals. rewrite forallb_forall. split.
  - intros Hall r Hr. eapply bool_decide_eq_true, Hall.
    apply list_elem_of_In, list_elem_of_fmap. eauto.
  - intros Hall v Hin. apply list_elem_of_In in Hin.
    apply list_elem_of_fmap in Hin as (r & -> & Hr).
    apply bool_decide_eq_true. auto.
Qed.

(** C4 (amended).  For a key and a policy field, let the value of a row
    be its cell of that field, as a text, lower-cased and trimmed.  If
    some row of the group has the value ["yes"], the rows whose value is
    ["yes"] (whatever the case and the surrounding white space of the raw
    text) contribute.  Otherwise, if every row has a value among ["no"],
    ["not specified"], [""] and ["nan"], the rows valued ["no"] or
    ["not specified"] contribute.  In both cases the cell is the merge
    of the contributing rows: the entries
    ["<source_file>: <justification>"] whose justification is not blank
    and not a placeholder, without duplicates, sorted, joined with
    [" | "], or ["Justification not provided"] when no entry is left.
    Otherwise the cell is left empty.  In particular the group of the
    specification, values no/yes/no with justifications j1/j2/j3 from
    the files a/b/c, resolves to ["yes"] with the justification
    ["b: j2"]. *)
Theorem justification_merge (df : DataFrame) (ik i : nat) (k col : string) :
  col_index col (df_columns df) = Some i ->
  let group := country_rows df ik k in
  let value := fun r : list cell =>
                 Py.strip (Py.lower (astype_str (cell_at i r))) in
  let jcol := col ++ "_justification" in
  ((exists r, r ∈ group /\ value r = "yes") ->
     Spec.merged df jcol (filter (fun r => value r = "yes") group)
                 (justification_cell df ik k col))
  /\ (~ (exists r, r ∈ group /\ value r = "yes") ->
      (forall r, r ∈ group ->
                 value r ∈ ["no"; "not specified"; ""; "nan"]) ->
      Spec.merged df jcol
        (filter (fun r => value r ∈ ["no"; "not specified"]) group)
        (justification_cell df ik k col))
  /\ (~ (exists r, r ∈ group /\ value r = "yes") ->
      ~ (forall r, r ∈ group ->
                   value r ∈ ["no"; "not specified"; ""; "nan"]) ->
      justification_cell df ik k col = "")
  /\ aggregate __init__ Samples.df_yes_wins
     = Ok (mkDataFrame ["country_alpha_3_code"; "hpv"; "hpv_justification"]
                       [[Str "AUT"; Str "yes"; Str "b: j2"]]).
Proof.
  intros Hi group value jcol.
  pose proof (series_vals_exists i group (fun v => v = "yes")) as Hyes.
  pose proof (series_vals_forall i group
                (fun v => v ∈ ["no"; "not specified"; ""; "nan"])) as Hno.
  unfold justification_cell. rewrite Hi. fold group.
  destruct (existsb (fun v => bool_decide (v = "yes")) (series_vals i group))
    eqn:Eyes;
    [| destruct (forallb
                   (fun v => bool_decide
                               (v ∈ ["no"; "not specified"; ""; "nan"]))
                   (series_vals i group)) eqn:Eno];
    cbn [andb negb]; (split; [| split; [| split; [| reflexivity]]]).
  - intros _.
    rewrite (list_filter_iff (fun r => value r = "yes")
               (fun r => bool_decide (value r = "yes") = true)).
    + apply merged_text.
    + intros r. by rewrite bool_decide_eq_true.
  - intros Hn. exfalso. by apply Hn, Hyes.
  - intros Hn. exfalso. by apply Hn, Hyes.
  - intros Hy. apply Hyes in Hy. congruence.
  - intros _ _.
    rewrite (list_filter_iff (fun r => value r ∈ ["no"; "not specified"])
               (fun r => bool_decide
                           (value r ∈ ["no"; "not specified"]) = true)).
    + apply merged_text.
    + intros r. by rewrite bool_decide_eq_true.
  - intros _ Hall. exfalso. by apply Hall, Hno.
  - intros Hy. apply Hyes in Hy. congruence.
  - intros _ Hall. apply Hno in Hall. congruence.
  - intros _ _. reflexivity.
Qed.

Lemma justification_merge_witness :
  Spec.merged Samples.df_yes_wins "hpv_justification"
    [[Str "b"; Str "AUT"; Str "yes"; Str "j2"]]
    (justification_cell Samples.df_yes_wins 1 "AUT" "hpv").
Proof.
  refine (proj1 (justification_merge Samples.df_yes_wins 1 2 "AUT" "hpv"
                   eq_refl) _).
  eexists. split; [apply list_elem_of_further, list_elem_of_here |].
  reflexivity.
Defined.

End JustificationColumns.

(** ** The checkpoint log *)

Section CheckpointLog.
Import JobLifecycle.

Variable read_text : string -> cell.
Variable exists_ : Path.t -> bool.
Variable client_process : Path.t -> string -> list Column.t -> res (list dict).
Variable job_id : UUID.

(** A method call on the stored job, and the progress update built on it,
    leave the files alone. *)
Lemma on_job_raw_csv {A} (m : M Job.t A) (w : World) :
  raw_csv (on_job job_id m w).2 = raw_csv w.
Proof.
  unfold on_job. destruct (repo w !! job_id); [| done]. by destruct (m _).
Qed.


(** The text under a field name in the line written for a record. *)
Lemma written_text (fieldnames : list string) (record : dict) (k : string) :
  k ∈ fieldnames ->
  row_text k ((fun k => (k, default "" (dict_get k record))) <$> fieldnames)
  = default "" (dict_get k record).
Proof.
  unfold row_text. induction fieldnames as [|k' ks IH]; intros Hin.
  - by apply elem_of_nil in Hin.
  - cbn. destruct (decide (k' = k)) as [->|Hne]; [done |].
    apply elem_of_cons in Hin as [->|Hin]; [done | by apply IH].
Qed.






















End CheckpointLog.


(** The resumed run of the sample job, evaluated: the logged record of
    [a.pdf] stays first, [b.pdf] is logged once with its error, and the
    record of [c.pdf], which has a field outside the header, is not
    written. *)
Lemma resumed_run_example :
  Spec.logged
    (JobLifecycle.process_job Samples.read_text Samples.exists_
       Samples.client_process 7%N true Samples.interrupted_world).2 7%N
  = ["a.pdf"; "b.pdf"].
Proof. vm_compute. reflexivity. Qed.

(* ===================================================================== *)
(** * Further properties of the code *)
(* ===================================================================== *)

(** ** Sequences of calls on a job *)

Section JobCallSequences.
Import Job JobCalls.

(** What one call does to the status, and the fields no call touches. *)
Lemma perform_step (c : call) (j : Job.t) :
  (status (perform c j).2 = status j
   \/ Notions.edge (status j) (status (perform c j).2))
  /\ id (perform c j).2 = id j
  /\ files (perform c j).2 = files j
  /\ context (perform c j).2 = context j
  /\ columns (perform c j).2 = columns j
  /\ total_files (perform c j).2 = total_files j.
Proof.
  destruct c as [|fp ec|df|df|msg|n]; cbn [perform].
  - unfold start, bind, get, raise, modify.
    destruct (decide (status j <> PENDING)) as [|Heq]; cbn; [split; [by left | done] |].
    apply dec_stable in Heq. rewrite Heq. split; [right; constructor | done].
  - unfold update_progress, bind, modify, ret. destruct ec; cbn; (split; [by left | done]).
  - unfold complete, bind, get, raise, modify.
    generalize (_has_errors (Some df)). intros b.
    destruct (decide (status j <> RUNNING)) as [|Heq]; cbn; [split; [by left | done] |].
    apply dec_stable in Heq. rewrite Heq.
    destruct b; cbn; (split; [right; constructor | done]).
  - unfold complete_with_errors, bind, get, raise, modify.
    destruct (decide (status j <> RUNNING)) as [|Heq]; cbn; [split; [by left | done] |].
    apply dec_stable in Heq. rewrite Heq. split; [right; constructor | done].
  - unfold fail, bind, get, raise, modify.
    destruct (decide (status j <> RUNNING)) as [|Heq]; cbn; [split; [by left | done] |].
    apply dec_stable in Heq. rewrite Heq. split; [right; constructor | done].
  - unfold restart_for_retry, bind, get, raise, modify.
    destruct (decide (status j <> DONE_WITH_ERRORS)) as [|Heq]; cbn;
      [split; [by left | done] |].
    apply dec_stable in Heq. rewrite Heq. split; [right; constructor | done].
Qed.


(** X2.  A job that is DONE or FAILED keeps its status, its result and
    its error message under every sequence of calls: the two statuses are
    final. *)
Theorem job_final_statuses (cs : list call) (j : Job.t) :
  status j = DONE \/ status j = FAILED ->
  status (perform_all cs j) = status j
  /\ result (perform_all cs j) = result j
  /\ error_message (perform_all cs j) = error_message j.
Proof.
  revert j. induction cs as [|c cs IH]; intros j Hst; cbn [perform_all];
    [done |].
  assert (Hstep : status (perform c j).2 = status j
                  /\ result (perform c j).2 = result j
                  /\ error_message (perform c j).2 = error_message j).
  { destruct c as [|fp ec|df|df|msg|n]; cbn [perform];
      unfold start, update_progress, complete, complete_with_errors, fail,
        restart_for_retry, bind, get, raise, modify, ret;
      try (destruct ec; by cbn);
      match goal with
      | |- context [decide ?P] => destruct (decide P) as [|Heq]; [by cbn |]
      end;
      apply dec_stable in Heq; destruct Hst as [Hst|Hst]; congruence. }
  destruct Hstep as (Hs & Hr & Hm).
  destruct (IH (perform c j).2) as (Hs' & Hr' & Hm'); [by rewrite Hs |].
  rewrite Hs', Hr', Hm'. done.
Qed.

Lemma job_final_statuses_witness :
  status (perform_all [Start; Fail "late"; RestartForRetry 0;
                       UpdateProgress 3 None]
            (Samples.job_in DONE (Some Samples.df_clean) None 3 0))
  = DONE.
Proof.
  refine (proj1 (job_final_statuses _ _ _)). left. reflexivity.
Defined.

(** X3.  No sequence of calls changes the identity of a job: its id, its
    files, its context, its columns and its number of files stay as they
    were at creation. *)
Theorem job_identity_is_kept (cs : list call) (j : Job.t) :
  id (perform_all cs j) = id j
  /\ files (perform_all cs j) = files j
  /\ context (perform_all cs j) = context j
  /\ columns (perform_all cs j) = columns j
  /\ total_files (perform_all cs j) = total_files j.
Proof.
  revert j. induction cs as [|c cs IH]; intros j; cbn [perform_all]; [done |].
  destruct (perform_step c j) as (_ & H1 & H2 & H3 & H4 & H5).
  destruct (IH (perform c j).2) as (I1 & I2 & I3 & I4 & I5).
  rewrite I1, I2, I3, I4, I5. done.
Qed.

(** X4.  A call succeeds exactly when the job is in the one status the
    call is legal from ([update_progress] is legal in every status), and a
    call that raises leaves the job exactly as it was. *)
Theorem job_call_guards (c : call) (j : Job.t) :
  ((perform c j).1 = Ok tt
   <-> match source_status c with
       | Some st => status j = st
       | None => True
       end)
  /\ ((perform c j).1 <> Ok tt -> (perform c j).2 = j).
Proof.
  destruct c as [|fp ec|df|df|msg|n]; cbn [perform source_status];
    unfold start, update_progress, complete, complete_with_errors, fail,
      restart_for_retry, bind, get, raise, modify, ret;
    try (destruct ec; cbn; by split);
    try generalize (_has_errors (Some df)); intros;
    match goal with
    | |- context [decide ?P] => destruct (decide P) as [Hne|Heq]
    end; cbn.
  all: try (split; [split; [discriminate | done] | done]).
  all: apply dec_stable in Heq; try match goal with b : bool |- _ => destruct b end;
    cbn; (split; [split; [done | done] | done]).
Qed.

End JobCallSequences.

(** ** Construction of field specs *)

Section ColumnConstruction.
Import Column.

Lemma all_chars_and (p q : ascii -> bool) (s : string) :
  Spec.all_chars p s = true -> Spec.all_chars q s = true ->
  Spec.all_chars (fun c => p c && q c) s = true.
Proof.
  induction s as [|c s IH]; cbn; [done |].
  rewrite !andb_true_iff. intros [? ?] [? ?]. auto.
Qed.

Lemma all_chars_impl (p q : ascii -> bool) (s : string) :
  (forall c, p c = true -> q c = true) ->
  Spec.all_chars p s = true -> Spec.all_chars q s = true.
Proof.
  intros Hpq. induction s as [|c s IH]; cbn; [done |].
  rewrite !andb_true_iff. intros [? ?]. auto.
Qed.

Lemma all_chars_app (p : ascii -> bool) (s1 s2 : string) :
  Spec.all_chars p (s1 ++ s2)
  = Spec.all_chars p s1 && Spec.all_chars p s2.
Proof.
  induction s1 as [|c s1 IH]; [done |].
  change (String c s1 ++ s2) with (String c (s1 ++ s2)).
  cbn [Spec.all_chars]. by rewrite IH, andb_assoc.
Qed.

Lemma lower_char_not_capital (c : ascii) : Notions.not_capital (Py.lower_char c) = true.
Proof. destruct c as [[] [] [] [] [] [] [] []]; reflexivity. Qed.

Lemma lower_not_capital (s : string) :
  Spec.all_chars Notions.not_capital (Py.lower s) = true.
Proof.
  induction s as [|c s IH]; cbn; [done |].
  by rewrite lower_char_not_capital, IH.
Qed.

Lemma replace_not_capital (old : ascii) (new s : string) :
  Spec.all_chars Notions.not_capital new = true ->
  Spec.all_chars Notions.not_capital s = true ->
  Spec.all_chars Notions.not_capital (Py.replace old new s) = true.
Proof.
  intros Hnew. induction s as [|c s IH]; [done |].
  cbn [Spec.all_chars]. rewrite andb_true_iff. intros [Hc Hs].
  change (Py.replace old new (String c s))
    with (if decide (c = old) then new ++ Py.replace old new s
          else String c (Py.replace old new s)).
  destruct (decide (c = old)).
  - rewrite all_chars_app, Hnew. by apply IH.
  - cbn [Spec.all_chars]. rewrite Hc. by apply IH.
Qed.

Lemma processed_name_not_capital (name : string) :
  Spec.all_chars Notions.not_capital (processed_name name) = true.
Proof.
  unfold processed_name.
  repeat (apply replace_not_capital; [reflexivity |]).
  apply lower_not_capital.
Qed.

(** The characters [re_match] lets through. *)
Lemma re_match_chars (s : string) :
  re_match s = true ->
  Spec.all_chars (fun c => is_word c || bool_decide (c = newline)) s = true.
Proof.
  assert (Htail : forall u, match_tail u = true ->
            Spec.all_chars (fun c => is_word c || bool_decide (c = newline)) u
            = true).
  { induction u as [|c u IH]; cbn; [done |].
    rewrite orb_true_iff, !andb_true_iff, !bool_decide_eq_true.
    intros [[Hc Hu] | [-> ->]].
    - rewrite Hc. split; [done | by apply IH].
    - by split. }
  destruct s as [|c s]; cbn; [done |]. rewrite andb_true_iff.
  intros [Hc Hs]. unfold is_word at 1. rewrite Hc. by apply Htail.
Qed.

Lemma stable_char (c : ascii) :
  Notions.settled c = true ->
  Py.lower_char c = c
  /\ Forall (fun old => c <> old)
       [" "; "-"; "+"; "'"; ascii_of_N 34; "("; ")"; "&"; "/"; "\"]%char.
Proof.
  destruct c as [[] [] [] [] [] [] [] []]; cbn; intros H; try discriminate H;
    (split; [reflexivity | repeat constructor; discriminate]).
Qed.

Lemma lower_settled (s : string) :
  Spec.all_chars Notions.settled s = true -> Py.lower s = s.
Proof.
  induction s as [|c s IH]; cbn; [done |]. rewrite andb_true_iff.
  intros [Hc Hs]. destruct (stable_char c Hc) as [-> _]. by rewrite IH.
Qed.

Lemma replace_absent (old : ascii) (new s : string) :
  Spec.all_chars (fun c => negb (bool_decide (c = old))) s = true ->
  Py.replace old new s = s.
Proof.
  induction s as [|c s IH]; cbn; [done |]. rewrite andb_true_iff.
  intros [Hc Hs]. apply negb_true_iff, bool_decide_eq_false in Hc.
  destruct (decide (c = old)); [done |]. by rewrite IH.
Qed.

Lemma processed_name_settled (s : string) :
  Spec.all_chars Notions.settled s = true -> processed_name s = s.
Proof.
  intros Hs. unfold processed_name. rewrite (lower_settled s Hs).
  assert (Habs : forall old,
            old ∈ [" "; "-"; "+"; "'"; ascii_of_N 34; "("; ")"; "&"; "/"; "\"]%char ->
            forall new, Py.replace old new s = s).
  { intros old Hold new. apply replace_absent.
    eapply all_chars_impl; [| exact Hs]. intros c Hc.
    destruct (stable_char c Hc) as [_ Hall].
    rewrite Forall_forall in Hall. apply negb_true_iff, bool_decide_eq_false.
    by apply Hall. }
  rewrite !Habs; [done | ..]; set_solver.
Qed.

(** X5.  Construction succeeds exactly when the processed name is a legal
    identifier, or a legal identifier followed by one line feed, and the
    description has at most 300 characters; the column then holds the
    processed name and the description as given.  A name that is not
    accepted raises [InvalidColumnNameError] whatever the description, and
    an accepted name with a longer description raises [ValueError]. *)
Theorem column_construction_cases (name description : string) :
  let p := processed_name name in
  let accepted :=
    Spec.identifier p = true
    \/ exists s', p = s' ++ String newline "" /\ Spec.identifier s' = true in
  (accepted -> (String.length description <= 300)%nat ->
   __post_init__ name description = Ok (mkColumn p description))
  /\ (accepted -> (300 < String.length description)%nat ->
      __post_init__ name description
      = Raise (ValueError
                 "Description must be a string not exceeding 300 characters."))
  /\ (~ accepted ->
      exists msg, __post_init__ name description
                  = Raise (InvalidColumnNameError msg)).
Proof.
  cbv zeta. pose proof (re_match_spec (processed_name name)) as Hre.
  unfold __post_init__.
  destruct (re_match (processed_name name)); cbn [negb].
  - split; [| split].
    + intros _ Hlen. apply Nat.ltb_ge in Hlen. by rewrite Hlen.
    + intros _ Hlen. apply Nat.ltb_lt in Hlen. by rewrite Hlen.
    + intros Hn. exfalso. by apply Hn, Hre.
  - split; [| split].
    + intros Ha. apply Hre in Ha. discriminate.
    + intros Ha. apply Hre in Ha. discriminate.
    + intros _. eauto.
Qed.

Lemma column_construction_cases_witness :
  __post_init__ "Country Alpha-3 Code" "ISO code"
  = Ok (mkColumn "country_alpha_3_code" "ISO code").
Proof.
  refine (proj1 (column_construction_cases "Country Alpha-3 Code" "ISO code")
                _ _).
  - left. reflexivity.
  - cbn. lia.
Defined.

(** X6.  Construction is idempotent: a column built from the name and the
    description of a column that was constructed is that same column, so
    a stored name can be passed through the constructor again. *)
Theorem column_construction_idempotent (name description : string) (c : t) :
  __post_init__ name description = Ok c ->
  __post_init__ (Column.name c) (Column.description c) = Ok c.
Proof.
  unfold __post_init__.
  destruct (re_match (processed_name name)) eqn:Hre; cbn [negb]; [| done].
  destruct (300 <? String.length description)%nat eqn:Hlen; [done |].
  intros [= <-]. cbn [Column.name Column.description].
  rewrite processed_name_settled.
  - by rewrite Hre, Hlen.
  - apply all_chars_and.
    + by apply re_match_chars.
    + apply processed_name_not_capital.
Qed.

Lemma column_construction_idempotent_witness :
  __post_init__ "r_and_d_new" "" = Ok (mkColumn "r_and_d_new" "").
Proof.
  exact (column_construction_idempotent "R&D (new)" "" _ eq_refl).
Defined.

End ColumnConstruction.

(** ** The parser of the column payload *)

Section ColumnPayload.
Import ColumnParser.

Lemma inputs_from_raise (idx : nat) (data : list jitem) (e : exn) :
  inputs_from idx data = Raise e ->
  exists k item,
    e = HTTPException 400 (InvalidColumnAtIndex (idx + k))
    /\ data !! k = Some item /\ ColumnInput item = None
    /\ forall i item', (i < k)%nat -> data !! i = Some item' ->
                       is_Some (ColumnInput item').
Proof.
  revert idx. induction data as [|item data IH]; intros idx; cbn; [done |].
  destruct (ColumnInput item) as [ci|] eqn:Hci.
  - destruct (inputs_from (S idx) data) as [l|e'] eqn:Hrest; [done |].
    intros [= <-]. destruct (IH _ Hrest) as (k & item' & -> & Hk & Hinv & Hbefore).
    exists (S k), item'. split_and!; [f_equal; f_equal; lia | done | done |].
    intros [|i] it Hi Hit; cbn in Hit.
    + injection Hit as <-. by rewrite Hci.
    + apply (Hbefore i); [lia | done].
  - intros [= <-]. exists 0%nat, item.
    split_and!; [f_equal; f_equal; lia | done | done | lia].
Qed.

Lemma domain_columns_from_raise (idx : nat) (inputs : list (string * string))
    (e : exn) :
  domain_columns_from idx inputs = Raise e ->
  exists k n d,
    e = HTTPException 400 (InvalidColumnName (idx + k) n)
    /\ inputs !! k = Some (n, d) /\ is_ok (Column.__post_init__ n d) = false
    /\ forall i n' d', (i < k)%nat -> inputs !! i = Some (n', d') ->
                       is_ok (Column.__post_init__ n' d') = true.
Proof.
  revert idx. induction inputs as [|[n d] inputs IH]; intros idx; cbn; [done |].
  destruct (Column.__post_init__ n d) as [c|e0] eqn:Hc.
  - destruct (domain_columns_from (S idx) inputs) as [l|e'] eqn:Hrest; [done |].
    intros [= <-].
    destruct (IH _ Hrest) as (k & n' & d' & -> & Hk & Hinv & Hbefore).
    exists (S k), n', d'. split_and!; [f_equal; f_equal; lia | done | done |].
    intros [|i] n0 d0 Hi Hit; cbn in Hit.
    + injection Hit as <- <-. by rewrite Hc.
    + apply (Hbefore i); [lia | done].
  - intros [= <-]. exists 0%nat, n, d.
    split_and!; [f_equal; f_equal; lia | done | by rewrite Hc | lia].
Qed.

Lemma no_duplicates_detected (cols : list Column.t) :
  (detect cols ∅ ∅).2 = ∅ -> NoDup (Column.name <$> cols).
Proof.
  intros Hempty. apply NoDup_alt. intros i j x Hi Hj.
  destruct (decide (i = j)) as [|Hne]; [done |]. exfalso.
  assert (Hx : x ∈ (detect cols ∅ ∅).2).
  { apply detect_dups. right. right. by exists i, j. }
  rewrite Hempty in Hx. set_solver.
Qed.

(** X7.  A payload the parser accepts is a JSON list, and the columns
    returned are one per entry, in the order of the entries, each built
    from the name and the description of its entry, with names that are
    pairwise different. *)
Theorem parsed_columns_are_distinct
    (json_loads : string -> option json) (raw : string) (cols : list Column.t) :
  parse_columns_payload json_loads raw = Ok cols ->
  NoDup (Column.name <$> cols)
  /\ exists data inputs,
       json_loads raw = Some (JList data)
       /\ Forall2 (fun item ci => ColumnInput item = Some ci) data inputs
       /\ Forall2 (fun ci c => Column.__post_init__ ci.1 ci.2 = Ok c)
                  inputs cols.
Proof.
  unfold parse_columns_payload.
  destruct (json_loads raw) as [[data| |e0]|]; [| done | done | done].
  destruct (inputs_from_inv 1 data) as [(inputs & -> & Hin) | [k ->]];
    [| done].
  destruct (domain_columns_from_inv 1 inputs)
    as [(cols' & -> & Hcols) | (k & n & ->)]; [| done].
  destruct (decide ((detect cols' ∅ ∅).2 <> ∅)) as [|Hempty]; [done |].
  intros [= <-]. apply dec_stable in Hempty. split.
  - by apply no_duplicates_detected.
  - eauto.
Qed.

Lemma parsed_columns_are_distinct_witness :
  NoDup (Column.name <$> [Column.mkColumn "country" "";
                          Column.mkColumn "hpv" "vaccination"]).
Proof.
  refine (proj1 (parsed_columns_are_distinct
                   (Samples.loads
                      (JList [Samples.item "Country";
                              JDict [("name", JStr "HPV");
                                     ("description", JStr "vaccination")]]))
                   "" _ _)).
  reflexivity.
Defined.

(** X8.  An exception the parser raises is an HTTP error with status
    400, unless it is one that [json.loads] raised and that is not a
    [JSONDecodeError]: such an exception is not caught and leaves the
    parser as it is. *)
Theorem parser_rejects_with_400
    (json_loads : string -> option json) (raw : string) (e : exn) :
  (parse_columns_payload json_loads raw = Raise e ->
   json_loads raw = Some (JRaised e)
   \/ exists detail, e = HTTPException 400 detail)
  /\ (json_loads raw = Some (JRaised e) ->
      parse_columns_payload json_loads raw = Raise e).
Proof.
  unfold parse_columns_payload. split; [| by intros ->].
  destruct (json_loads raw) as [[data| |e0]|];
    [| intros [= <-]; eauto | intros [= <-]; eauto | intros [= <-]; eauto].
  destruct (inputs_from_inv 1 data) as [(inputs & -> & _) | [k ->]];
    [| intros [= <-]; eauto].
  destruct (domain_columns_from_inv 1 inputs)
    as [(cols & -> & _) | (k & n & ->)]; [| intros [= <-]; eauto].
  destruct (decide _); [intros [= <-]; eauto | done].
Qed.

Lemma parser_rejects_with_400_witness :
  Samples.loads JNotList "" = Some (JRaised (HTTPException 400 ColumnsPayloadNotList))
  \/ exists detail,
       HTTPException 400 ColumnsPayloadNotList = HTTPException 400 detail.
Proof.
  exact (proj1 (parser_rejects_with_400 (Samples.loads JNotList) "" _) eq_refl).
Defined.

(** X9.  The index in an "Invalid column at index" error counts the
    entries from 1 and is that of the first entry that is not valid.  When
    the error is about the shape of an entry, every entry before it is
    well-shaped; when it is about a name, every entry is well-shaped and
    every entry before it has an accepted name and description. *)
Theorem first_invalid_entry_is_reported
    (json_loads : string -> option json) (raw : string) (data : list jitem) :
  json_loads raw = Some (JList data) ->
  (forall idx,
     parse_columns_payload json_loads raw
     = Raise (HTTPException 400 (InvalidColumnAtIndex idx)) ->
     exists k item,
       idx = S k /\ data !! k = Some item /\ ColumnInput item = None
       /\ forall i item', (i < k)%nat -> data !! i = Some item' ->
                          is_Some (ColumnInput item'))
  /\ (forall idx name,
        parse_columns_payload json_loads raw
        = Raise (HTTPException 400 (InvalidColumnName idx name)) ->
        exists k item d,
          idx = S k /\ data !! k = Some item
          /\ ColumnInput item = Some (name, d)
          /\ is_ok (Column.__post_init__ name d) = false
          /\ (forall item', item' ∈ data -> is_Some (ColumnInput item'))
          /\ forall i item' n' d',
               (i < k)%nat -> data !! i = Some item' ->
               ColumnInput item' = Some (n', d') ->
               is_ok (Column.__post_init__ n' d') = true).
Proof.
  intros Hjson. unfold parse_columns_payload. rewrite Hjson. split.
  - intros idx.
    destruct (inputs_from 1 data) as [inputs|e] eqn:Hin.
    + destruct (domain_columns_from_inv 1 inputs)
        as [(cols & -> & _) | (k & n & ->)]; [| done].
      by destruct (decide _).
    + intros [= ->].
      destruct (inputs_from_raise _ _ _ Hin) as (k & item & [= ->] & H).
      exists k, item. done.
  - intros idx name.
    destruct (inputs_from_inv 1 data) as [(inputs & -> & Hall) | [k ->]];
      [| done].
    destruct (domain_columns_from 1 inputs) as [cols|e] eqn:Hcols.
    + by destruct (decide _).
    + intros [= ->].
      destruct (domain_columns_from_raise _ _ _ Hcols)
        as (k & n & d & [= -> ->] & Hk & Hbad & Hbefore).
      destruct (Forall2_lookup_r _ _ _ _ _ Hall Hk) as (item & Hitem & Hci).
      exists k, item, d. split_and!; try done.
      * intros item' Hin'. apply list_elem_of_lookup in Hin' as [i Hi].
        destruct (Forall2_lookup_l _ _ _ _ _ Hall Hi) as (ci & _ & ->). eauto.
      * intros i item' n' d' Hlt Hi Hci'.
        destruct (Forall2_lookup_l _ _ _ _ _ Hall Hi) as (ci & Hci2 & Heq).
        rewrite Hci' in Heq. injection Heq as <-. by eapply Hbefore.
Qed.

Lemma first_invalid_entry_is_reported_witness :
  exists k item,
    3%nat = S k
    /\ [Samples.item "Vaccination for HPV"; Samples.item "vaccination-for-hpv";
        JNotDict] !! k = Some item
    /\ ColumnInput item = None
    /\ forall i item', (i < k)%nat ->
         [Samples.item "Vaccination for HPV"; Samples.item "vaccination-for-hpv";
          JNotDict] !! i = Some item' ->
         is_Some (ColumnInput item').
Proof.
  exact (proj1 (first_invalid_entry_is_reported
                  (Samples.loads
                     (JList [Samples.item "Vaccination for HPV";
                             Samples.item "vaccination-for-hpv"; JNotDict]))
                  "" _ eq_refl) 3%nat eq_refl).
Defined.

End ColumnPayload.

(** ** The aggregation pipeline, end to end *)

Section AggregatePipeline.
Import Aggregator.

Lemma substring_all (s : string) : substring 0 (String.length s) s = s.
Proof. induction s as [|c s IH]; cbn; [done | by rewrite IH]. Qed.

Lemma substring_app (p s : string) :
  substring (String.length p) (String.length s) (p ++ s) = s.
Proof. induction p as [|c p IH]; cbn; [apply substring_all | exact IH]. Qed.

Lemma length_append (p s : string) :
  String.length (p ++ s) = (String.length p + String.length s)%nat.
Proof. induction p as [|c p IH]; [done | exact (f_equal S IH)]. Qed.

Lemma endswith_app (p s : string) : Py.endswith (p ++ s) s = true.
Proof.
  unfold Py.endswith. rewrite length_append.
  replace (String.length p + String.length s - String.length s)%nat
    with (String.length p) by lia.
  rewrite substring_app, String.eqb_refl, andb_true_r.
  apply Nat.leb_le. lia.
Qed.

Lemma append_inj_l (p q s : string) : p ++ s = q ++ s -> p = q.
Proof.
  revert q. induction p as [|c p IH]; intros [|d q] H.
  - done.
  - apply (f_equal String.length) in H.
    rewrite !length_append in H. cbn in H. lia.
  - apply (f_equal String.length) in H.
    rewrite !length_append in H. cbn in H. lia.
  - change (String c (p ++ s) = String d (q ++ s)) in H.
    injection H as -> H. f_equal. by apply IH.
Qed.

Lemma col_index_lookup (c : string) (cols : list string) (i : nat) :
  col_index c cols = Some i -> cols !! i = Some c.
Proof.
  revert i. induction cols as [|c' cols IH]; intros i; cbn; [done |].
  destruct (decide (c' = c)) as [->|Hne]; [by intros [= <-] |].
  destruct (col_index c cols) as [j|]; [| done].
  intros [= <-]. by apply IH.
Qed.

Lemma col_index_None (c : string) (cols : list string) :
  col_index c cols = None <-> c ∉ cols.
Proof.
  rewrite <- col_index_Some, eq_None_not_Some. done.
Qed.

Lemma col_index_app_r (c : string) (cols1 cols2 : list string) (i : nat) :
  c ∉ cols1 -> col_index c cols2 = Some i ->
  col_index c (cols1 ++ cols2) = Some (length cols1 + i)%nat.
Proof.
  intros Hn Hi. induction cols1 as [|c' cols1 IH]; cbn; [done |].
  apply not_elem_of_cons in Hn as [Hne Hn].
  destruct (decide (c' = c)); [by subst |]. by rewrite IH.
Qed.

Lemma col_index_app_l (c : string) (cols1 cols2 : list string) (i : nat) :
  col_index c cols1 = Some i -> col_index c (cols1 ++ cols2) = Some i.
Proof.
  revert i. induction cols1 as [|c' cols1 IH]; intros i; cbn; [done |].
  destruct (decide (c' = c)); [done |].
  destruct (col_index c cols1) as [j|]; [| done].
  intros [= <-]. by rewrite (IH j).
Qed.

Lemma filter_Forall_id {A} (P : A -> Prop) `{!forall x, Decision (P x)}
    (l : list A) :
  Forall P l -> filter P l = l.
Proof.
  induction 1 as [|x l Hx Hl IH]; [done |].
  rewrite filter_cons_True by done. by rewrite IH.
Qed.

Lemma bind_ext_in {A B} (f g : A -> list B) (l : list A) :
  (forall x, x ∈ l -> f x = g x) -> l ≫= f = l ≫= g.
Proof.
  induction l as [|x l IH]; intros H; [done |]. cbn.
  rewrite (H x) by apply list_elem_of_here. rewrite IH; [done |].
  intros y Hy. apply H. by apply list_elem_of_further.
Qed.

Lemma explode_columns (ag : Aggregator.t) (df : DataFrame) :
  df_columns (_safe_explode_countries ag df) = df_columns df.
Proof.
  unfold _safe_explode_countries.
  destruct (col_index (grouping_key ag) (df_columns df)); [| done].
  by destruct (col_index "country" (df_columns df)).
Qed.

Lemma categorize_regular (df : DataFrame) :
  (_categorize_columns __init__ df).1 = Notions.regular_fields (df_columns df).
Proof.
  unfold _categorize_columns, Notions.regular_fields. cbn [fst].
  rewrite list_filter_filter. apply list_filter_iff. intros col.
  change (grouping_key __init__) with "country_alpha_3_code".
  rewrite !not_elem_of_cons. tauto.
Qed.

Lemma policy_of_regular (cols : list string) :
  policy_columns (Notions.regular_fields cols) = Notions.policy_fields cols.
Proof.
  unfold policy_columns, Notions.regular_fields, Notions.policy_fields.
  rewrite list_filter_filter. apply list_filter_iff. intros col.
  rewrite !not_elem_of_cons. tauto.
Qed.

Lemma regular_fields_spec (cols : list string) (col : string) :
  col ∈ Notions.regular_fields cols
  <-> col ∈ cols /\ col <> "country_alpha_3_code" /\ col <> "source_file"
      /\ col <> "error" /\ Py.endswith col "_justification" = false.
Proof.
  unfold Notions.regular_fields. rewrite list_elem_of_filter.
  rewrite !not_elem_of_cons. pose proof (not_elem_of_nil col). tauto.
Qed.

Lemma policy_fields_spec (cols : list string) (col : string) :
  col ∈ Notions.policy_fields cols
  <-> col ∈ Notions.regular_fields cols /\ col <> "country".
Proof.
  rewrite <- policy_of_regular. unfold policy_columns.
  rewrite list_elem_of_filter. tauto.
Qed.

Lemma justification_label_fresh (cols : list string) (col : string) :
  (col ++ "_justification")
    ∉ "country_alpha_3_code" :: Notions.regular_fields cols.
Proof.
  intros Hin. apply elem_of_cons in Hin as [Heq | Hin].
  - pose proof (endswith_app col "_justification") as He.
    rewrite Heq in He. discriminate He.
  - apply regular_fields_spec in Hin as (_ & _ & _ & _ & He).
    by rewrite endswith_app in He.
Qed.

Lemma aggregate_regular_paired (df : DataFrame) (ik : nat)
    (regular : list string) :
  col_index "country_alpha_3_code" (df_columns df) = Some ik ->
  _aggregate_regular_columns __init__ df regular
  = Notions.paired_frame df ik regular [].
Proof.
  intros Hik. unfold _aggregate_regular_columns, Notions.paired_frame.
  change (grouping_key __init__) with "country_alpha_3_code". rewrite Hik.
  cbn [fmap list_fmap]. rewrite app_nil_r. f_equal.
  apply list_fmap_ext. intros _ k _. by rewrite app_nil_r.
Qed.

Lemma set_column_paired (df : DataFrame) (ik : nat)
    (regular done : list string) (col : string) :
  (col ++ "_justification")
    ∉ ("country_alpha_3_code"
       :: (regular ++ ((fun c => c ++ "_justification")%string <$> done)))%list ->
  set_column (col ++ "_justification")
    (fun row =>
       Str (justification_cell df ik (astype_str (cell_at 0 row)) col))
    (Notions.paired_frame df ik regular done)
  = Notions.paired_frame df ik regular (done ++ [col]).
Proof.
  intros Hfresh. unfold set_column.
  apply col_index_None in Hfresh.
  unfold Notions.paired_frame at 1. cbn [df_columns df_rows].
  rewrite Hfresh. unfold Notions.paired_frame. f_equal.
  - rewrite fmap_app, app_assoc. reflexivity.
  - cbn [df_rows]. rewrite <- list_fmap_compose. apply list_fmap_ext.
    intros _ k _. cbn [compose]. rewrite fmap_app, app_assoc. reflexivity.
Qed.

Lemma add_justification_fold (df : DataFrame) (ik : nat)
    (cols done todo : list string) :
  NoDup (done ++ todo) ->
  foldl (fun res col =>
           set_column (col ++ "_justification")
             (fun row =>
                Str (justification_cell df ik (astype_str (cell_at 0 row))
                                        col))
             res)
        (Notions.paired_frame df ik (Notions.regular_fields cols) done) todo
  = Notions.paired_frame df ik (Notions.regular_fields cols) (done ++ todo).
Proof.
  revert done. induction todo as [|col todo IH]; intros done Hnd.
  - by rewrite app_nil_r.
  - cbn [foldl]. rewrite set_column_paired.
    + rewrite IH; rewrite <- app_assoc; done.
    + rewrite app_comm_cons. intros Hin. apply elem_of_app in Hin as [Hin|Hin].
      * by apply justification_label_fresh in Hin.
      * apply list_elem_of_fmap in Hin as (q & Heq & Hq).
        apply append_inj_l in Heq. subst q.
        apply NoDup_app in Hnd as (_ & Hdis & _).
        apply (Hdis col Hq). apply list_elem_of_here.
Qed.

Lemma add_justification_paired (df : DataFrame) (ik : nat)
    (cols : list string) :
  col_index "country_alpha_3_code" (df_columns df) = Some ik ->
  NoDup cols ->
  _add_justification_columns __init__ df
    (Notions.paired_frame df ik (Notions.regular_fields cols) [])
    (Notions.regular_fields cols)
  = Notions.paired_frame df ik (Notions.regular_fields cols)
                         (Notions.policy_fields cols).
Proof.
  intros Hik Hnd. unfold _add_justification_columns.
  change (grouping_key __init__) with "country_alpha_3_code". rewrite Hik.
  change (col_index "country_alpha_3_code"
            (df_columns (Notions.paired_frame df ik
                           (Notions.regular_fields cols) [])))
    with (Some 0%nat).
  rewrite policy_of_regular. rewrite add_justification_fold; [done |].
  cbn [app]. unfold Notions.policy_fields. by apply NoDup_filter.
Qed.

Lemma paired_columns_elem (df : DataFrame) (ik : nat) (cols : list string)
    (l : string) :
  l ∈ df_columns (Notions.paired_frame df ik (Notions.regular_fields cols)
                    (Notions.policy_fields cols))
  <-> l = "country_alpha_3_code" \/ l ∈ Notions.regular_fields cols
      \/ exists col, col ∈ Notions.policy_fields cols
                     /\ l = col ++ "_justification".
Proof.
  unfold Notions.paired_frame. cbn [df_columns].
  rewrite elem_of_cons, elem_of_app, list_elem_of_fmap.
  split; (intros [H | [H | (col & H1 & H2)]]; eauto 6).
Qed.

Lemma country_in_paired (df : DataFrame) (ik : nat) (cols : list string) :
  has_column "country"
    (Notions.paired_frame df ik (Notions.regular_fields cols)
       (Notions.policy_fields cols))
  = bool_decide ("country" ∈ cols).
Proof.
  unfold has_column. apply bool_decide_ext.
  rewrite col_index_Some, paired_columns_elem, regular_fields_spec. split.
  - intros [H | [H | (col & _ & H)]]; [discriminate H | tauto |].
    pose proof (endswith_app col "_justification") as He.
    rewrite <- H in He. discriminate He.
  - intros H. right. left. by split_and!.
Qed.

Lemma output_labels_in_paired (df : DataFrame) (ik : nat)
    (cols : list string) (l : string) :
  l ∈ Notions.output_labels cols ->
  l ∈ df_columns (Notions.paired_frame df ik (Notions.regular_fields cols)
                    (Notions.policy_fields cols)).
Proof.
  intros Hl. apply paired_columns_elem.
  unfold Notions.output_labels in Hl.
  apply elem_of_app in Hl as [Hl | Hl].
  - destruct (decide ("country" ∈ cols)) as [Hc|]; [| by apply elem_of_nil in Hl].
    apply list_elem_of_singleton in Hl as ->. right. left.
    apply regular_fields_spec. by split_and!.
  - apply elem_of_cons in Hl as [-> | Hl]; [by left |].
    apply list_elem_of_bind in Hl as (col & Hl & Hcol).
    apply elem_of_cons in Hl as [-> | Hl].
    + right. left. by apply policy_fields_spec in Hcol as [? _].
    + apply list_elem_of_singleton in Hl as ->. right. right. eauto.
Qed.

Lemma reorder_paired (df : DataFrame) (ik : nat) (cols : list string) :
  _reorder_columns __init__
    (Notions.paired_frame df ik (Notions.regular_fields cols)
       (Notions.policy_fields cols))
    (Notions.regular_fields cols)
  = select (Notions.output_labels cols)
      (Notions.paired_frame df ik (Notions.regular_fields cols)
         (Notions.policy_fields cols)).
Proof.
  unfold _reorder_columns. cbv zeta.
  set (R := Notions.paired_frame df ik (Notions.regular_fields cols)
              (Notions.policy_fields cols)).
  change (grouping_key __init__) with "country_alpha_3_code".
  rewrite policy_of_regular.
  assert (Horder :
    ((if has_column "country" R then ["country"] else [])
     ++ ["country_alpha_3_code"]
     ++ (Notions.policy_fields cols ≫= fun col =>
           col :: (if has_column (col ++ "_justification")%string R
                   then [(col ++ "_justification")%string] else [])))%list
    = Notions.output_labels cols).
  { unfold Notions.output_labels. subst R. rewrite country_in_paired.
    f_equal.
    - destruct (decide ("country" ∈ cols));
        [by rewrite bool_decide_eq_true_2 | by rewrite bool_decide_eq_false_2].
    - cbn [app]. f_equal. apply bind_ext_in. intros col Hcol.
      rewrite (proj2 (has_column_spec _ _)); [done |].
      apply paired_columns_elem. right. right. eauto. }
  rewrite Horder. f_equal. apply filter_Forall_id.
  apply Forall_forall. intros l Hl. apply has_column_spec.
  subst R. by apply output_labels_in_paired.
Qed.

Lemma aggregate_pipeline (df : DataFrame) (ik : nat) :
  NoDup (df_columns df) ->
  col_index "country_alpha_3_code" (df_columns df) = Some ik ->
  Notions.regular_fields (df_columns df) <> [] ->
  aggregate __init__ df
  = Ok (select (Notions.output_labels (df_columns df))
          (Notions.paired_frame (_safe_explode_countries __init__ df) ik
             (Notions.regular_fields (df_columns df))
             (Notions.policy_fields (df_columns df)))).
Proof.
  intros Hnd Hik Hsome. unfold aggregate, _validate_input.
  change (grouping_key __init__) with "country_alpha_3_code".
  rewrite (proj2 (has_column_spec _ _))
    by (apply col_index_Some; by rewrite Hik).
  cbn [negb].
  pose proof (categorize_regular (_safe_explode_countries __init__ df)) as Hreg.
  rewrite explode_columns in Hreg.
  destruct (_categorize_columns __init__
              (_safe_explode_countries __init__ df)) as [regular just].
  cbn [fst] in Hreg. subst regular.
  rewrite decide_False by done.
  assert (Hik' : col_index "country_alpha_3_code"
                   (df_columns (_safe_explode_countries __init__ df))
                 = Some ik) by (by rewrite explode_columns).
  rewrite (aggregate_regular_paired _ ik) by done.
  rewrite add_justification_paired by done.
  by rewrite reorder_paired.
Qed.

Lemma select_rows_lookup (labels : list string) (R : DataFrame) (n : nat)
    (r : list cell) :
  df_rows R !! n = Some r ->
  exists row,
    df_rows (select labels R) !! n = Some row
    /\ length row = length labels
    /\ forall l c, l ∈ labels -> Notions.at_label R l r = Some c ->
                   Notions.at_label (select labels R) l row = Some c.
Proof.
  intros Hr. unfold select. cbn [df_rows]. rewrite list_lookup_fmap, Hr.
  eexists. split; [reflexivity |]. split; [by rewrite length_fmap |].
  intros l c Hl Hc. unfold Notions.at_label in *. cbn [df_columns].
  apply col_index_Some in Hl as [j Hj]. rewrite Hj. cbn.
  rewrite list_lookup_fmap, (col_index_lookup _ _ _ Hj). cbn.
  destruct (col_index l (df_columns R)) as [i|]; [| done]. cbn in Hc.
  unfold cell_at. by rewrite (list_lookup_total_correct _ _ _ Hc).
Qed.

Lemma paired_rows_lookup (df : DataFrame) (ik : nat)
    (regular done : list string) (n : nat) (k : string) :
  group_keys df ik !! n = Some k ->
  df_rows (Notions.paired_frame df ik regular done) !! n
  = Some (Str k :: ((Notions.regular_cell df ik k <$> regular)
                    ++ ((fun col => Str (justification_cell df ik k col))
                        <$> done)))%list.
Proof.
  intros Hk. unfold Notions.paired_frame. cbn [df_rows].
  by rewrite list_lookup_fmap, Hk.
Qed.

Lemma at_label_paired_key (df : DataFrame) (ik : nat)
    (regular done : list string) (tl : list cell) (k : string) :
  Notions.at_label (Notions.paired_frame df ik regular done)
    "country_alpha_3_code" (Str k :: tl)
  = Some (Str k).
Proof. reflexivity. Qed.

Lemma at_label_paired_regular (df : DataFrame) (ik : nat)
    (cols done : list string) (k col : string) :
  col ∈ Notions.regular_fields cols ->
  Notions.at_label
    (Notions.paired_frame df ik (Notions.regular_fields cols) done) col
    (Str k :: ((Notions.regular_cell df ik k <$> Notions.regular_fields cols)
               ++ ((fun c => Str (justification_cell df ik k c)) <$> done)))%list
  = Some (Notions.regular_cell df ik k col).
Proof.
  intros Hcol. unfold Notions.at_label, Notions.paired_frame.
  cbn [df_columns col_index].
  destruct (decide ("country_alpha_3_code" = col)) as [<-|_].
  { by apply regular_fields_spec in Hcol as (_ & ? & _). }
  pose proof Hcol as Hin. apply col_index_Some in Hin as [m Hm].
  rewrite (col_index_app_l _ _ _ _ Hm). cbn.
  apply col_index_lookup in Hm.
  apply lookup_app_l_Some. by rewrite list_lookup_fmap, Hm.
Qed.

Lemma at_label_paired_justification (df : DataFrame) (ik : nat)
    (cols : list string) (k col : string) :
  col ∈ Notions.policy_fields cols ->
  Notions.at_label
    (Notions.paired_frame df ik (Notions.regular_fields cols)
       (Notions.policy_fields cols))
    (col ++ "_justification")
    (Str k :: ((Notions.regular_cell df ik k <$> Notions.regular_fields cols)
               ++ ((fun c => Str (justification_cell df ik k c))
                   <$> Notions.policy_fields cols)))%list
  = Some (Str (justification_cell df ik k col)).
Proof.
  intros Hcol. unfold Notions.at_label, Notions.paired_frame.
  cbn [df_columns col_index].
  pose proof (justification_label_fresh cols col) as Hfresh.
  apply not_elem_of_cons in Hfresh as [Hkey Hreg].
  destruct (decide ("country_alpha_3_code" = col ++ "_justification"));
    [done |].
  assert (Hin : (col ++ "_justification")
                ∈ (fun c => c ++ "_justification")
                  <$> Notions.policy_fields cols).
  { apply list_elem_of_fmap. eauto. }
  apply col_index_Some in Hin as [m Hm].
  rewrite (col_index_app_r _ _ _ _ Hreg Hm). cbn.
  apply col_index_lookup in Hm.
  apply list_lookup_fmap_Some in Hm as (col' & Heq & Hm).
  apply append_inj_l in Heq. subst col'.
  apply lookup_app_Some. right. rewrite length_fmap. split; [lia |].
  replace (length (Notions.regular_fields cols) + m
           - length (Notions.regular_fields cols))%nat with m by lia.
  by rewrite list_lookup_fmap, Hm.
Qed.

Lemma at_label_cell (R : DataFrame) (l : string) (r : list cell) (c : cell) :
  Notions.at_label R l r = Some c ->
  match col_index l (df_columns R) with
  | Some i => cell_at i r
  | None => NaN
  end = c.
Proof.
  unfold Notions.at_label.
  destruct (col_index l (df_columns R)) as [i|]; [| done]. cbn.
  intros Hc. unfold cell_at. by apply list_lookup_total_correct.
Qed.

Lemma not_justification (col p : string) :
  Py.endswith col "_justification" = false -> col <> p ++ "_justification".
Proof. intros He ->. by rewrite endswith_app in He. Qed.

Lemma policy_field_plain (cols : list string) (col : string) :
  col ∈ Notions.policy_fields cols ->
  col <> "country_alpha_3_code" /\ col <> "country"
  /\ Py.endswith col "_justification" = false.
Proof.
  intros H. apply policy_fields_spec in H as [H ?].
  apply regular_fields_spec in H. tauto.
Qed.

Lemma output_labels_NoDup (cols : list string) :
  NoDup cols -> NoDup (Notions.output_labels cols).
Proof.
  intros Hnd. unfold Notions.output_labels.
  assert (Hbind : forall l,
            l ∈ (Notions.policy_fields cols ≫= fun col =>
                   [col; (col ++ "_justification")%string]) ->
            exists col, col ∈ Notions.policy_fields cols
                        /\ (l = col \/ l = col ++ "_justification")).
  { intros l Hl. apply list_elem_of_bind in Hl as (col & Hl & Hcol).
    exists col. split; [done |].
    apply elem_of_cons in Hl as [-> | Hl]; [by left |].
    apply list_elem_of_singleton in Hl. by right. }
  apply NoDup_app. split_and!.
  - destruct (decide ("country" ∈ cols)); [apply NoDup_singleton | constructor].
  - intros l Hl Hin.
    assert (Hc : l = "country").
    { destruct (decide ("country" ∈ cols)); [| by apply elem_of_nil in Hl].
      by apply list_elem_of_singleton in Hl. }
    subst l.
    apply elem_of_cons in Hin as [Heq | Hin]; [discriminate Heq |].
    apply Hbind in Hin as (col & Hcol & [Heq | Heq]).
    + subst col. by apply policy_field_plain in Hcol as (_ & ? & _).
    + by apply (not_justification "country" col) in Heq.
  - apply NoDup_cons. split.
    + intros Hin. apply Hbind in Hin as (col & Hcol & [Heq | Heq]).
      * subst col. by apply policy_field_plain in Hcol as (? & _).
      * by apply (not_justification "country_alpha_3_code" col) in Heq.
    + apply NoDup_bind.
      * intros c1 c2 l H1 H2 Hl1 Hl2.
        apply policy_field_plain in H1 as (_ & _ & He1).
        apply policy_field_plain in H2 as (_ & _ & He2).
        apply elem_of_cons in Hl1 as [-> | Hl1];
          apply elem_of_cons in Hl2 as [Heq | Hl2];
          try apply list_elem_of_singleton in Hl1;
          try apply list_elem_of_singleton in Hl2; subst.
        -- done.
        -- by apply not_justification with (p := c2) in He1.
        -- by apply not_justification with (p := c1) in He2.
        -- by apply append_inj_l in Hl2.
      * intros col Hcol. apply policy_field_plain in Hcol as (_ & _ & He).
        apply NoDup_cons. split; [| apply NoDup_singleton].
        intros Hin. apply list_elem_of_singleton in Hin.
        by apply not_justification with (p := col) in He.
      * unfold Notions.policy_fields. by apply NoDup_filter.
Qed.

Lemma regular_cell_notna (df : DataFrame) (ik : nat) (k col : string) :
  col ∈ df_columns df -> notna (Notions.regular_cell df ik k col) = true.
Proof.
  intros Hcol. apply col_index_Some in Hcol as [i Hi].
  unfold Notions.regular_cell. rewrite Hi. by destruct (decide _).
Qed.

(** X10.  On a record set with distinct column labels that has the key
    and at least one regular field (pandas refuses to aggregate over no
    field at all), and in which no row lists one code twice, [aggregate]
    returns a frame whose columns are, in this order: the name if the record set has it, the key, then every policy
    field of the record set followed by its justification.  The labels
    are distinct, every row has one cell per column, and no cell is null.
    The columns [source_file] and [error] and the justification columns of
    the record set are not carried over. *)
Theorem aggregate_output_layout (df : DataFrame) :
  NoDup (df_columns df) ->
  "country_alpha_3_code" ∈ df_columns df ->
  Notions.regular_fields (df_columns df) <> [] ->
  Notions.codes_listed_once df ->
  exists out,
    aggregate __init__ df = Ok out
    /\ df_columns out = Notions.output_labels (df_columns df)
    /\ NoDup (df_columns out)
    /\ Forall (fun row => length row = length (df_columns out)
                          /\ Forall (fun c => notna c = true) row)
              (df_rows out).
Proof.
  intros Hnd Hkey Hsome _. apply col_index_Some in Hkey as [ik Hik].
  eexists. split; [by apply (aggregate_pipeline df ik) |].
  split; [reflexivity |]. split; [by apply output_labels_NoDup |].
  cbn [select df_rows df_columns]. apply Forall_fmap, Forall_forall.
  intros r Hr. cbn [compose]. split; [by rewrite length_fmap |].
  apply Forall_fmap, Forall_forall. intros l Hl. cbn [compose].
  unfold Notions.paired_frame in Hr. cbn [df_rows] in Hr.
  apply list_elem_of_fmap in Hr as (k & -> & _).
  pose proof (output_labels_in_paired (_safe_explode_countries __init__ df)
                ik _ _ Hl) as Hin.
  apply paired_columns_elem in Hin as [-> | [Hreg | (col & Hcol & ->)]].
  - by rewrite (at_label_cell _ _ _ _ (at_label_paired_key _ _ _ _ _ _)).
  - rewrite (at_label_cell _ _ _ _
               (at_label_paired_regular _ _ _ _ _ _ Hreg)).
    apply regular_cell_notna. rewrite explode_columns.
    by apply regular_fields_spec in Hreg as (? & _).
  - by rewrite (at_label_cell _ _ _ _
                  (at_label_paired_justification _ _ _ _ _ Hcol)).
Qed.

Lemma aggregate_output_layout_witness :
  exists out,
    aggregate __init__ Samples.df_yes_wins = Ok out
    /\ df_columns out
       = ["country_alpha_3_code"; "hpv"; "hpv_justification"]
    /\ NoDup (df_columns out)
    /\ Forall (fun row => length row = length (df_columns out)
                          /\ Forall (fun c => notna c = true) row)
              (df_rows out).
Proof.
  apply (aggregate_output_layout Samples.df_yes_wins).
  - apply (bool_decide_unpack _). vm_compute. exact I.
  - apply (bool_decide_unpack _). vm_compute. exact I.
  - vm_compute. discriminate.
  - apply (bool_decide_unpack _). vm_compute. exact I.
Defined.

Lemma key_in_output_labels (cols : list string) :
  "country_alpha_3_code" ∈ Notions.output_labels cols.
Proof.
  unfold Notions.output_labels. apply elem_of_app. right.
  apply list_elem_of_here.
Qed.



(** X12.  On a record set with distinct column labels that has the key
    and at least one regular field, and in which no row lists one code
    twice, the cells of the row [aggregate] returns for a key, read by label, are: the key itself under the key;
    under the name, the first value of the name in the exploded rows of
    the key; under every policy field, the yes-wins value of the field
    over those rows; and under the justification of the field, the merged
    justification computed from those rows. *)
Theorem aggregate_cells (df : DataFrame) (ik n : nat) (k : string) :
  let df' := _safe_explode_countries __init__ df in
  NoDup (df_columns df) ->
  col_index "country_alpha_3_code" (df_columns df) = Some ik ->
  Notions.regular_fields (df_columns df) <> [] ->
  Notions.codes_listed_once df ->
  group_keys df' ik !! n = Some k ->
  exists out row,
    aggregate __init__ df = Ok out
    /\ df_rows out !! n = Some row
    /\ Notions.at_label out "country_alpha_3_code" row = Some (Str k)
    /\ (forall i, col_index "country" (df_columns df) = Some i ->
        Notions.at_label out "country" row
        = Some (Str (_get_first_value
                       (cell_at i <$> country_rows df' ik k))))
    /\ (forall col i,
          col ∈ Notions.policy_fields (df_columns df) ->
          col_index col (df_columns df) = Some i ->
          Notions.at_label out col row
          = Some (Str (_apply_yes_wins_rule
                         (cell_at i <$> country_rows df' ik k)))
          /\ Notions.at_label out (col ++ "_justification") row
             = Some (Str (justification_cell df' ik k col))).
Proof.
  intros df' Hnd Hik Hsome _ Hk.
  set (cols := df_columns df).
  set (R := Notions.paired_frame df' ik (Notions.regular_fields cols)
              (Notions.policy_fields cols)).
  destruct (select_rows_lookup (Notions.output_labels cols) R n _
              (paired_rows_lookup df' ik _ _ n k Hk))
    as (row & Hrow & _ & Hat).
  exists (select (Notions.output_labels cols) R), row.
  split; [by apply (aggregate_pipeline df ik) |].
  split; [exact Hrow |].
  assert (Hcols' : df_columns df' = cols) by apply explode_columns.
  split_and!.
  - apply Hat; [apply key_in_output_labels | apply at_label_paired_key].
  - intros i Hi.
    assert (Hc : "country" ∈ cols) by (apply col_index_Some; by rewrite Hi).
    assert (Hreg : "country" ∈ Notions.regular_fields cols).
    { apply regular_fields_spec. by split_and!. }
    replace (Str (_get_first_value (cell_at i <$> country_rows df' ik k)))
      with (Notions.regular_cell df' ik k "country").
    + apply Hat; [| by apply at_label_paired_regular].
      unfold Notions.output_labels. apply elem_of_app. left.
      rewrite decide_True by done. apply list_elem_of_here.
    + unfold Notions.regular_cell. by rewrite Hcols', Hi.
  - intros col i Hcol Hi. split.
    + pose proof (policy_field_plain _ _ Hcol) as (_ & Hne & _).
      replace (Str (_apply_yes_wins_rule (cell_at i <$> country_rows df' ik k)))
        with (Notions.regular_cell df' ik k col).
      * apply Hat.
        -- unfold Notions.output_labels. apply elem_of_app. right.
           apply list_elem_of_further, list_elem_of_bind. exists col.
           split; [apply list_elem_of_here | done].
        -- apply at_label_paired_regular.
           by apply policy_fields_spec in Hcol as [? _].
      * unfold Notions.regular_cell. rewrite Hcols', Hi.
        by rewrite decide_False.
    + apply Hat.
      * unfold Notions.output_labels. apply elem_of_app. right.
        apply list_elem_of_further, list_elem_of_bind. exists col.
        split; [apply list_elem_of_further, list_elem_of_here | done].
      * by apply at_label_paired_justification.
Qed.

Lemma aggregate_cells_witness :
  exists out row,
    aggregate __init__ Samples.df_yes_wins = Ok out
    /\ df_rows out !! 0%nat = Some row
    /\ Notions.at_label out "hpv" row = Some (Str "yes")
    /\ Notions.at_label out "hpv_justification" row = Some (Str "b: j2").
Proof.
  destruct (aggregate_cells Samples.df_yes_wins 1 0 "AUT")
    as (out & row & Hout & Hrow & _ & _ & Hcells).
  - apply (bool_decide_unpack _). vm_compute. exact I.
  - reflexivity.
  - vm_compute. discriminate.
  - apply (bool_decide_unpack _). vm_compute. exact I.
  - reflexivity.
  - exists out, row. split; [exact Hout |]. split; [exact Hrow |].
    apply (Hcells "hpv" 2%nat); [| reflexivity].
    apply (bool_decide_unpack _). vm_compute. exact I.
Defined.

End AggregatePipeline.

(** ** Runs of the processor over the documents *)

Section DocumentRuns.
Import LLMProcessor.
Context {S : Type}.
Variable exists_ : Path.t -> bool.
Variable client_process : Path.t -> string -> list Column.t -> res (list dict).
Variables (context : string) (columns : list Column.t).
Variable row_callback : dict -> M S unit.

Lemma process_document_exists (d : Path.t) (s : S) :
  exists_ d = true ->
  exists record,
    process_document exists_ client_process context columns row_callback d s
    = (Ok record, (row_callback record s).2)
    /\ Notions.record_of client_process context columns d record.
Proof.
  intros Hex. unfold process_document. rewrite Hex. cbn [negb].
  destruct (client_process d context columns) as [[|item rest]|e] eqn:Hc.
  - eexists. split; [| by apply Notions.record_of_nothing].
    unfold bind, swallow, ret. by destruct (row_callback _ s).
  - eexists. split; [| by eapply Notions.record_of_item].
    unfold bind, swallow, ret. by destruct (row_callback _ s).
  - eexists. split; [| by apply Notions.record_of_exception].
    unfold bind, swallow, ret. by destruct (row_callback _ s).
Qed.

Lemma process_document_missing (d : Path.t) (s : S) :
  exists_ d = false ->
  process_document exists_ client_process context columns row_callback d s
  = (Raise (FileNotFoundError
              ("Document " ++ Path.to_str d ++ " does not exist.")), s).
Proof. intros Hex. unfold process_document. by rewrite Hex. Qed.

Lemma run_loop_all_exist (documents : list Path.t) (records : list dict)
    (s : S) :
  Forall (fun d => exists_ d = true) documents ->
  exists new,
    run_loop exists_ client_process context columns row_callback
             documents records s
    = (Ok (records ++ new)%list,
       foldl (fun s record => (row_callback record s).2) s new)
    /\ Forall2 (Notions.record_of client_process context columns)
               documents new.
Proof.
  intros Hall. revert records s.
  induction Hall as [|d documents Hd _ IH]; intros records s.
  - exists []. split; [by rewrite app_nil_r | constructor].
  - destruct (process_document_exists d s Hd) as (record & Hrun & Hrec).
    destruct (IH (records ++ [record])%list (row_callback record s).2)
      as (new & Hloop & Hnew).
    exists (record :: new). split; [| by constructor].
    cbn [run_loop]. unfold bind at 1. rewrite Hrun, Hloop.
    by rewrite <- app_assoc.
Qed.

Lemma run_loop_missing (before after : list Path.t) (d : Path.t)
    (records : list dict) (s : S) :
  Forall (fun d => exists_ d = true) before ->
  exists_ d = false ->
  exists done,
    run_loop exists_ client_process context columns row_callback
             (before ++ d :: after) records s
    = (Raise (FileNotFoundError
                ("Document " ++ Path.to_str d ++ " does not exist.")),
       foldl (fun s record => (row_callback record s).2) s done)
    /\ Forall2 (Notions.record_of client_process context columns)
               before done.
Proof.
  intros Hall Hd. revert records s.
  induction Hall as [|d0 before Hd0 _ IH]; intros records s.
  - exists []. split; [| constructor].
    cbn [app run_loop]. unfold bind. by rewrite process_document_missing.
  - destruct (process_document_exists d0 s Hd0) as (record & Hrun & Hrec).
    destruct (IH (records ++ [record])%list (row_callback record s).2)
      as (done & Hloop & Hdone).
    exists (record :: done). split; [| by constructor].
    change ((d0 :: before) ++ d :: after)%list
      with (d0 :: (before ++ d :: after))%list.
    cbn [run_loop]. unfold bind at 1. by rewrite Hrun, Hloop.
Qed.

Lemma run_invariant_kept (I : S -> Prop) (documents : list Path.t) (s : S) :
  (forall record s, I s -> I (row_callback record s).2) ->
  I s ->
  I (run exists_ client_process context columns row_callback documents s).2.
Proof.
  intros Hstep. unfold run.
  assert (Hloop : forall records s,
            I s ->
            I (run_loop exists_ client_process context columns row_callback
                        documents records s).2).
  { induction documents as [|d documents IH]; intros records s0 Hs; [done |].
    cbn [run_loop]. unfold bind at 1.
    destruct (exists_ d) eqn:Hd.
    - destruct (process_document_exists d s0 Hd) as (record & -> & _).
      apply IH. by apply Hstep.
    - by rewrite (process_document_missing d s0 Hd). }
  intros Hs. specialize (Hloop [] s Hs). unfold bind.
  by destruct (run_loop _ _ _ _ _ _ _ _) as [[records|e] s'].
Qed.

(** X13.  When every document exists, [run] returns the frame of one
    record per document, in the order of the documents, whatever the
    client does: a document for which the client raises or returns
    nothing gets an error record and the run goes on.  The row callback
    has been called once on each record, in that order, and an exception
    of the callback changes neither the records nor the order. *)
Theorem run_survives_client_failures (documents : list Path.t) (s : S) :
  Forall (fun d => exists_ d = true) documents ->
  exists records,
    run exists_ client_process context columns row_callback documents s
    = (Ok (DataFrame_of_records records),
       foldl (fun s record => (row_callback record s).2) s records)
    /\ Forall2 (Notions.record_of client_process context columns)
               documents records.
Proof.
  intros Hall.
  destruct (run_loop_all_exist documents [] s Hall) as (records & Hloop & Hrec).
  exists records. split; [| done].
  unfold run, bind, ret. by rewrite Hloop.
Qed.

(** X14.  A document that does not exist aborts the run: [run] raises
    [FileNotFoundError] for the first such document and returns no frame,
    although the row callback has already been called on the record of
    every document before it; no later document is touched. *)
Theorem run_aborts_at_missing_document (before after : list Path.t)
    (d : Path.t) (s : S) :
  Forall (fun d => exists_ d = true) before ->
  exists_ d = false ->
  exists done,
    run exists_ client_process context columns row_callback
        (before ++ d :: after) s
    = (Raise (FileNotFoundError
                ("Document " ++ Path.to_str d ++ " does not exist.")),
       foldl (fun s record => (row_callback record s).2) s done)
    /\ Forall2 (Notions.record_of client_process context columns)
               before done.
Proof.
  intros Hall Hd.
  destruct (run_loop_missing before after d [] s Hall Hd)
    as (done & Hloop & Hdone).
  exists done. split; [| done].
  unfold run, bind. by rewrite Hloop.
Qed.

End DocumentRuns.

Lemma run_survives_client_failures_witness :
  exists records,
    LLMProcessor.run Samples.exists_ Samples.client_process "ctx" [Samples.hpv]
      Cases.counting [Samples.doc "a.pdf"; Samples.doc "b.pdf"] 0%nat
    = (Ok (DataFrame_of_records records),
       foldl (fun s record => (Cases.counting record s).2) 0%nat records)
    /\ Forall2 (Notions.record_of Samples.client_process "ctx" [Samples.hpv])
               [Samples.doc "a.pdf"; Samples.doc "b.pdf"] records.
Proof.
  apply (run_survives_client_failures Samples.exists_ Samples.client_process
           "ctx" [Samples.hpv] Cases.counting).
  repeat constructor.
Defined.

Lemma run_aborts_at_missing_document_witness :
  exists done,
    LLMProcessor.run Cases.only_a Samples.client_process "ctx" [Samples.hpv]
      Cases.counting
      [Samples.doc "a.pdf"; Samples.doc "b.pdf"; Samples.doc "c.pdf"] 0%nat
    = (Raise (FileNotFoundError
                "Document /tmp/hpm_jobs/7/b.pdf does not exist."),
       foldl (fun s record => (Cases.counting record s).2) 0%nat done)
    /\ Forall2 (Notions.record_of Samples.client_process "ctx" [Samples.hpv])
               [Samples.doc "a.pdf"] done.
Proof.
  apply (run_aborts_at_missing_document Cases.only_a Samples.client_process
           "ctx" [Samples.hpv] Cases.counting [Samples.doc "a.pdf"]
           [Samples.doc "c.pdf"] (Samples.doc "b.pdf") 0%nat).
  - repeat constructor.
  - reflexivity.
Defined.

(** ** The records of the processor *)

Section Records.
Import LLMProcessor.

Lemma dict_get_set (k k' v : string) (d : dict) :
  dict_get k (dict_set k' v d)
  = if decide (k = k') then Some v else dict_get k d.
Proof.
  induction d as [|[k0 v0] d IH]; cbn.
  - destruct (decide (k' = k)) as [->|Hne].
    + by rewrite decide_True.
    + by rewrite decide_False.
  - destruct (decide (k0 = k')) as [->|Hne]; cbn.
    + destruct (decide (k' = k)) as [->|Hne'].
      * by rewrite decide_True.
      * by rewrite decide_False.
    + destruct (decide (k0 = k)) as [->|Hne'].
      * by rewrite decide_False.
      * exact IH.
Qed.

Lemma dict_get_setdefault (k k' v : string) (d : dict) :
  dict_get k (dict_setdefault k' v d)
  = match dict_get k d with
    | Some x => Some x
    | None => if decide (k = k') then Some v else None
    end.
Proof.
  unfold dict_setdefault. destruct (dict_get k' d) as [x|] eqn:Hk'.
  - destruct (dict_get k d) as [y|] eqn:Hk; [done |].
    destruct (decide (k = k')) as [->|]; [congruence | done].
  - rewrite dict_get_set. destruct (decide (k = k')) as [->|].
    + by rewrite Hk'.
    + by destruct (dict_get k d).
Qed.

Lemma dict_get_keys (k : string) (d : dict) :
  is_Some (dict_get k d) <-> k ∈ d.*1.
Proof.
  induction d as [|[k0 v0] d IH]; cbn.
  - split; [by intros [? [=]] | by intros ?%elem_of_nil].
  - rewrite elem_of_cons. destruct (decide (k0 = k)) as [->|Hne].
    + split; [by left | by eexists].
    + rewrite IH. split; [by right | by intros [-> | ?]].
Qed.

Lemma dict_get_update (k : string) (d item : dict) :
  NoDup item.*1 ->
  dict_get k (dict_update d item)
  = match dict_get k item with
    | Some v => Some v
    | None => dict_get k d
    end.
Proof.
  unfold dict_update. revert d.
  induction item as [|[k0 v0] item IH]; intros d Hnd; [done |].
  change (NoDup (k0 :: item.*1)) in Hnd.
  apply NoDup_cons in Hnd as [Hk0 Hnd]. cbn. rewrite IH by done.
  destruct (decide (k0 = k)) as [->|Hne].
  - destruct (dict_get k item) as [v|] eqn:Hk.
    + exfalso. apply Hk0, dict_get_keys. rewrite Hk. by eexists.
    + rewrite dict_get_set. by rewrite decide_True.
  - destruct (dict_get k item); [done |].
    rewrite dict_get_set. by rewrite decide_False.
Qed.

Lemma error_record_fold (k : string) (columns : list Column.t) (d : dict) :
  dict_get k
    (foldl (fun record col =>
              dict_setdefault (Column.name col ++ "_justification") ""
                (dict_setdefault (Column.name col) "" record))
           d columns)
  = match dict_get k d with
    | Some v => Some v
    | None =>
        if decide (k ∈ columns ≫= fun col =>
                     [Column.name col;
                      (Column.name col ++ "_justification")%string])
        then Some "" else None
    end.
Proof.
  revert d. induction columns as [|col columns IH]; intros d.
  - cbn. destruct (dict_get k d); [done |]. rewrite decide_False; [done |].
    apply not_elem_of_nil.
  - cbn [foldl]. rewrite IH, !dict_get_setdefault.
    destruct (dict_get k d) as [v|]; [done |].
    cbn [mbind list_bind app].
    destruct (decide (k = Column.name col)) as [->|Hne].
    { rewrite decide_True; [done | apply list_elem_of_here]. }
    destruct (decide (k = Column.name col ++ "_justification")) as [->|Hne'].
    { rewrite decide_True;
        [done | apply list_elem_of_further, list_elem_of_here]. }
    destruct (decide (k ∈ columns ≫= fun col =>
                        [Column.name col;
                         (Column.name col ++ "_justification")%string]))
      as [Hin|Hnin].
    + rewrite decide_True; [done | by do 2 apply list_elem_of_further].
    + rewrite decide_False; [done |].
      rewrite !not_elem_of_cons. done.
Qed.

(** X15.  An error record holds the name of the document as its
    [source_file], the first 1000 characters of the message as its
    [error], the empty text in every other field, and exactly the fields
    of the CSV header of the columns, so the CSV writer never refuses it.
    A record of a processed document holds the empty text as its [error]
    and the fields of the item; its [source_file] is the name of the
    document unless the item has a field of that name, which then
    prevails. *)
Theorem record_fields (columns : list Column.t) (file_name err_msg : string)
    (item : dict) :
  let failed := error_record columns file_name err_msg in
  let done := success_record file_name item in
  dict_get "source_file" failed = Some file_name
  /\ dict_get "error" failed = Some (String.substring 0 1000 err_msg)
  /\ (String.length (String.substring 0 1000 err_msg) <= 1000)%nat
  /\ (forall k v, dict_get k failed = Some v ->
                  k <> "source_file" -> k <> "error" -> v = "")
  /\ (forall k, k ∈ failed.*1 <-> k ∈ JobLifecycle.all_fieldnames columns)
  /\ (NoDup item.*1 ->
      dict_get "error" done = Some ""
      /\ dict_get "source_file" done
         = Some (default file_name (dict_get "source_file" item))
      /\ forall k, k <> "source_file" -> k <> "error" ->
                   dict_get k done = dict_get k item).
Proof.
  cbv zeta.
  assert (Hget : forall k,
            dict_get k (error_record columns file_name err_msg)
            = if decide (k = "source_file") then Some file_name
              else if decide (k = "error")
                   then Some (String.substring 0 1000 err_msg)
                   else if decide (k ∈ columns ≫= fun col =>
                                     [Column.name col;
                                      (Column.name col ++ "_justification")%string])
                        then Some "" else None).
  { intros k. unfold error_record. rewrite error_record_fold. cbn [dict_get].
    destruct (decide ("source_file" = k)) as [<-|Hne]; [done |].
    rewrite (decide_False (P := k = "source_file")) by done.
    destruct (decide ("error" = k)) as [<-|Hne']; [done |].
    by rewrite (decide_False (P := k = "error")). }
  split_and!.
  - by rewrite Hget.
  - by rewrite Hget.
  - clear Hget. generalize 1000%nat. intros n.
    generalize 0%nat at 1. revert n.
    induction err_msg as [|c err_msg IH]; intros n m.
    + destruct m, n; cbn; lia.
    + destruct m as [|m]; cbn.
      * destruct n as [|n]; cbn; [lia |]. specialize (IH n 0%nat). lia.
      * apply IH.
  - intros k v Hk Hs He. rewrite Hget in Hk.
    rewrite !decide_False in Hk by done.
    destruct (decide _); by inversion Hk.
  - intros k. rewrite <- dict_get_keys, Hget. unfold JobLifecycle.all_fieldnames.
    rewrite elem_of_cons, elem_of_app, list_elem_of_singleton.
    destruct (decide (k = "source_file")) as [->|Hs].
    { split; [by left | by eexists]. }
    destruct (decide (k = "error")) as [->|He].
    { split; [right; by right | by eexists]. }
    destruct (decide _) as [Hin|Hnin].
    + split; [right; by left | by eexists].
    + split; [by intros [? [=]] | by intros [? | [? | ?]]].
  - intros Hnd. unfold success_record. split_and!.
    + by rewrite dict_get_set.
    + rewrite dict_get_set, decide_False by done.
      rewrite dict_get_update by done.
      by destruct (dict_get "source_file" item).
    + intros k Hs He. rewrite dict_get_set, decide_False by done.
      rewrite dict_get_update by done.
      destruct (dict_get k item); [done |]. cbn.
      by rewrite decide_False.
Qed.

Lemma record_fields_witness :
  dict_get "source_file"
    (success_record "a.pdf" [("hpv", "yes"); ("source_file", "z.pdf")])
  = Some "z.pdf".
Proof.
  refine (proj1 (proj2 (proj2 (proj2 (proj2 (proj2 (proj2
            (record_fields [Samples.hpv] "a.pdf" ""
               [("hpv", "yes"); ("source_file", "z.pdf")]))))) _))).
  apply (bool_decide_unpack _). vm_compute. exact I.
Defined.

End Records.

(** ** The outcome of a run of a job *)

Section RunOutcome.
Import JobLifecycle.
Variable read_text : string -> cell.
Variable exists_ : Path.t -> bool.
Variable client_process : Path.t -> string -> list Column.t -> res (list dict).
Variable job_id : UUID.

Lemma opened_insert (fs : gmap UUID (list csv_row)) (row : csv_row) :
  <[job_id :=
      (default [] (match fs !! job_id with
                   | Some _ => fs
                   | None => <[job_id := []]> fs
                   end !! job_id) ++ [row])%list]>
    match fs !! job_id with
    | Some _ => fs
    | None => <[job_id := []]> fs
    end
  = <[job_id := (default [] (fs !! job_id) ++ [row])%list]> fs.
Proof.
  destruct (fs !! job_id) as [lines|] eqn:Hl.
  - by rewrite Hl.
  - by rewrite lookup_insert_eq, insert_insert_eq.
Qed.

Lemma opened_id (fs : gmap UUID (list csv_row)) :
  match fs !! job_id with
  | Some _ => fs
  | None => <[job_id := []]> fs
  end
  = <[job_id := default [] (fs !! job_id)]> fs.
Proof.
  destruct (fs !! job_id) as [lines|] eqn:Hl; [| done].
  by rewrite insert_id.
Qed.

Lemma row_callback_skipped (ps : gset string) (fieldnames : list string)
    (b1 b2 : Z) (record : dict) (s : Session) :
  let src := default "None" (dict_get "source_file" record) in
  src ∈ ps \/ src ∈ total_processed_files s ->
  row_callback job_id ps fieldnames b1 b2 record s = (Ok tt, s).
Proof.
  cbv zeta. intros Hsrc. unfold row_callback. cbv zeta.
  destruct (decide (_ ∈ ps)) as [|Hps]; [done |].
  unfold bind at 1, get at 1.
  destruct (decide (_ ∈ total_processed_files s)) as [|Htp]; [done |].
  by destruct Hsrc.
Qed.

Lemma row_callback_refused (ps : gset string) (fieldnames : list string)
    (b1 b2 : Z) (record : dict) (s : Session) :
  let src := default "None" (dict_get "source_file" record) in
  src ∉ ps -> src ∉ total_processed_files s ->
  forallb (fun k => bool_decide (k ∈ fieldnames)) record.*1 = false ->
  (row_callback job_id ps fieldnames b1 b2 record s).2
  = mkSession
      (mkWorld (repo (world s))
               (<[job_id := Spec.log_lines (world s) job_id]>
                  (raw_csv (world s))))
      (total_processed_files s) (error_files s).
Proof.
  cbv zeta. intros Hps Htp Hkeys. unfold row_callback. cbv zeta.
  rewrite decide_False by done.
  unfold bind at 1, get at 1. rewrite decide_False by done.
  rewrite Hkeys. unfold bind, modify, raise. cbn.
  unfold set_world, set_raw_csv. cbn. f_equal. f_equal. apply opened_id.
Qed.

Lemma row_callback_written (ps : gset string) (fieldnames : list string)
    (b1 b2 : Z) (record : dict) (s : Session) (j : Job.t) :
  let src := default "None" (dict_get "source_file" record) in
  let total' := total_processed_files s ∪ {[ src ]} in
  let errors' :=
    if Py.truthy (default "" (dict_get "error" record))
    then error_files s ∪ {[ src ]} else error_files s in
  repo (world s) !! job_id = Some j ->
  src ∉ ps -> src ∉ total_processed_files s ->
  forallb (fun k => bool_decide (k ∈ fieldnames)) record.*1 = true ->
  (row_callback job_id ps fieldnames b1 b2 record s).2
  = mkSession
      (mkWorld
         (<[job_id :=
              Job.set_error_count (b2 + Z.of_nat (size errors'))
                (Job.set_files_processed (b1 + Z.of_nat (size total')) j)]>
            (repo (world s)))
         (<[job_id :=
              (Spec.log_lines (world s) job_id
               ++ [(fun k => (k, default "" (dict_get k record)))
                   <$> fieldnames])%list]>
            (raw_csv (world s))))
      total' errors'.
Proof.
  cbv zeta. intros Hj Hps Htp Hkeys. unfold row_callback. cbv zeta.
  rewrite decide_False by done.
  unfold bind at 1, get at 1. rewrite decide_False by done.
  rewrite Hkeys.
  unfold bind, modify, raise, get, ret, in_world, _update_job_progress,
    swallow, on_job, Job.update_progress.
  destruct (Py.truthy _); cbn; rewrite Hj; cbn;
    unfold set_world, set_raw_csv, set_repo, Spec.log_lines; cbn;
    f_equal; f_equal; apply opened_insert.
Qed.
Lemma truthy_spec (t : string) : Py.truthy t = true <-> t <> "".
Proof.
  unfold Py.truthy. rewrite negb_true_iff. split.
  - intros H ->. discriminate H.
  - intros H. by apply String.eqb_neq.
Qed.

Lemma progressed_again (j0 : Job.t) (s s' : Session) :
  Job.set_error_count
    (Job.error_count j0 + Z.of_nat (size (error_files s')))
    (Job.set_files_processed
       (Job.files_processed j0 + Z.of_nat (size (total_processed_files s')))
       (Notions.progressed j0 s))
  = Notions.progressed j0 s'.
Proof. reflexivity. Qed.

Lemma row_callback_in_step (ps : gset string) (fieldnames : list string)
    (record : dict) (s : Session) (j0 : Job.t) (l0 : list csv_row) :
  "error" ∈ fieldnames ->
  Notions.in_step job_id j0 l0 s ->
  Notions.in_step job_id j0 l0
    (row_callback job_id ps fieldnames (Job.files_processed j0)
                  (Job.error_count j0) record s).2.
Proof.
  intros Herr (Hj & Hsub & new & Hlog & Hlen & Herrs).
  set (src := default "None" (dict_get "source_file" record)).
  destruct (decide (src ∈ ps \/ src ∈ total_processed_files s)) as [Hskip|Hnew].
  { rewrite row_callback_skipped by done. by split_and!; [| | exists new]. }
  assert (Hps : src ∉ ps) by tauto.
  assert (Htp : src ∉ total_processed_files s) by tauto.
  destruct (forallb (fun k => bool_decide (k ∈ fieldnames)) record.*1) eqn:Hkeys.
  - rewrite (row_callback_written _ _ _ _ _ _ _ Hj) by done.
    fold src. cbv zeta.
    assert (Hef : src ∉ error_files s) by set_solver.
    set (row := (fun k => (k, default "" (dict_get k record))) <$> fieldnames).
    assert (Hrow : row_text "error" row = default "" (dict_get "error" record))
      by (by apply written_text).
    assert (Hlines :
              Spec.log_lines
                (mkWorld
                   (<[job_id := Notions.progressed j0 s]> (repo (world s)))
                   (<[job_id := (Spec.log_lines (world s) job_id ++ [row])%list]>
                      (raw_csv (world s)))) job_id
              = (l0 ++ (new ++ [row]))%list).
    { unfold Spec.log_lines at 1. cbn [raw_csv]. rewrite lookup_insert_eq.
      cbn [default from_option]. unfold id. by rewrite Hlog, <- app_assoc. }
    assert (Hsize : size (total_processed_files s ∪ {[ src ]})
                    = Datatypes.S (size (total_processed_files s))).
    { rewrite size_union, size_singleton by set_solver. lia. }
    destruct (Py.truthy (default "" (dict_get "error" record))) eqn:Ht.
    + apply truthy_spec in Ht.
      unfold Notions.in_step.
      cbn [world repo raw_csv total_processed_files error_files].
      split_and!.
      * rewrite lookup_insert_eq. f_equal.
      * by apply union_mono_r.
      * exists (new ++ [row])%list. split_and!.
        -- exact Hlines.
        -- rewrite length_app, Hsize. cbn. lia.
        -- unfold Notions.error_lines. rewrite filter_app, length_app.
           fold (Notions.error_lines new). rewrite Herrs.
           rewrite filter_cons_True by (by rewrite Hrow).
           rewrite size_union, size_singleton by set_solver. cbn. lia.
    + unfold Notions.in_step.
      cbn [world repo raw_csv total_processed_files error_files].
      split_and!.
      * rewrite lookup_insert_eq. f_equal.
      * by apply union_subseteq_l'.
      * exists (new ++ [row])%list. split_and!.
        -- exact Hlines.
        -- rewrite length_app, Hsize. cbn. lia.
        -- unfold Notions.error_lines. rewrite filter_app, length_app.
           fold (Notions.error_lines new). rewrite Herrs.
           rewrite filter_cons_False; [cbn; lia |].
           rewrite Hrow. intros Hne. apply truthy_spec in Hne. congruence.
  - rewrite row_callback_refused by done.
    unfold Notions.in_step. cbn [world repo raw_csv total_processed_files error_files].
    split_and!; [done | done |].
    exists new. unfold Spec.log_lines at 1. cbn [raw_csv].
    rewrite lookup_insert_eq. done.
Qed.

Lemma error_in_all_fieldnames (columns : list Column.t) :
  "error" ∈ all_fieldnames columns.
Proof.
  unfold all_fieldnames. apply list_elem_of_further, elem_of_app. right.
  apply list_elem_of_here.
Qed.

Lemma in_step_start (w : World) (j0 : Job.t) :
  repo w !! job_id = Some j0 ->
  Notions.in_step job_id j0 (Spec.log_lines w job_id) (mkSession w ∅ ∅).
Proof.
  intros Hj. unfold Notions.in_step. cbn [world total_processed_files error_files].
  split_and!.
  - rewrite Hj. f_equal. unfold Notions.progressed. cbn [error_files total_processed_files].
    rewrite size_empty. cbn. rewrite !Z.add_0_r. by destruct j0.
  - done.
  - exists []. rewrite app_nil_r. split_and!; [done | by rewrite size_empty ..].
Qed.

Lemma callbacks_in_step (ps : gset string) (fieldnames : list string)
    (records : list dict) (s : Session) (j0 : Job.t) (l0 : list csv_row) :
  "error" ∈ fieldnames ->
  Notions.in_step job_id j0 l0 s ->
  Notions.in_step job_id j0 l0
    (foldl (fun s record =>
              (row_callback job_id ps fieldnames (Job.files_processed j0)
                            (Job.error_count j0) record s).2)
           s records).
Proof.
  intros Herr. revert s. induction records as [|record records IH]; intros s Hs;
    [done |].
  cbn [foldl]. apply IH. by apply row_callback_in_step.
Qed.

Lemma row_callback_keeps_file (ps : gset string) (fieldnames : list string)
    (record : dict) (s : Session) (j0 : Job.t) (l0 : list csv_row) :
  Notions.in_step job_id j0 l0 s ->
  is_Some (raw_csv (world s) !! job_id)
  \/ (ps = ∅ /\ total_processed_files s = ∅) ->
  is_Some (raw_csv (world (row_callback job_id ps fieldnames
                             (Job.files_processed j0) (Job.error_count j0)
                             record s).2) !! job_id).
Proof.
  intros (Hj & _) Hfile.
  set (src := default "None" (dict_get "source_file" record)).
  destruct (decide (src ∈ ps \/ src ∈ total_processed_files s)) as [Hskip|Hnew].
  { rewrite row_callback_skipped by done.
    destruct Hfile as [? | [-> Ht]]; [done |]. rewrite Ht in Hskip.
    destruct Hskip as [H | H]; by apply not_elem_of_empty in H. }
  assert (Hps : src ∉ ps) by tauto.
  assert (Htp : src ∉ total_processed_files s) by tauto.
  destruct (forallb (fun k => bool_decide (k ∈ fieldnames)) record.*1) eqn:Hkeys.
  - rewrite (row_callback_written _ _ _ _ _ _ _ Hj) by done.
    cbv zeta. cbn [world raw_csv]. by rewrite lookup_insert_eq.
  - rewrite row_callback_refused by done.
    cbn [world raw_csv]. by rewrite lookup_insert_eq.
Qed.

Lemma callbacks_keep_file (ps : gset string) (fieldnames : list string)
    (records : list dict) (s : Session) (j0 : Job.t) (l0 : list csv_row) :
  "error" ∈ fieldnames ->
  Notions.in_step job_id j0 l0 s ->
  is_Some (raw_csv (world s) !! job_id)
  \/ (ps = ∅ /\ total_processed_files s = ∅ /\ records <> []) ->
  is_Some (raw_csv (world
             (foldl (fun s record =>
                       (row_callback job_id ps fieldnames
                          (Job.files_processed j0) (Job.error_count j0)
                          record s).2)
                    s records)) !! job_id).
Proof.
  intros Herr. revert s. induction records as [|record records IH];
    intros s Hs Hfile.
  - by destruct Hfile as [? | (_ & _ & ?)].
  - cbn [foldl]. apply IH; [by apply row_callback_in_step |]. left.
    eapply row_callback_keeps_file; [done |].
    destruct Hfile as [? | (? & ? & _)]; auto.
Qed.

Lemma complete_running (df : DataFrame) (j : Job.t) :
  Job.status j = Job.RUNNING -> (Job.complete df j).1 = Ok tt.
Proof.
  intros Hst. unfold Job.complete, bind, get, raise, modify.
  destruct (decide (Job.status j <> Job.RUNNING)); [done |].
  by destruct (Job._has_errors (Some df)).
Qed.

Lemma on_job_complete (df : DataFrame) (w : World) (j : Job.t) :
  repo w !! job_id = Some j ->
  Job.status j = Job.RUNNING ->
  on_job job_id (Job.complete df) w
  = (Ok tt, set_repo (fun st => <[job_id := (Job.complete df j).2]> st) w).
Proof.
  intros Hj Hst. unfold on_job. rewrite Hj.
  pose proof (complete_running df j Hst) as Hc.
  destruct (Job.complete df j) as [r j']. cbn in Hc. by subst r.
Qed.

Lemma process_remaining_files_unfold (ps : gset string)
    (ftp : option (list Path.t)) (w : World) (j0 : Job.t) :
  repo w !! job_id = Some j0 ->
  let work := match ftp with
              | Some l => l
              | None => remaining_files j0 ps
              end in
  let fieldnames := all_fieldnames (Job.columns j0) in
  _process_remaining_files read_text exists_ client_process job_id ps ftp w
  = if decide (work = []) then
      match raw_csv w !! job_id with
      | Some lines =>
          on_job job_id (Job.complete (read_csv read_text fieldnames lines)) w
      | None => (Ok tt, w)
      end
    else
      match LLMProcessor.run exists_ client_process (Job.context j0)
              (Job.columns j0)
              (row_callback job_id ps fieldnames (Job.files_processed j0)
                            (Job.error_count j0))
              work (mkSession w ∅ ∅) with
      | (Raise e, s) => (Raise e, world s)
      | (Ok df_new, s) =>
          on_job job_id
            (Job.complete
               match raw_csv (world s) !! job_id with
               | Some lines => read_csv read_text fieldnames lines
               | None => df_new
               end)
            (world s)
      end.
Proof.
  intros Hj. cbv zeta. unfold _process_remaining_files. unfold bind at 1.
  unfold get_job at 1. unfold bind at 1, get at 1. rewrite Hj.
  unfold ret at 1. destruct (decide _) as [Hw|Hw]; [| reflexivity].
  unfold bind, get. cbv beta iota.
  by destruct (raw_csv w !! job_id).
Qed.

Lemma process_remaining_files_outcome (ps : gset string)
    (ftp : option (list Path.t)) (w : World) (j0 : Job.t) :
  repo w !! job_id = Some j0 ->
  Job.status j0 = Job.RUNNING ->
  is_Some (raw_csv w !! job_id) \/ ps = ∅ ->
  let work := match ftp with
              | Some l => l
              | None => remaining_files j0 ps
              end in
  let fieldnames := all_fieldnames (Job.columns j0) in
  let out := _process_remaining_files read_text exists_ client_process
               job_id ps ftp w in
  (work = [] -> raw_csv w !! job_id = None -> out = (Ok tt, w))
  /\ (work = [] -> forall lines,
        raw_csv w !! job_id = Some lines ->
        out = (Ok tt,
               set_repo (fun st =>
                 <[job_id := (Job.complete
                                (read_csv read_text fieldnames lines) j0).2]>
                   st) w))
  /\ (work <> [] ->
      exists s,
        Notions.in_step job_id j0 (Spec.log_lines w job_id) s
        /\ (Forall (fun d => exists_ d = true) work ->
            is_Some (raw_csv (world s) !! job_id)
            /\ out = (Ok tt,
                      set_repo (fun st =>
                        <[job_id :=
                            (Job.complete
                               (read_csv read_text fieldnames
                                  (Spec.log_lines (world s) job_id))
                               (Notions.progressed j0 s)).2]> st)
                        (world s)))
        /\ (forall before d after,
              work = (before ++ d :: after)%list ->
              Forall (fun d => exists_ d = true) before ->
              exists_ d = false ->
              out = (Raise (FileNotFoundError
                              ("Document " ++ Path.to_str d
                               ++ " does not exist.")),
                     world s))).
Proof.
  intros Hj Hst Hfile work fieldnames out.
  assert (Hout := process_remaining_files_unfold ps ftp w j0 Hj).
  cbv zeta in Hout. fold work fieldnames out in Hout. clearbody out.
  set (cb := row_callback job_id ps fieldnames
               (Job.files_processed j0) (Job.error_count j0)) in *.
  destruct (decide (work = [])) as [Hw|Hw].
  - split_and!; [| | done].
    + intros _ Hraw. by rewrite Hraw in Hout.
    + intros _ lines Hraw. rewrite Hraw in Hout. rewrite Hout.
      by apply on_job_complete.
  - split_and!; [done | done |]. intros _.
    set (run := LLMProcessor.run exists_ client_process (Job.context j0)
                  (Job.columns j0) cb work (mkSession w ∅ ∅)) in *.
    assert (Hstep : Notions.in_step job_id j0 (Spec.log_lines w job_id) run.2).
    { apply (run_invariant_kept exists_ client_process (Job.context j0)
               (Job.columns j0) cb
               (Notions.in_step job_id j0 (Spec.log_lines w job_id))).
      - intros record s Hs. apply row_callback_in_step; [| done].
        apply error_in_all_fieldnames.
      - by apply in_step_start. }
    exists run.2. split_and!; [exact Hstep | |].
    + intros Hall.
      destruct (run_loop_all_exist exists_ client_process (Job.context j0)
                  (Job.columns j0) cb work [] (mkSession w ∅ ∅) Hall)
        as (records & Hloop & Hrec).
      assert (Hrun : run = (Ok (DataFrame_of_records records),
                            foldl (fun s record => (cb record s).2)
                                  (mkSession w ∅ ∅) records)).
      { subst run. unfold LLMProcessor.run, bind, ret. by rewrite Hloop. }
      assert (Hne : records <> []).
      { intros ->. apply Forall2_nil_inv_r in Hrec. done. }
      assert (Hsome : is_Some (raw_csv (world run.2) !! job_id)).
      { rewrite Hrun. cbn [snd].
        apply (callbacks_keep_file ps fieldnames records _ j0
                 (Spec.log_lines w job_id)).
        - apply error_in_all_fieldnames.
        - by apply in_step_start.
        - cbn [world total_processed_files].
          destruct Hfile as [? | ->]; [by left | right; done]. }
      split; [exact Hsome |].
      destruct Hstep as (Hjob & _). destruct Hsome as [lines Hlines].
      rewrite Hout. destruct run as [r s]. cbn [snd] in *.
      injection Hrun as -> _. rewrite Hlines.
      unfold Spec.log_lines. rewrite Hlines. cbn [default from_option].
      unfold id. by apply on_job_complete.
    + intros before d after Hwork Hbefore Hd.
      assert (Hloop := run_loop_missing exists_ client_process (Job.context j0)
                         (Job.columns j0) cb before after d []
                         (mkSession w ∅ ∅) Hbefore Hd).
      destruct Hloop as (done & Hloop & _). rewrite <- Hwork in Hloop.
      rewrite Hout. subst run. unfold LLMProcessor.run, bind.
      by rewrite Hloop.
Qed.
Lemma update_job_present (w : World) :
  is_Some (repo w !! job_id) -> update_job job_id w = (Ok tt, w).
Proof.
  intros [j Hj]. unfold update_job, bind, get. cbv beta iota. by rewrite Hj.
Qed.

Lemma finish_ok (m : M World unit) (h : exn -> M World unit) (w w' : World) :
  m w = (Ok tt, w') ->
  is_Some (repo w' !! job_id) ->
  try_finally (try_except m h) (update_job job_id) w = (Ok tt, w').
Proof.
  intros Hm Hj. unfold try_finally, try_except. rewrite Hm.
  by rewrite update_job_present.
Qed.

Lemma fail_running (msg : string) (j : Job.t) :
  Job.status j = Job.RUNNING -> (Job.fail msg j).1 = Ok tt.
Proof.
  intros Hst. unfold Job.fail, bind, get, raise, modify.
  by destruct (decide (Job.status j <> Job.RUNNING)).
Qed.

Lemma finish_raise (m : M World unit) (w w' : World) (e : exn) (j : Job.t) :
  m w = (Raise e, w') ->
  repo w' !! job_id = Some j ->
  Job.status j = Job.RUNNING ->
  try_finally
    (try_except m (fun e => on_job job_id (Job.fail (str_exn e))))
    (update_job job_id) w
  = (Ok tt,
     set_repo (fun st => <[job_id := (Job.fail (str_exn e) j).2]> st) w').
Proof.
  intros Hm Hj Hst. unfold try_finally, try_except. rewrite Hm.
  unfold on_job. rewrite Hj.
  pose proof (fail_running (str_exn e) j Hst) as Hf.
  destruct (Job.fail (str_exn e) j) as [r j']. cbn in Hf. subst r.
  rewrite update_job_present; [done |].
  unfold set_repo. cbn [repo]. rewrite lookup_insert_eq. by eexists.
Qed.

Lemma first_missing (work : list Path.t) :
  Forall (fun d => exists_ d = true) work
  \/ exists before d after,
       work = (before ++ d :: after)%list
       /\ Forall (fun d => exists_ d = true) before
       /\ exists_ d = false.
Proof.
  induction work as [|d work IH]; [left; constructor |].
  destruct (exists_ d) eqn:Hd.
  - destruct IH as [Hall | (before & d' & after & -> & Hb & Hd')].
    + left. by constructor.
    + right. exists (d :: before), d', after. split_and!; [done | | done].
      by constructor.
  - right. exists [], d, work. split_and!; [done | constructor | done].
Qed.

Lemma process_running_job_unfold (resume : bool) (w : World) (j : Job.t) :
  repo w !! job_id = Some j ->
  let raw := raw_csv w !! job_id in
  let resumed := bool_decide (is_Some raw) && resume in
  let ps : gset string :=
    if resumed then list_to_set (_get_processed_files read_text raw) else ∅ in
  let j1 :=
    if resumed then Job.set_files_processed (Z.of_nat (size ps)) j else j in
  process_running_job read_text exists_ client_process job_id resume w
  = try_finally
      (try_except
         (_process_remaining_files read_text exists_ client_process
            job_id ps None)
         (fun e => on_job job_id (Job.fail (str_exn e))))
      (update_job job_id)
      (set_repo (fun st => <[job_id := j1]> st) w).
Proof.
  intros Hj. cbv zeta. unfold process_running_job.
  unfold bind at 1, get at 1. cbv beta iota.
  destruct (bool_decide (is_Some (raw_csv w !! job_id)) && resume).
  - unfold bind at 1. unfold bind at 1. unfold on_job at 1. rewrite Hj.
    unfold Job.update_progress, bind, modify, ret. cbn. reflexivity.
  - unfold bind at 1, ret at 1. do 3 f_equal.
    unfold set_repo. destruct w as [rp rw]. cbn in *. f_equal.
    by rewrite insert_id.
Qed.
Lemma process_running_job_outcome (resume : bool) (w : World) (j : Job.t) :
  repo w !! job_id = Some j ->
  Job.status j = Job.RUNNING ->
  let raw := raw_csv w !! job_id in
  let resumed := bool_decide (is_Some raw) && resume in
  let ps : gset string :=
    if resumed then list_to_set (_get_processed_files read_text raw) else ∅ in
  let j1 :=
    if resumed then Job.set_files_processed (Z.of_nat (size ps)) j else j in
  let work := remaining_files j ps in
  let fieldnames := all_fieldnames (Job.columns j) in
  let out := process_running_job read_text exists_ client_process job_id
               resume w in
  out.1 = Ok tt
  /\ exists s,
       Notions.in_step job_id j1 (Spec.log_lines w job_id) s
       /\ raw_csv out.2 = raw_csv (world s)
       /\ ((work = [] /\ raw = None /\ repo out.2 !! job_id = Some j
            /\ Notions.progressed j1 s = j)
           \/ (((work = [] /\ is_Some raw)
                \/ (work <> [] /\ Forall (fun d => exists_ d = true) work))
               /\ is_Some (raw_csv out.2 !! job_id)
               /\ repo out.2 !! job_id
                  = Some (Job.complete
                            (read_csv read_text fieldnames
                               (Spec.log_lines out.2 job_id))
                            (Notions.progressed j1 s)).2)
           \/ (exists before d after,
                 work = (before ++ d :: after)%list
                 /\ Forall (fun d => exists_ d = true) before
                 /\ exists_ d = false
                 /\ repo out.2 !! job_id
                    = Some (Job.fail
                              ("Document " ++ Path.to_str d
                               ++ " does not exist.")
                              (Notions.progressed j1 s)).2)).
Proof.
  intros Hj Hst raw resumed ps j1 work fieldnames out.
  assert (Hout := process_running_job_unfold resume w j Hj).
  cbv zeta in Hout. fold raw resumed ps j1 out in Hout. clearbody out.
  set (w1 := set_repo (fun st => <[job_id := j1]> st) w) in *.
  assert (Hj1 : repo w1 !! job_id = Some j1).
  { unfold w1, set_repo. cbn [repo]. by rewrite lookup_insert_eq. }
  assert (Hst1 : Job.status j1 = Job.RUNNING).
  { unfold j1. by destruct resumed. }
  assert (Hraw1 : raw_csv w1 = raw_csv w) by done.
  assert (Hfile : is_Some (raw_csv w1 !! job_id) \/ ps = ∅).
  { unfold ps, resumed. rewrite Hraw1. fold raw.
    destruct (bool_decide (is_Some raw)) eqn:Hb; [| by right].
    left. by apply bool_decide_eq_true in Hb. }
  assert (Hwork : remaining_files j1 ps = work).
  { unfold work, remaining_files, j1. by destruct resumed. }
  assert (Hcols : all_fieldnames (Job.columns j1) = fieldnames).
  { unfold fieldnames, j1. by destruct resumed. }
  assert (Hstart : Notions.in_step job_id j1 (Spec.log_lines w job_id)
                     (mkSession w1 ∅ ∅)).
  { exact (in_step_start w1 j1 Hj1). }
  destruct (process_remaining_files_outcome ps None w1 j1 Hj1 Hst1 Hfile)
    as (Hidle & Hread & Hrun).
  cbv zeta in Hidle, Hread, Hrun. rewrite Hwork, ?Hcols in Hidle, Hread, Hrun.
  set (m := _process_remaining_files read_text exists_ client_process
              job_id ps None) in *.
  destruct (decide (work = [])) as [Hw|Hw].
  - destruct (raw_csv w1 !! job_id) as [lines|] eqn:Hlines.
    + specialize (Hread Hw lines eq_refl).
      rewrite (finish_ok _ _ _ _ Hread) in Hout.
      2:{ unfold set_repo. cbn [repo]. rewrite lookup_insert_eq. by eexists. }
      subst out. split; [done |]. exists (mkSession w1 ∅ ∅).
      split_and!; [done | done |]. right. left. cbn [snd].
      split_and!; [left; split; [done | by exists lines] | |].
      * unfold set_repo. cbn [raw_csv]. rewrite Hlines. by eexists.
      * unfold set_repo at 1. cbn [repo]. rewrite lookup_insert_eq.
        unfold Spec.log_lines, set_repo at 1. cbn [raw_csv world].
        rewrite Hlines. cbn [default from_option]. unfold id.
        destruct Hstart as (Hp & _). cbn [world] in Hp.
        rewrite Hj1 in Hp. injection Hp as Hp. by rewrite <- Hp, Hcols.
    + specialize (Hidle Hw eq_refl).
      rewrite (finish_ok _ _ _ _ Hidle) in Hout by (by eexists).
      subst out. split; [done |]. exists (mkSession w1 ∅ ∅).
      split_and!; [done | done |]. left. cbn [snd].
      assert (Hnone : raw = None) by exact Hlines.
      assert (Hb : bool_decide (is_Some raw) = false).
      { apply bool_decide_eq_false. rewrite Hnone. by intros [? [=]]. }
      assert (Hjj : j1 = j) by (unfold j1, resumed; by rewrite Hb).
      split_and!; [done | done | by rewrite Hj1, Hjj |].
      destruct Hstart as (Hp & _). cbn [world] in Hp.
      rewrite Hj1 in Hp. injection Hp as Hp. by rewrite <- Hp.
  - destruct (Hrun Hw) as (s & Hs & Hall & Hmiss).
    destruct (first_missing work) as [Hex | (before & d & after & Hd & Hb & He)].
    + destruct (Hall Hex) as (Hsome & Hm).
      rewrite (finish_ok _ _ _ _ Hm) in Hout.
      2:{ unfold set_repo. cbn [repo]. rewrite lookup_insert_eq. by eexists. }
      subst out. split; [done |]. exists s.
      split_and!; [done | done |]. right. left. cbn [snd].
      split_and!; [by right | done |].
      unfold set_repo at 1. cbn [repo]. by rewrite lookup_insert_eq, Hcols.
    + specialize (Hmiss before d after Hd Hb He).
      pose proof Hs as (Hp & _).
      rewrite (finish_raise _ _ _ _ _ Hmiss Hp Hst1) in Hout.
      subst out. split; [done |]. exists s.
      split_and!; [done | done |]. right. right. cbn [snd].
      exists before, d, after. split_and!; [done | done | done |].
      unfold set_repo at 1. cbn [repo]. by rewrite lookup_insert_eq.
Qed.
Lemma set_status_same (j : Job.t) (st : Job.JobStatus) :
  Job.status j = st -> Job.set_status st j = j.
Proof. intros <-. by destruct j. Qed.

Lemma process_job_unfold (resume : bool) (w : World) (j : Job.t) :
  repo w !! job_id = Some j ->
  Job.status j = Job.PENDING \/ Job.status j = Job.RUNNING ->
  process_job read_text exists_ client_process job_id resume w
  = process_running_job read_text exists_ client_process job_id resume
      (set_repo (fun st => <[job_id := Job.set_status Job.RUNNING j]> st) w).
Proof.
  intros Hj Hst. unfold process_job. unfold bind at 1.
  unfold get_job at 1. unfold bind at 1, get at 1. rewrite Hj.
  unfold ret at 1. destruct Hst as [Hst | Hst]; rewrite Hst.
  - unfold bind at 1. unfold on_job at 1. rewrite Hj.
    unfold Job.start, bind, get, modify. rewrite Hst.
    destruct (decide (Job.PENDING <> Job.PENDING)) as [|_]; [done |].
    cbv beta iota. unfold update_job, bind, get, ret. cbv beta iota.
    unfold set_repo at 1. cbn [repo]. by rewrite lookup_insert_eq.
  - rewrite set_status_same by done. f_equal.
    unfold set_repo. destruct w as [rp rw]. cbn in *. f_equal.
    by rewrite insert_id.
Qed.

Lemma first_missing_unique (before before' after after' : list Path.t)
    (d d' : Path.t) :
  (before ++ d :: after = before' ++ d' :: after')%list ->
  Forall (fun d => exists_ d = true) before ->
  Forall (fun d => exists_ d = true) before' ->
  exists_ d = false -> exists_ d' = false ->
  d = d'.
Proof.
  revert before'. induction before as [|x before IH]; intros [|y before'] Heq Hb Hb' Hd Hd'.
  - by injection Heq.
  - injection Heq as -> _. apply Forall_cons in Hb' as [Hy _]. congruence.
  - injection Heq as -> _. apply Forall_cons in Hb as [Hx _]. congruence.
  - injection Heq as -> Heq. apply Forall_cons in Hb as [_ Hb].
    apply Forall_cons in Hb' as [_ Hb']. by apply (IH before').
Qed.
Lemma complete_fields (df : DataFrame) (j : Job.t) :
  Job.status j = Job.RUNNING ->
  let j' := (Job.complete df j).2 in
  Job.status j'
  = (if Job._has_errors (Some df) then Job.DONE_WITH_ERRORS else Job.DONE)
  /\ Job.result j' = Some df
  /\ Job.error_message j' = Job.error_message j
  /\ Job.files_processed j' = Job.files_processed j
  /\ Job.error_count j' = Job.error_count j
  /\ Notions.same_identity j j'.
Proof.
  intros Hst. cbv zeta. unfold Job.complete, bind, get, raise, modify.
  destruct (decide (Job.status j <> Job.RUNNING)); [done |].
  by destruct (Job._has_errors (Some df)).
Qed.

Lemma fail_fields (msg : string) (j : Job.t) :
  Job.status j = Job.RUNNING ->
  let j' := (Job.fail msg j).2 in
  Job.status j' = Job.FAILED
  /\ Job.result j' = Job.result j
  /\ Job.error_message j' = Some msg
  /\ Job.files_processed j' = Job.files_processed j
  /\ Job.error_count j' = Job.error_count j
  /\ Notions.same_identity j j'.
Proof.
  intros Hst. cbv zeta. unfold Job.fail, bind, get, raise, modify.
  by destruct (decide (Job.status j <> Job.RUNNING)).
Qed.

Lemma process_job_outcome_facts (resume : bool) (w : World) (j : Job.t) :
  repo w !! job_id = Some j ->
  Job.status j = Job.PENDING \/ Job.status j = Job.RUNNING ->
  let raw := raw_csv w !! job_id in
  let ps : gset string :=
    if bool_decide (is_Some raw) && resume
    then list_to_set (_get_processed_files read_text raw) else ∅ in
  let work := remaining_files j ps in
  let out := process_job read_text exists_ client_process job_id resume w in
  out.1 = Ok tt
  /\ exists j',
       repo out.2 !! job_id = Some j'
       /\ Notions.same_identity j j'
       /\ (work = [] -> raw = None ->
           Job.status j' = Job.RUNNING /\ Job.result j' = Job.result j
           /\ Job.error_message j' = Job.error_message j)
       /\ (Forall (fun d => exists_ d = true) work ->
           work <> [] \/ is_Some raw ->
           let df := read_csv read_text (all_fieldnames (Job.columns j))
                       (Spec.log_lines out.2 job_id) in
           is_Some (raw_csv out.2 !! job_id)
           /\ Job.status j'
              = (if Job._has_errors (Some df)
                 then Job.DONE_WITH_ERRORS else Job.DONE)
           /\ Job.result j' = Some df
           /\ Job.error_message j' = Job.error_message j)
       /\ (forall before d after,
             work = (before ++ d :: after)%list ->
             Forall (fun d => exists_ d = true) before ->
             exists_ d = false ->
             Job.status j' = Job.FAILED
             /\ Job.error_message j'
                = Some ("Document " ++ Path.to_str d ++ " does not exist.")
             /\ Job.result j' = Job.result j).
Proof.
  intros Hj Hst raw ps work out.
  assert (Hout := process_job_unfold resume w j Hj Hst).
  fold out in Hout. clearbody out.
  set (jr := Job.set_status Job.RUNNING j) in *.
  set (wr := set_repo (fun st => <[job_id := jr]> st) w) in *.
  assert (Hjr : repo wr !! job_id = Some jr).
  { unfold wr, set_repo. cbn [repo]. by rewrite lookup_insert_eq. }
  destruct (process_running_job_outcome resume wr jr Hjr eq_refl)
    as (Hok & s & Hs & Hraw & Hcases).
  rewrite <- Hout in Hok, Hraw, Hcases. clear Hout.
  change (raw_csv wr !! job_id) with raw in Hcases.
  change (remaining_files jr) with (remaining_files j) in Hcases.
  change (Job.columns jr) with (Job.columns j) in Hcases.
  cbv zeta in Hcases. fold ps work in Hcases.
  set (j1 := if bool_decide (is_Some raw) && resume
             then Job.set_files_processed (Z.of_nat (size ps)) jr else jr)
    in *.
  assert (Hp : Job.status (Notions.progressed j1 s) = Job.RUNNING
               /\ Job.result (Notions.progressed j1 s) = Job.result j
               /\ Job.error_message (Notions.progressed j1 s)
                  = Job.error_message j
               /\ Notions.same_identity j (Notions.progressed j1 s)).
  { unfold j1. by destruct (bool_decide (is_Some raw) && resume). }
  destruct Hp as (Hpst & Hpres & Hpmsg & Hpid).
  split; [exact Hok |].
  destruct Hcases as [(Hw & Hnone & Hj' & _)
                     | [(Hdone & Hsome & Hj')
                       | (before & d & after & Hw & Hb & Hd & Hj')]].
  - exists jr. split; [exact Hj' |]. split; [done |]. split_and!.
    + done.
    + intros _ [Hne | Hsome]; [done |]. rewrite Hnone in Hsome.
      by destruct Hsome.
    + intros before d after Heq. rewrite Hw in Heq.
      by destruct before.
  - destruct (complete_fields
                (read_csv read_text (all_fieldnames (Job.columns j))
                   (Spec.log_lines out.2 job_id))
                (Notions.progressed j1 s) Hpst)
      as (Cst & Cres & Cmsg & _ & _ & Cid).
    eexists. split; [exact Hj' |]. split_and!.
    + destruct Hpid as (? & ? & ? & ? & ?), Cid as (? & ? & ? & ? & ?).
      unfold Notions.same_identity. split_and!; congruence.
    + intros Hw Hnone. destruct Hdone as [[_ Hsm] | [Hne _]]; [| done].
      rewrite Hnone in Hsm. by destruct Hsm.
    + intros _ _. cbv zeta. split_and!; [done | done | done | congruence].
    + intros before d after Heq Hb Hd. exfalso.
      destruct Hdone as [[Hw _] | [_ Hall]].
      * rewrite Hw in Heq. by destruct before.
      * rewrite Heq in Hall. apply Forall_app in Hall as [_ Hall].
        apply Forall_cons in Hall as [Hall _]. congruence.
  - destruct (fail_fields ("Document " ++ Path.to_str d ++ " does not exist.")
                (Notions.progressed j1 s) Hpst)
      as (Fst & Fres & Fmsg & _ & _ & Fid).
    eexists. split; [exact Hj' |]. split_and!.
    + destruct Hpid as (? & ? & ? & ? & ?), Fid as (? & ? & ? & ? & ?).
      unfold Notions.same_identity. split_and!; congruence.
    + intros Hnil. rewrite Hnil in Hw. by destruct before.
    + intros Hall. exfalso. rewrite Hw in Hall.
      apply Forall_app in Hall as [_ Hall].
      apply Forall_cons in Hall as [Hall _]. congruence.
    + intros before' d' after' Heq Hb' Hd'.
      assert (d = d') as <-.
      { apply (first_missing_unique before before' after after');
          [congruence | done..]. }
      split_and!; [done | done | congruence].
Qed.

(** X16.  [process_job] on a job that is stored under its own id and is
    PENDING or RUNNING never raises
    and leaves the job, with its identity unchanged, in a status that the
    documents still to be processed decide.  If one of them does not
    exist, the job is FAILED with the message of the first missing
    document and keeps its result.  If they all exist, the job is
    completed with the frame read back from the checkpoint log, which
    exists by then, and not with the frame the processor returned: DONE
    or DONE_WITH_ERRORS as that frame has errors.  Only when nothing is
    left to process and no log exists does the job stay RUNNING. *)
Theorem process_job_outcome (resume : bool) (w : World) (j : Job.t) :
  repo w !! job_id = Some j ->
  Job.id j = job_id ->
  Job.status j = Job.PENDING \/ Job.status j = Job.RUNNING ->
  let raw := raw_csv w !! job_id in
  let ps : gset string :=
    if bool_decide (is_Some raw) && resume
    then list_to_set (_get_processed_files read_text raw) else ∅ in
  let work := remaining_files j ps in
  let out := process_job read_text exists_ client_process job_id resume w in
  out.1 = Ok tt
  /\ exists j',
       repo out.2 !! job_id = Some j'
       /\ Notions.same_identity j j'
       /\ (work = [] -> raw = None ->
           Job.status j' = Job.RUNNING /\ Job.result j' = Job.result j
           /\ Job.error_message j' = Job.error_message j)
       /\ (Forall (fun d => exists_ d = true) work ->
           work <> [] \/ is_Some raw ->
           let df := read_csv read_text (all_fieldnames (Job.columns j))
                       (Spec.log_lines out.2 job_id) in
           is_Some (raw_csv out.2 !! job_id)
           /\ Job.status j'
              = (if Job._has_errors (Some df)
                 then Job.DONE_WITH_ERRORS else Job.DONE)
           /\ Job.result j' = Some df
           /\ Job.error_message j' = Job.error_message j)
       /\ (forall before d after,
             work = (before ++ d :: after)%list ->
             Forall (fun d => exists_ d = true) before ->
             exists_ d = false ->
             Job.status j' = Job.FAILED
             /\ Job.error_message j'
                = Some ("Document " ++ Path.to_str d ++ " does not exist.")
             /\ Job.result j' = Job.result j).
Proof. intros Hj _. exact (process_job_outcome_facts resume w j Hj). Qed.
Lemma progress_counts_the_log_facts (resume : bool) (w : World) (j : Job.t) :
  repo w !! job_id = Some j ->
  Job.status j = Job.PENDING \/ Job.status j = Job.RUNNING ->
  let raw := raw_csv w !! job_id in
  let resumed := bool_decide (is_Some raw) && resume in
  let ps : gset string :=
    if resumed then list_to_set (_get_processed_files read_text raw) else ∅ in
  let baseline :=
    if resumed then Z.of_nat (size ps) else Job.files_processed j in
  let out := process_job read_text exists_ client_process job_id resume w in
  exists j' new,
    repo out.2 !! job_id = Some j'
    /\ Spec.log_lines out.2 job_id = (Spec.log_lines w job_id ++ new)%list
    /\ Job.files_processed j' = baseline + Z.of_nat (length new)
    /\ Job.error_count j'
       = Job.error_count j + Z.of_nat (length (Notions.error_lines new)).
Proof.
  intros Hj Hst raw resumed ps baseline out.
  assert (Hout := process_job_unfold resume w j Hj Hst).
  fold out in Hout. clearbody out.
  set (jr := Job.set_status Job.RUNNING j) in *.
  set (wr := set_repo (fun st => <[job_id := jr]> st) w) in *.
  assert (Hjr : repo wr !! job_id = Some jr).
  { unfold wr, set_repo. cbn [repo]. by rewrite lookup_insert_eq. }
  destruct (process_running_job_outcome resume wr jr Hjr eq_refl)
    as (_ & s & Hs & Hraw & Hcases).
  rewrite <- Hout in Hraw, Hcases. clear Hout.
  change (raw_csv wr !! job_id) with raw in Hcases, Hs.
  change (Spec.log_lines wr job_id) with (Spec.log_lines w job_id) in Hs.
  cbv zeta in Hcases. fold resumed ps in Hcases, Hs.
  set (j1 := if resumed
             then Job.set_files_processed (Z.of_nat (size ps)) jr else jr)
    in *.
  destruct Hs as (Hrepo & _ & new & Hlog & Hlen & Herr).
  assert (Hlog' : Spec.log_lines out.2 job_id
                  = (Spec.log_lines w job_id ++ new)%list).
  { unfold Spec.log_lines at 1. rewrite Hraw. exact Hlog. }
  assert (Hp : Job.status (Notions.progressed j1 s) = Job.RUNNING
               /\ Job.files_processed (Notions.progressed j1 s)
                  = baseline + Z.of_nat (length new)
               /\ Job.error_count (Notions.progressed j1 s)
                  = Job.error_count j
                    + Z.of_nat (length (Notions.error_lines new))).
  { rewrite Hlen, Herr. unfold j1, baseline. by destruct resumed. }
  destruct Hp as (Hpst & Hpfp & Hpec).
  destruct Hcases as [(_ & _ & Hj' & Hsame)
                     | [(_ & _ & Hj')
                       | (before & d & after & _ & _ & _ & Hj')]].
  - exists jr, new. rewrite Hsame in Hpfp, Hpec.
    split_and!; [done | done | done | done].
  - destruct (complete_fields
                (read_csv read_text (all_fieldnames (Job.columns jr))
                   (Spec.log_lines out.2 job_id))
                (Notions.progressed j1 s) Hpst)
      as (_ & _ & _ & Cfp & Cec & _).
    eexists. exists new. split; [exact Hj' |].
    split_and!; [done | congruence | congruence].
  - destruct (fail_fields ("Document " ++ Path.to_str d ++ " does not exist.")
                (Notions.progressed j1 s) Hpst)
      as (_ & _ & _ & Ffp & Fec & _).
    eexists. exists new. split; [exact Hj' |].
    split_and!; [done | congruence | congruence].
Qed.

(** X17.  The progress counters follow the checkpoint log.  After
    [process_job] on a job that is stored under its own id and is PENDING
    or RUNNING, the log is the log
    it started from followed by the lines written in this run;
    [files_processed] is its baseline plus the number of those lines, and
    [error_count] is what it was plus the number of those lines that
    carry an error text.  The baseline is the number of distinct source
    files read from the log when the run resumes from an existing log,
    and the counter the job had otherwise.  Completing or failing the job
    changes neither counter. *)
Theorem progress_counts_the_log (resume : bool) (w : World) (j : Job.t) :
  repo w !! job_id = Some j ->
  Job.id j = job_id ->
  Job.status j = Job.PENDING \/ Job.status j = Job.RUNNING ->
  let raw := raw_csv w !! job_id in
  let resumed := bool_decide (is_Some raw) && resume in
  let ps : gset string :=
    if resumed then list_to_set (_get_processed_files read_text raw) else ∅ in
  let baseline :=
    if resumed then Z.of_nat (size ps) else Job.files_processed j in
  let out := process_job read_text exists_ client_process job_id resume w in
  exists j' new,
    repo out.2 !! job_id = Some j'
    /\ Spec.log_lines out.2 job_id = (Spec.log_lines w job_id ++ new)%list
    /\ Job.files_processed j' = baseline + Z.of_nat (length new)
    /\ Job.error_count j'
       = Job.error_count j + Z.of_nat (length (Notions.error_lines new)).
Proof. intros Hj _. exact (progress_counts_the_log_facts resume w j Hj). Qed.
Lemma retry_failed_records_unfold (w : World) (j : Job.t) :
  repo w !! job_id = Some j ->
  retry_failed_records read_text exists_ client_process job_id w
  = if decide (Job.status j <> Job.RUNNING) then (Ok tt, w)
    else
      match raw_csv w !! job_id with
      | None =>
          (on_job job_id (Job.fail "Raw CSV not found") ;;; update_job job_id)%method w
      | Some lines =>
          let work :=
            _get_unprocessed_files j
              (_get_processed_files read_text (Some lines)) ∅ in
          try_finally
            (try_except
               (if decide (work = []) then
                  (on_job job_id
                     (Job.complete
                        (read_csv read_text (all_fieldnames (Job.columns j))
                                  lines)) ;;;
                   update_job job_id)%method
                else
                  _process_remaining_files read_text exists_ client_process
                    job_id
                    (list_to_set (_get_processed_files read_text (Some lines)))
                    (Some work))
               (fun e => on_job job_id (Job.fail (str_exn e))))
            (update_job job_id) w
      end.
Proof.
  intros Hj. unfold retry_failed_records. unfold bind at 1.
  unfold get_job at 1. unfold bind at 1, get at 1. rewrite Hj.
  unfold ret at 1. destruct (decide (Job.status j <> Job.RUNNING)); [done |].
  unfold bind at 1, get at 1. cbv beta iota.
  by destruct (raw_csv w !! job_id).
Qed.

(** X18.  On a job stored under its own id, [retry_failed_records]
    never raises.  It does nothing to a job
    that is not RUNNING.  On a RUNNING job it never leaves the job
    RUNNING: without a checkpoint log the job is FAILED with the message
    "Raw CSV not found"; with a log, the files whose name the log does
    not hold are processed, the job is FAILED with the message of the
    first of them that does not exist, and otherwise completed with the
    frame read back from the log, DONE or DONE_WITH_ERRORS as that frame
    has errors. *)
Theorem retry_failed_records_outcome (w : World) (j : Job.t) :
  repo w !! job_id = Some j ->
  Job.id j = job_id ->
  let out := retry_failed_records read_text exists_ client_process job_id w in
  out.1 = Ok tt
  /\ (Job.status j <> Job.RUNNING -> out.2 = w)
  /\ (Job.status j = Job.RUNNING ->
      exists j',
        repo out.2 !! job_id = Some j'
        /\ Notions.same_identity j j'
        /\ Job.status j' <> Job.RUNNING
        /\ (raw_csv w !! job_id = None ->
            Job.status j' = Job.FAILED
            /\ Job.error_message j' = Some "Raw CSV not found")
        /\ (forall lines,
              raw_csv w !! job_id = Some lines ->
              let work :=
                _get_unprocessed_files j
                  (_get_processed_files read_text (Some lines)) ∅ in
              let df := read_csv read_text (all_fieldnames (Job.columns j))
                          (Spec.log_lines out.2 job_id) in
              (Forall (fun d => exists_ d = true) work ->
               Job.status j'
               = (if Job._has_errors (Some df)
                  then Job.DONE_WITH_ERRORS else Job.DONE)
               /\ Job.result j' = Some df)
              /\ (forall before d after,
                    work = (before ++ d :: after)%list ->
                    Forall (fun d => exists_ d = true) before ->
                    exists_ d = false ->
                    Job.status j' = Job.FAILED
                    /\ Job.error_message j'
                       = Some ("Document " ++ Path.to_str d
                               ++ " does not exist.")))).
Proof.
  intros Hj _ out.
  assert (Hout := retry_failed_records_unfold w j Hj).
  fold out in Hout. clearbody out.
  destruct (decide (Job.status j <> Job.RUNNING)) as [Hne | Hst].
  { subst out. split_and!; [done | done | done]. }
  apply dec_stable in Hst.
  destruct (raw_csv w !! job_id) as [lines|] eqn:Hraw.
  - cbv zeta in Hout.
    set (pf := _get_processed_files read_text (Some lines)) in *.
    set (work := _get_unprocessed_files j pf ∅) in *.
    destruct (process_remaining_files_outcome (list_to_set pf) (Some work)
                w j Hj Hst) as (_ & _ & Hrun).
    { left. rewrite Hraw. by eexists. }
    cbv zeta in Hrun.
    destruct (decide (work = [])) as [Hw | Hw].
    + set (df0 := read_csv read_text (all_fieldnames (Job.columns j)) lines)
        in *.
      assert (Hm : (on_job job_id (Job.complete df0) ;;; update_job job_id)%method w
                   = (Ok tt,
                      set_repo (fun st =>
                        <[job_id := (Job.complete df0 j).2]> st) w)).
      { unfold bind. rewrite (on_job_complete df0 w j Hj Hst).
        apply update_job_present. unfold set_repo. cbn [repo].
        rewrite lookup_insert_eq. by eexists. }
      rewrite (finish_ok _ _ _ _ Hm) in Hout.
      2:{ unfold set_repo. cbn [repo]. rewrite lookup_insert_eq. by eexists. }
      subst out. split; [done |]. split; [done |]. intros _.
      destruct (complete_fields df0 j Hst) as (Cst & Cres & _ & _ & _ & Cid).
      eexists. cbn [snd]. split.
      { unfold set_repo at 1. cbn [repo]. by rewrite lookup_insert_eq. }
      split_and!; [done | | done |].
      * rewrite Cst. by destruct (Job._has_errors (Some df0)).
      * intros lines' [= <-]. cbv zeta.
        assert (Hlog : Spec.log_lines
                         (set_repo (fun st =>
                            <[job_id := (Job.complete df0 j).2]> st) w) job_id
                       = lines).
        { unfold Spec.log_lines, set_repo. cbn [raw_csv]. by rewrite Hraw. }
        rewrite Hlog. fold df0. split; [done |].
        intros before d after Heq. fold pf work in Heq. rewrite Hw in Heq.
        by destruct before.
    + destruct (Hrun Hw) as (s & Hs & Hall & Hmiss).
      pose proof Hs as (Hp & _).
      assert (Hpst : Job.status (Notions.progressed j s) = Job.RUNNING)
        by exact Hst.
      destruct (first_missing work)
        as [Hex | (before & d & after & Hd & Hb & He)].
      * destruct (Hall Hex) as (Hsome & Hm).
        rewrite (finish_ok _ _ _ _ Hm) in Hout.
        2:{ unfold set_repo. cbn [repo]. rewrite lookup_insert_eq. by eexists. }
        subst out. split; [done |]. split; [done |]. intros _.
        destruct (complete_fields
                    (read_csv read_text (all_fieldnames (Job.columns j))
                       (Spec.log_lines (world s) job_id))
                    (Notions.progressed j s) Hpst)
          as (Cst & Cres & _ & _ & _ & Cid).
        eexists. cbn [snd]. split.
        { unfold set_repo at 1. cbn [repo]. by rewrite lookup_insert_eq. }
        split_and!; [done | | done |].
        -- rewrite Cst. by destruct (Job._has_errors _).
        -- intros lines' [= <-]. cbv zeta. split; [done |].
           intros before d after Heq Hb Hd. exfalso.
           fold pf work in Heq. rewrite Heq in Hex.
           apply Forall_app in Hex as [_ Hex].
           apply Forall_cons in Hex as [Hex _]. congruence.
      * specialize (Hmiss before d after Hd Hb He).
        rewrite (finish_raise _ _ _ _ _ Hmiss Hp Hpst) in Hout.
        subst out. split; [done |]. split; [done |]. intros _.
        destruct (fail_fields
                    ("Document " ++ Path.to_str d ++ " does not exist.")
                    (Notions.progressed j s) Hpst)
          as (Fst & _ & Fmsg & _ & _ & Fid).
        eexists. cbn [snd]. split.
        { unfold set_repo at 1. cbn [repo]. by rewrite lookup_insert_eq. }
        split_and!; [done | | done |].
        -- cbn [str_exn]. by rewrite Fst.
        -- intros lines' [= <-]. cbv zeta. split.
           ++ intros Hex. exfalso. fold pf work in Hex. rewrite Hd in Hex.
              apply Forall_app in Hex as [_ Hex].
              apply Forall_cons in Hex as [Hex _]. congruence.
           ++ intros before' d' after' Heq Hb' Hd'. fold pf work in Heq.
              assert (d = d') as <-.
              { apply (first_missing_unique before before' after after');
                  [congruence | done..]. }
              done.
  - assert (Hm : (on_job job_id (Job.fail "Raw CSV not found") ;;;
                  update_job job_id)%method w
                 = (Ok tt,
                    set_repo (fun st =>
                      <[job_id := (Job.fail "Raw CSV not found" j).2]> st) w)).
    { unfold bind, on_job. rewrite Hj.
      pose proof (fail_running "Raw CSV not found" j Hst) as Hf.
      destruct (Job.fail "Raw CSV not found" j) as [r j']. cbn in Hf. subst r.
      apply update_job_present. unfold set_repo. cbn [repo].
      rewrite lookup_insert_eq. by eexists. }
    rewrite Hm in Hout. subst out. split; [done |]. split; [done |].
    intros _.
    destruct (fail_fields "Raw CSV not found" j Hst)
      as (Fst & _ & Fmsg & _ & _ & Fid).
    eexists. cbn [snd]. split.
    { unfold set_repo at 1. cbn [repo]. by rewrite lookup_insert_eq. }
    split_and!; [done | by rewrite Fst | done | done].
Qed.
Lemma callbacks_written (ps : gset string) (fieldnames : list string)
    (records : list dict) (s : Session) (j0 : Job.t) (l0 : list csv_row) :
  "error" ∈ fieldnames ->
  Notions.in_step job_id j0 l0 s ->
  Spec.log_lines
    (world (foldl (fun s record =>
                     (row_callback job_id ps fieldnames
                        (Job.files_processed j0) (Job.error_count j0)
                        record s).2)
                  s records)) job_id
  = (Spec.log_lines (world s) job_id
     ++ Notions.written ps fieldnames (total_processed_files s) records)%list.
Proof.
  intros Herr. revert s. induction records as [|record records IH]; intros s Hs.
  - cbn. by rewrite app_nil_r.
  - cbn [foldl Notions.written]. cbv zeta.
    pose proof (row_callback_in_step ps fieldnames record s j0 l0 Herr Hs)
      as Hs'.
    rewrite (IH _ Hs'). clear IH Hs'.
    set (src := default "None" (dict_get "source_file" record)).
    destruct (decide (src ∈ ps \/ src ∈ total_processed_files s))
      as [Hskip|Hnew].
    { by rewrite row_callback_skipped. }
    assert (Hps : src ∉ ps) by tauto.
    assert (Htp : src ∉ total_processed_files s) by tauto.
    destruct Hs as (Hj & _).
    destruct (forallb (fun k => bool_decide (k ∈ fieldnames)) record.*1)
      eqn:Hkeys.
    + rewrite (row_callback_written _ _ _ _ _ _ _ Hj) by done.
      fold src. cbn [world total_processed_files].
      unfold Spec.log_lines at 1. cbn [raw_csv]. rewrite lookup_insert_eq.
      cbn [default from_option]. unfold id. by rewrite <- app_assoc.
    + rewrite row_callback_refused by done.
      cbn [world total_processed_files].
      unfold Spec.log_lines at 1. cbn [raw_csv]. rewrite lookup_insert_eq.
      done.
Qed.
Lemma process_remaining_files_written (ps : gset string)
    (ftp : option (list Path.t)) (w : World) (j0 : Job.t) :
  repo w !! job_id = Some j0 ->
  let work := match ftp with
              | Some l => l
              | None => remaining_files j0 ps
              end in
  let fieldnames := all_fieldnames (Job.columns j0) in
  let out := _process_remaining_files read_text exists_ client_process
               job_id ps ftp w in
  work <> [] ->
  Forall (fun d => exists_ d = true) work ->
  exists records,
    Forall2 (Notions.record_of client_process (Job.context j0)
                               (Job.columns j0)) work records
    /\ Spec.log_lines out.2 job_id
       = (Spec.log_lines w job_id
          ++ Notions.written ps fieldnames ∅ records)%list.
Proof.
  intros Hj work fieldnames out Hw Hall.
  assert (Hout := process_remaining_files_unfold ps ftp w j0 Hj).
  cbv zeta in Hout. fold work fieldnames out in Hout. clearbody out.
  rewrite decide_False in Hout by done.
  set (cb := row_callback job_id ps fieldnames
               (Job.files_processed j0) (Job.error_count j0)) in *.
  destruct (run_loop_all_exist exists_ client_process (Job.context j0)
              (Job.columns j0) cb work [] (mkSession w ∅ ∅) Hall)
    as (records & Hloop & Hrec).
  exists records. split; [exact Hrec |].
  unfold LLMProcessor.run, bind, ret in Hout. rewrite Hloop in Hout.
  cbn [app] in Hout. subst out. unfold Spec.log_lines at 1.
  rewrite on_job_raw_csv.
  exact (callbacks_written ps fieldnames records (mkSession w ∅ ∅) j0
           (Spec.log_lines w job_id) (error_in_all_fieldnames _)
           (in_step_start w j0 Hj)).
Qed.

Lemma checkpoint_log_content_facts (resume : bool) (w : World) (j : Job.t) :
  repo w !! job_id = Some j ->
  Job.status j = Job.PENDING \/ Job.status j = Job.RUNNING ->
  let raw := raw_csv w !! job_id in
  let ps : gset string :=
    if bool_decide (is_Some raw) && resume
    then list_to_set (_get_processed_files read_text raw) else ∅ in
  let work := remaining_files j ps in
  let out := process_job read_text exists_ client_process job_id resume w in
  Forall (fun d => exists_ d = true) work ->
  exists records,
    Forall2 (Notions.record_of client_process (Job.context j)
                               (Job.columns j)) work records
    /\ Spec.log_lines out.2 job_id
       = (Spec.log_lines w job_id
          ++ Notions.written ps (all_fieldnames (Job.columns j)) ∅
                             records)%list.
Proof.
  intros Hj Hst raw ps work out Hall.
  assert (Hout := process_job_unfold resume w j Hj Hst).
  fold out in Hout. clearbody out.
  set (jr := Job.set_status Job.RUNNING j) in *.
  set (wr := set_repo (fun st => <[job_id := jr]> st) w) in *.
  assert (Hjr : repo wr !! job_id = Some jr).
  { unfold wr, set_repo. cbn [repo]. by rewrite lookup_insert_eq. }
  rewrite (process_running_job_unfold resume wr jr Hjr) in Hout.
  cbv zeta in Hout. change (raw_csv wr !! job_id) with raw in Hout.
  fold ps in Hout.
  set (j1 := if bool_decide (is_Some raw) && resume
             then Job.set_files_processed (Z.of_nat (size ps)) jr else jr)
    in *.
  set (w1 := set_repo (fun st => <[job_id := j1]> st) wr) in *.
  assert (Hj1 : repo w1 !! job_id = Some j1).
  { unfold w1, set_repo. cbn [repo]. by rewrite lookup_insert_eq. }
  assert (Hst1 : Job.status j1 = Job.RUNNING).
  { unfold j1. by destruct (bool_decide (is_Some raw) && resume). }
  assert (Hfile : is_Some (raw_csv w1 !! job_id) \/ ps = ∅).
  { change (raw_csv w1 !! job_id) with raw. unfold ps.
    destruct (bool_decide (is_Some raw)) eqn:Hb; [| by right].
    left. by apply bool_decide_eq_true in Hb. }
  assert (Hwork : remaining_files j1 ps = work).
  { unfold work, remaining_files, j1.
    by destruct (bool_decide (is_Some raw) && resume). }
  assert (Hctx : Job.context j1 = Job.context j
                 /\ Job.columns j1 = Job.columns j).
  { unfold j1. by destruct (bool_decide (is_Some raw) && resume). }
  destruct Hctx as [Hctx Hcols].
  destruct (process_remaining_files_outcome ps None w1 j1 Hj1 Hst1 Hfile)
    as (Hidle & Hread & Hrun).
  pose proof (process_remaining_files_written ps None w1 j1 Hj1) as Hwr.
  cbv zeta in Hidle, Hread, Hrun, Hwr.
  rewrite Hwork in Hidle, Hread, Hrun, Hwr.
  rewrite Hctx, Hcols in Hwr.
  set (m := _process_remaining_files read_text exists_ client_process
              job_id ps None) in *.
  destruct (decide (work = [])) as [Hw|Hw].
  - exists []. split; [rewrite Hw; constructor |]. cbn [Notions.written].
    rewrite app_nil_r.
    destruct (raw_csv w1 !! job_id) as [lines|] eqn:Hlines.
    + specialize (Hread Hw lines eq_refl).
      rewrite (finish_ok _ _ _ _ Hread) in Hout.
      2:{ unfold set_repo. cbn [repo]. rewrite lookup_insert_eq. by eexists. }
      by subst out.
    + specialize (Hidle Hw eq_refl).
      rewrite (finish_ok _ _ _ _ Hidle) in Hout by (by eexists).
      by subst out.
  - destruct (Hwr Hw Hall) as (records & Hrec & Hlog).
    exists records. split; [exact Hrec |].
    destruct (Hrun Hw) as (s & _ & Hok & _).
    destruct (Hok Hall) as (_ & Hm).
    rewrite (finish_ok _ _ _ _ Hm) in Hout.
    2:{ unfold set_repo. cbn [repo]. rewrite lookup_insert_eq. by eexists. }
    rewrite Hm in Hlog. subst out. exact Hlog.
Qed.

(** X19.  What a run writes, for a job that is stored under its own id
    and is PENDING or RUNNING.  When every document still to be processed
    exists, [process_job] makes one record per such document, in order,
    and the checkpoint log afterwards is the log it started from followed
    by the lines of those records, except that no line is written for a
    record whose [source_file] was loaded from the log or already written
    in this run, nor for a record with a field that the header lacks: the
    latter is swallowed by the callback and its document is missing from
    the log. *)
Theorem checkpoint_log_content (resume : bool) (w : World) (j : Job.t) :
  repo w !! job_id = Some j ->
  Job.id j = job_id ->
  Job.status j = Job.PENDING \/ Job.status j = Job.RUNNING ->
  let raw := raw_csv w !! job_id in
  let ps : gset string :=
    if bool_decide (is_Some raw) && resume
    then list_to_set (_get_processed_files read_text raw) else ∅ in
  let work := remaining_files j ps in
  let out := process_job read_text exists_ client_process job_id resume w in
  Forall (fun d => exists_ d = true) work ->
  exists records,
    Forall2 (Notions.record_of client_process (Job.context j)
                               (Job.columns j)) work records
    /\ Spec.log_lines out.2 job_id
       = (Spec.log_lines w job_id
          ++ Notions.written ps (all_fieldnames (Job.columns j)) ∅
                             records)%list.
Proof. intros Hj _. exact (checkpoint_log_content_facts resume w j Hj). Qed.
Lemma remaining_files_all (j : Job.t) : remaining_files j ∅ = Job.files j.
Proof.
  unfold remaining_files. apply filter_Forall_id, Forall_forall.
  intros p _. apply not_elem_of_empty.
Qed.

Lemma written_length (ps : gset string) (fieldnames : list string)
    (seen : gset string) (records : list dict) :
  (length (Notions.written ps fieldnames seen records) <= length records)%nat.
Proof.
  revert seen. induction records as [|record records IH]; intros seen; [done |].
  cbn [Notions.written length]. cbv zeta.
  destruct (decide _); [specialize (IH seen); lia |].
  destruct (forallb _ _).
  - cbn [length]. specialize (IH (seen ∪ {[default "None"
                                    (dict_get "source_file" record)]})). lia.
  - specialize (IH seen). lia.
Qed.

(** X21.  A job from creation to completion.  A job created under an id
    that has no checkpoint log, with at least one document and documents
    that all exist, is found by [process_job] and ends DONE or
    DONE_WITH_ERRORS with the frame read from its log as result.  The log
    holds the lines written for the records of its documents and nothing
    else; [files_processed] is the number of lines of the log and
    [error_count] the number of those with an error text, so that
    [error_count <= files_processed <= total_files]. *)
Theorem fresh_job_run (files : list Path.t) (context : string)
    (columns : list Column.t) (resume : bool) (w : World) :
  raw_csv w !! job_id = None ->
  files <> [] ->
  Forall (fun d => exists_ d = true) files ->
  let created := create_job files context columns job_id w in
  let out := process_job read_text exists_ client_process job_id resume
               created.2 in
  let log := Spec.log_lines out.2 job_id in
  let df := read_csv read_text (all_fieldnames columns) log in
  created.1 = Ok job_id
  /\ out.1 = Ok tt
  /\ exists j' records,
       repo out.2 !! job_id = Some j'
       /\ Forall2 (Notions.record_of client_process context columns)
                  files records
       /\ log = Notions.written ∅ (all_fieldnames columns) ∅ records
       /\ Job.status j'
          = (if Job._has_errors (Some df)
             then Job.DONE_WITH_ERRORS else Job.DONE)
       /\ Job.result j' = Some df
       /\ Job.files_processed j' = Z.of_nat (length log)
       /\ Job.error_count j' = Z.of_nat (length (Notions.error_lines log))
       /\ Job.total_files j' = Z.of_nat (length files)
       /\ Job.error_count j' <= Job.files_processed j' <= Job.total_files j'.
Proof.
  intros Hraw Hfiles Hall created out log df.
  set (j0 := Job.__init__ files context columns job_id).
  set (w0 := set_repo (fun st => <[job_id := j0]> st) w).
  assert (Hcreated : created = (Ok job_id, w0)) by reflexivity.
  assert (Hj0 : repo w0 !! job_id = Some j0).
  { unfold w0, set_repo. cbn [repo]. by rewrite lookup_insert_eq. }
  assert (Hraw0 : raw_csv w0 !! job_id = None) by exact Hraw.
  assert (Hst0 : Job.status j0 = Job.PENDING \/ Job.status j0 = Job.RUNNING)
    by (by left).
  subst out log df. rewrite Hcreated. cbn [fst snd].
  set (out := process_job read_text exists_ client_process job_id resume w0).
  split; [done |].
  destruct (process_job_outcome_facts resume w0 j0 Hj0 Hst0)
    as (Hok & j' & Hj' & Hid & _ & Hdone & _).
  destruct (progress_counts_the_log_facts resume w0 j0 Hj0 Hst0)
    as (j'' & new & Hj'' & Hlog & Hfp & Hec).
  pose proof (checkpoint_log_content_facts resume w0 j0 Hj0 Hst0) as Hcontent.
  cbv zeta in Hdone, Hlog, Hfp, Hec, Hcontent.
  fold out in Hok, Hj', Hdone, Hj'', Hlog, Hcontent.
  rewrite Hraw0 in Hdone, Hfp, Hcontent.
  rewrite bool_decide_eq_false_2 in Hdone, Hfp, Hcontent
    by (by intros [? [=]]).
  cbn [andb] in Hdone, Hfp, Hcontent.
  rewrite remaining_files_all in Hdone, Hcontent.
  change (Job.files j0) with files in Hdone, Hcontent.
  change (Job.columns j0) with columns in Hdone, Hcontent.
  change (Job.context j0) with context in Hcontent.
  change (Job.files_processed j0) with 0 in Hfp.
  change (Job.error_count j0) with 0 in Hec.
  rewrite Hj' in Hj''. injection Hj'' as <-.
  destruct (Hdone Hall (or_introl Hfiles)) as (_ & Hstatus & Hresult & _).
  destruct (Hcontent Hall) as (records & Hrec & Hwritten).
  assert (Hl0 : Spec.log_lines w0 job_id = []).
  { unfold Spec.log_lines. by rewrite Hraw0. }
  rewrite Hl0 in Hlog, Hwritten. cbn [app] in Hlog, Hwritten.
  split; [exact Hok |]. exists j', records.
  assert (Htotal : Job.total_files j' = Z.of_nat (length files)).
  { destruct Hid as (_ & _ & _ & _ & ->). reflexivity. }
  assert (Hle1 : (length (Notions.error_lines new) <= length new)%nat).
  { unfold Notions.error_lines. apply length_filter. }
  assert (Hle2 : (length new <= length files)%nat).
  { rewrite <- Hlog, Hwritten.
    rewrite (Forall2_length _ _ _ Hrec). apply written_length. }
  split_and!; try done.
  - by rewrite Hlog, Hfp.
  - by rewrite Hlog, Hec.
  - lia.
  - lia.
Qed.
Lemma prepare_retry_effect (w : World) (j : Job.t) (lines : list csv_row) :
  repo w !! job_id = Some j ->
  Job.status j = Job.DONE_WITH_ERRORS ->
  raw_csv w !! job_id = Some lines ->
  let cleaned := _clean_raw_csv_errors read_text lines in
  prepare_retry_and_get_cleaned_csv read_text job_id w
  = (Ok cleaned,
     mkWorld
       (<[job_id :=
            Job.set_error_count 0
              (Job.set_files_processed (Z.of_nat (length cleaned))
                 (Job.set_status Job.RUNNING j))]> (repo w))
       (<[job_id := cleaned]> (raw_csv w))).
Proof.
  intros Hj Hst Hraw. cbv zeta.
  unfold prepare_retry_and_get_cleaned_csv, get_job, update_job, on_job,
    Job.restart_for_retry, bind, get, ret, raise, modify.
  cbn. rewrite Hj. cbn.
  destruct (decide (Job.status j <> Job.DONE_WITH_ERRORS)) as [|_]; [done |].
  rewrite Hraw. cbn. rewrite Hj. cbn.
  destruct (decide (Job.status j <> Job.DONE_WITH_ERRORS)) as [|_]; [done |].
  repeat (first [ rewrite lookup_insert_eq | progress cbn ]).
  rewrite length_fmap. unfold set_repo. cbn.
  by rewrite !insert_insert_eq.
Qed.
(** X25.  The retry protocol, end to end.  On a job that is stored under
    its own id, is DONE_WITH_ERRORS and has a checkpoint log, preparing the retry and
    then retrying, when the documents to process again all exist, ends
    with the job DONE or DONE_WITH_ERRORS.  The documents processed again
    are those whose name the cleaned log does not hold; the log is then
    the cleaned log followed by the lines written for their records; the
    result is the frame read from it; [files_processed] is the number of
    its lines, and [error_count] counts only the lines of the retry that
    carry an error text. *)
Theorem retry_protocol_run (w : World) (j : Job.t) (lines : list csv_row) :
  repo w !! job_id = Some j ->
  Job.id j = job_id ->
  Job.status j = Job.DONE_WITH_ERRORS ->
  raw_csv w !! job_id = Some lines ->
  let cleaned := _clean_raw_csv_errors read_text lines in
  let kept_names := _get_processed_files read_text (Some cleaned) in
  let work := filter (fun p => Path.name p ∉ kept_names) (Job.files j) in
  let prepared := prepare_retry_and_get_cleaned_csv read_text job_id w in
  let out := retry_failed_records read_text exists_ client_process job_id
               prepared.2 in
  let fieldnames := all_fieldnames (Job.columns j) in
  Forall (fun d => exists_ d = true) work ->
  prepared.1 = Ok cleaned
  /\ out.1 = Ok tt
  /\ exists j' records,
       repo out.2 !! job_id = Some j'
       /\ Forall2 (Notions.record_of client_process (Job.context j)
                                  (Job.columns j)) work records
       /\ let new := Notions.written (list_to_set kept_names) fieldnames ∅
                                     records in
          let df := read_csv read_text fieldnames (cleaned ++ new) in
          Spec.log_lines out.2 job_id = (cleaned ++ new)%list
          /\ Job.status j'
             = (if Job._has_errors (Some df)
                then Job.DONE_WITH_ERRORS else Job.DONE)
          /\ Job.result j' = Some df
          /\ Job.files_processed j' = Z.of_nat (length (cleaned ++ new))
          /\ Job.error_count j' = Z.of_nat (length (Notions.error_lines new)).
Proof.
  intros Hj _ Hst Hraw cleaned kept_names work prepared out fieldnames Hall.
  assert (Hprep := prepare_retry_effect w j lines Hj Hst Hraw).
  cbv zeta in Hprep. fold cleaned prepared in Hprep. clearbody prepared.
  subst prepared. cbn [fst snd] in out.
  set (j1 := Job.set_error_count 0
               (Job.set_files_processed (Z.of_nat (length cleaned))
                  (Job.set_status Job.RUNNING j))) in *.
  set (w1 := mkWorld (<[job_id := j1]> (repo w))
                     (<[job_id := cleaned]> (raw_csv w))) in *.
  assert (Hj1 : repo w1 !! job_id = Some j1).
  { unfold w1. cbn [repo]. by rewrite lookup_insert_eq. }
  assert (Hraw1 : raw_csv w1 !! job_id = Some cleaned).
  { unfold w1. cbn [raw_csv]. by rewrite lookup_insert_eq. }
  assert (Hl1 : Spec.log_lines w1 job_id = cleaned).
  { unfold Spec.log_lines. by rewrite Hraw1. }
  assert (Hout := retry_failed_records_unfold w1 j1 Hj1).
  fold out in Hout. clearbody out.
  rewrite decide_False in Hout by (intros H; by apply H).
  rewrite Hraw1 in Hout. cbv zeta in Hout.
  change (_get_unprocessed_files j1
            (_get_processed_files read_text (Some cleaned)) ∅)
    with (_get_unprocessed_files j1 kept_names ∅) in Hout.
  assert (Hwork : _get_unprocessed_files j1 kept_names ∅ = work).
  { unfold _get_unprocessed_files, work. apply list_filter_iff.
    intros p. split; [| by left].
    intros [? | H]; [done | by apply not_elem_of_empty in H]. }
  rewrite Hwork in Hout.
  change (Job.columns j1) with (Job.columns j) in Hout.
  fold fieldnames kept_names in Hout.
  split; [done |].
  destruct (decide (work = [])) as [Hw | Hw].
  - set (df0 := read_csv read_text fieldnames cleaned) in *.
    assert (Hm : (on_job job_id (Job.complete df0) ;;; update_job job_id)%method w1
                 = (Ok tt,
                    set_repo (fun st =>
                      <[job_id := (Job.complete df0 j1).2]> st) w1)).
    { unfold bind. rewrite (on_job_complete df0 w1 j1 Hj1 eq_refl).
      apply update_job_present. unfold set_repo. cbn [repo].
      rewrite lookup_insert_eq. by eexists. }
    rewrite (finish_ok _ _ _ _ Hm) in Hout.
    2:{ unfold set_repo. cbn [repo]. rewrite lookup_insert_eq. by eexists. }
    subst out. split; [done |].
    destruct (complete_fields df0 j1 eq_refl)
      as (Cst & Cres & _ & Cfp & Cec & _).
    eexists. exists []. cbn [snd]. split.
    { unfold set_repo at 1. cbn [repo]. by rewrite lookup_insert_eq. }
    split; [rewrite Hw; constructor |].
    cbn [Notions.written]. cbv zeta. rewrite !app_nil_r.
    split_and!; [done | done | done | done | done].
  - destruct (process_remaining_files_outcome (list_to_set kept_names)
                (Some work) w1 j1 Hj1 eq_refl) as (_ & _ & Hrun).
    { left. rewrite Hraw1. by eexists. }
    destruct (process_remaining_files_written (list_to_set kept_names)
                (Some work) w1 j1 Hj1 Hw Hall) as (records & Hrec & Hlog).
    cbv zeta in Hrun.
    destruct (Hrun Hw) as (s & Hs & Hok & _).
    destruct (Hok Hall) as (_ & Hm).
    rewrite Hm in Hlog. cbn [snd] in Hlog.
    rewrite (finish_ok _ _ _ _ Hm) in Hout.
    2:{ unfold set_repo. cbn [repo]. rewrite lookup_insert_eq. by eexists. }
    subst out. split; [done |].
    destruct Hs as (_ & _ & new & Hnew & Hlen & Herr).
    rewrite Hl1 in Hlog, Hnew.
    change (Spec.log_lines (set_repo _ (world s)) job_id)
      with (Spec.log_lines (world s) job_id) in Hlog.
    rewrite Hnew in Hlog. apply app_inv_head in Hlog.
    change (Job.columns j1) with (Job.columns j) in Hlog.
    fold fieldnames in Hlog.
    set (dfS := read_csv read_text fieldnames
                  (Spec.log_lines (world s) job_id)).
    destruct (complete_fields dfS (Notions.progressed j1 s) eq_refl)
      as (Cst & Cres & _ & Cfp & Cec & _).
    exists (Job.complete dfS (Notions.progressed j1 s)).2, records.
    cbn [snd]. split.
    { unfold set_repo at 1. cbn [repo]. by rewrite lookup_insert_eq. }
    split; [exact Hrec |]. cbv zeta. rewrite <- Hlog.
    assert (HdfS : dfS = read_csv read_text fieldnames (cleaned ++ new)%list).
    { unfold dfS. by rewrite Hnew. }
    split_and!.
    + exact Hnew.
    + rewrite <- HdfS. exact Cst.
    + rewrite <- HdfS. exact Cres.
    + rewrite Cfp. unfold Notions.progressed.
      cbn [Job.files_processed Job.set_error_count Job.set_files_processed].
      change (Job.files_processed j1) with (Z.of_nat (length cleaned)).
      rewrite length_app, <- Hlen. lia.
    + rewrite Cec. unfold Notions.progressed.
      cbn [Job.error_count Job.set_error_count].
      change (Job.error_count j1) with 0. rewrite Herr. lia.
Qed.
End RunOutcome.

Lemma process_job_outcome_witness :
  (JobLifecycle.process_job Samples.read_text Samples.exists_
     Samples.client_process 7%N false Samples.submitted_world).1
  = Ok tt.
Proof.
  refine (proj1 (process_job_outcome Samples.read_text Samples.exists_
                   Samples.client_process 7%N false Samples.submitted_world
                   Samples.pending _ _ _)).
  - reflexivity.
  - reflexivity.
  - left. reflexivity.
Defined.

Lemma progress_counts_the_log_witness :
  let out := JobLifecycle.process_job Samples.read_text Samples.exists_
               Samples.client_process 7%N true Samples.interrupted_world in
  exists j' new,
    JobLifecycle.repo out.2 !! 7%N = Some j'
    /\ Spec.log_lines out.2 7%N = ([Samples.line_a] ++ new)%list
    /\ Job.files_processed j' = 1 + Z.of_nat (length new)
    /\ Job.error_count j'
       = 0 + Z.of_nat (length (Notions.error_lines new)).
Proof.
  refine (progress_counts_the_log Samples.read_text Samples.exists_
            Samples.client_process 7%N true Samples.interrupted_world
            (Samples.job_in Job.RUNNING None None 1 0) _ _ _).
  - reflexivity.
  - reflexivity.
  - right. reflexivity.
Defined.

Lemma retry_failed_records_outcome_witness :
  (JobLifecycle.retry_failed_records Samples.read_text Samples.exists_
     Samples.client_process 7%N Samples.interrupted_world).1
  = Ok tt.
Proof.
  refine (proj1 (retry_failed_records_outcome Samples.read_text
                   Samples.exists_ Samples.client_process 7%N
                   Samples.interrupted_world
                   (Samples.job_in Job.RUNNING None None 1 0) _ _)).
  - reflexivity.
  - reflexivity.
Defined.

Lemma checkpoint_log_content_witness :
  let out := JobLifecycle.process_job Samples.read_text Samples.exists_
               Samples.client_process 7%N false Samples.submitted_world in
  exists records,
    Forall2 (Notions.record_of Samples.client_process "ctx" [Samples.hpv])
            [Samples.doc "a.pdf"; Samples.doc "b.pdf"; Samples.doc "c.pdf"]
            records
    /\ Spec.log_lines out.2 7%N
       = Notions.written ∅ (JobLifecycle.all_fieldnames [Samples.hpv]) ∅
                         records.
Proof.
  refine (checkpoint_log_content Samples.read_text Samples.exists_
            Samples.client_process 7%N false Samples.submitted_world
            Samples.pending _ _ _ _).
  - reflexivity.
  - reflexivity.
  - left. reflexivity.
  - repeat constructor.
Defined.

(** ** Cleaning the checkpoint log before a retry *)

Section LogCleaning.
Import JobLifecycle.
Variable read_text : string -> cell.

(** Writing a cell back and reading it again gives the cell that was
    read, as [to_csv] and [read_csv] do for the values they produce. *)
Hypothesis read_write_read :
  forall t, read_text (to_csv_text (read_text t)) = read_text t.

Lemma row_text_rewritten (k : string) (r : csv_row) :
  row_text k ((fun kv : string * string =>
                 (kv.1, to_csv_text (read_text kv.2))) <$> r)
  = match dict_get k r with
    | Some v => to_csv_text (read_text v)
    | None => ""
    end.
Proof.
  unfold row_text. induction r as [|[k0 v0] r IH]; [done |].
  cbn. destruct (decide (k0 = k)); [done | exact IH].
Qed.

Lemma read_rewritten (k : string) (r : csv_row) :
  read_text (row_text k ((fun kv : string * string =>
                            (kv.1, to_csv_text (read_text kv.2))) <$> r))
  = read_text (row_text k r).
Proof.
  rewrite row_text_rewritten. unfold row_text.
  destruct (dict_get k r) as [v|]; [apply read_write_read | done].
Qed.

Lemma rewritten_twice (r : csv_row) :
  (fun kv : string * string => (kv.1, to_csv_text (read_text kv.2)))
    <$> ((fun kv : string * string => (kv.1, to_csv_text (read_text kv.2)))
         <$> r)
  = (fun kv : string * string => (kv.1, to_csv_text (read_text kv.2))) <$> r.
Proof.
  rewrite <- list_fmap_compose. apply list_fmap_ext. intros _ [k v] _.
  cbn. by rewrite read_write_read.
Qed.

Lemma filter_fmap_all {A} (P : A -> Prop) `{!forall x, Decision (P x)}
    (f : A -> A) (l : list A) :
  (forall x, P (f x) <-> P x) ->
  filter P (f <$> filter P l) = f <$> filter P l.
Proof.
  intros Hf. apply filter_Forall_id. apply Forall_fmap, Forall_forall.
  intros x Hx. apply list_elem_of_filter in Hx as [Hx _]. by apply Hf.
Qed.

Lemma read_csv_error_cell (fieldnames : list string) (r : csv_row) (i : nat) :
  col_index "error" fieldnames = Some i ->
  cell_at i ((fun k => read_text (row_text k r)) <$> fieldnames)
  = read_text (row_text "error" r).
Proof.
  intros Hi. apply col_index_lookup in Hi. unfold cell_at.
  apply list_lookup_total_correct. by rewrite list_lookup_fmap, Hi.
Qed.

(** X20.  Cleaning the log for a retry, for a reader that reads back
    what it wrote.  The cleaned log reads as the lines of the log without
    an error, in their order; the frame read from it has no error, so a
    job completed from it alone would be DONE; the source files it holds
    are those of the lines without an error; and cleaning a cleaned log
    changes nothing. *)
Theorem cleaned_log_has_no_errors (fieldnames : list string)
    (lines : list csv_row) :
  let kept :=
    filter (fun r => Job.error_value (read_text (row_text "error" r)) = false)
           lines in
  let cleaned := _clean_raw_csv_errors read_text lines in
  read_csv read_text fieldnames cleaned = read_csv read_text fieldnames kept
  /\ Job._has_errors (Some (read_csv read_text fieldnames cleaned)) = false
  /\ _get_processed_files read_text (Some cleaned)
     = _get_processed_files read_text (Some kept)
  /\ _clean_raw_csv_errors read_text cleaned = cleaned.
Proof.
  cbv zeta. unfold _clean_raw_csv_errors.
  set (keep := fun r : csv_row =>
                 Job.error_value (read_text (row_text "error" r)) = false).
  set (rewrite_row := fun r : csv_row =>
         (fun kv : string * string => (kv.1, to_csv_text (read_text kv.2)))
         <$> r).
  assert (Hread : read_csv read_text fieldnames (rewrite_row <$> filter keep lines)
                  = read_csv read_text fieldnames (filter keep lines)).
  { unfold read_csv. f_equal. rewrite <- list_fmap_compose.
    apply list_fmap_ext. intros _ r _. cbn [compose].
    apply list_fmap_ext. intros _ k _. apply read_rewritten. }
  split_and!.
  - exact Hread.
  - rewrite Hread. unfold Job._has_errors.
    destruct (df_empty _); [done |]. cbn [read_csv df_columns].
    destruct (col_index "error" fieldnames) as [i|] eqn:Hi; [| done].
    apply not_true_is_false. intros Hex. apply existsb_exists in Hex.
    destruct Hex as (c & Hc & Herr). apply list_elem_of_In in Hc.
    unfold series in Hc. cbn [read_csv df_rows] in Hc.
    apply list_elem_of_fmap in Hc as (row & -> & Hrow).
    apply list_elem_of_fmap in Hrow as (r & -> & Hr).
    apply list_elem_of_filter in Hr as [Hkeep _].
    rewrite (read_csv_error_cell _ _ _ Hi) in Herr. unfold keep in Hkeep.
    congruence.
  - unfold _get_processed_files. rewrite <- list_fmap_compose.
    apply list_fmap_ext. intros _ r _. cbn [compose].
    f_equal. apply read_rewritten.
  - rewrite filter_fmap_all.
    + rewrite <- list_fmap_compose. apply list_fmap_ext. intros _ r _.
      apply rewritten_twice.
    + intros r. unfold keep. by rewrite read_rewritten.
Qed.

End LogCleaning.

Lemma cleaned_log_has_no_errors_witness :
  Job._has_errors
    (Some (JobLifecycle.read_csv Samples.read_text
             (JobLifecycle.all_fieldnames [Samples.hpv])
             (JobLifecycle._clean_raw_csv_errors Samples.read_text
                [Samples.line_a;
                 [("source_file", "b.pdf"); ("hpv", "");
                  ("hpv_justification", ""); ("error", "timeout")]])))
  = false.
Proof.
  refine (proj1 (proj2 (cleaned_log_has_no_errors Samples.read_text _ _ _))).
  intros t. unfold Samples.read_text.
  destruct (decide (t = "")) as [->|Hne]; [reflexivity |].
  cbn. by rewrite decide_False.
Defined.

Lemma fresh_job_run_witness :
  let created := JobLifecycle.create_job
                   [Samples.doc "a.pdf"; Samples.doc "b.pdf"] "ctx"
                   [Samples.hpv] 7%N Samples.empty_world in
  let out := JobLifecycle.process_job Samples.read_text Samples.exists_
               Samples.client_process 7%N false created.2 in
  out.1 = Ok tt.
Proof.
  refine (proj1 (proj2 (fresh_job_run Samples.read_text Samples.exists_
                          Samples.client_process 7%N
                          [Samples.doc "a.pdf"; Samples.doc "b.pdf"] "ctx"
                          [Samples.hpv] false Samples.empty_world _ _ _))).
  - reflexivity.
  - discriminate.
  - repeat constructor.
Defined.

(** ** Exploding the rows twice *)

Section ExplodeTwice.
Import Aggregator.

Lemma append_assoc_string (a b c : string) : (a ++ b) ++ c = a ++ (b ++ c).
Proof.
  induction a as [|x a IH]; [done |].
  change (String x ((a ++ b) ++ c) = String x (a ++ (b ++ c))).
  by rewrite IH.
Qed.

Lemma split_go_pieces (skip : bool) (cur s : string) :
  Spec.all_chars Notions.no_comma cur = true ->
  Forall (fun piece => Spec.all_chars Notions.no_comma piece = true)
         (Py.split_go skip cur s).
Proof.
  revert skip cur. induction s as [|c s IH]; intros skip cur Hcur.
  - cbn. by constructor.
  - cbn [Py.split_go]. destruct (skip && Py.isspace c); [by apply IH |].
    destruct (decide (c = ","%char)) as [->|Hne].
    + constructor; [done | by apply IH].
    + apply IH. rewrite all_chars_app, Hcur. cbn.
      unfold Notions.no_comma. by rewrite bool_decide_eq_false_2.
Qed.

Lemma split_go_single (cur s : string) :
  Spec.all_chars Notions.no_comma s = true ->
  Py.split_go false cur s = [cur ++ s].
Proof.
  revert cur. induction s as [|c s IH]; intros cur Hs.
  - cbn. f_equal. induction cur as [|x cur IHc]; [done |].
    change (String x cur = String x (cur ++ "")). by rewrite <- IHc.
  - cbn [Spec.all_chars] in Hs. apply andb_true_iff in Hs as [Hc Hs].
    cbn [Py.split_go andb]. unfold Notions.no_comma in Hc.
    apply negb_true_iff, bool_decide_eq_false in Hc.
    rewrite decide_False by done. rewrite IH by done.
    by rewrite append_assoc_string.
Qed.

Lemma lstrip_no_comma (s : string) :
  Spec.all_chars Notions.no_comma s = true ->
  Spec.all_chars Notions.no_comma (Py.lstrip s) = true.
Proof.
  induction s as [|c s IH]; [done |]. intros Hs. cbn [Py.lstrip].
  destruct (Py.isspace c); [| done].
  cbn [Spec.all_chars] in Hs. apply andb_true_iff in Hs as [_ Hs]. auto.
Qed.

Lemma rstrip_no_comma (s : string) :
  Spec.all_chars Notions.no_comma s = true ->
  Spec.all_chars Notions.no_comma (Py.rstrip s) = true.
Proof.
  induction s as [|c s IH]; [done |]. intros Hs.
  cbn [Spec.all_chars] in Hs. apply andb_true_iff in Hs as [Hc Hs].
  specialize (IH Hs). cbn [Py.rstrip].
  destruct (Py.rstrip s) as [|x r].
  - destruct (Py.isspace c); [done |]. cbn. by rewrite Hc.
  - change (Notions.no_comma c
            && Spec.all_chars Notions.no_comma (String x r) = true).
    by rewrite Hc, IH.
Qed.

Lemma rstrip_rstrip (s : string) : Py.rstrip (Py.rstrip s) = Py.rstrip s.
Proof.
  induction s as [|c s IH]; [done |]. cbn [Py.rstrip].
  destruct (Py.rstrip s) as [|x r] eqn:Hr.
  - destruct (Py.isspace c) eqn:Hc; [done |]. cbn. by rewrite Hc.
  - cbn [Py.rstrip]. cbn [Py.rstrip] in IH. by rewrite IH.
Qed.

Lemma lstrip_rstrip_lstrip (s : string) :
  Py.lstrip (Py.rstrip (Py.lstrip s)) = Py.rstrip (Py.lstrip s).
Proof.
  induction s as [|c s IH]; [done |]. cbn [Py.lstrip].
  destruct (Py.isspace c) eqn:Hc; [exact IH |].
  cbn [Py.rstrip]. destruct (Py.rstrip s) as [|x r].
  - rewrite Hc. cbn. by rewrite Hc.
  - cbn [Py.lstrip]. by rewrite Hc.
Qed.

Lemma strip_strip (s : string) : Py.strip (Py.strip s) = Py.strip s.
Proof.
  unfold Py.strip. by rewrite lstrip_rstrip_lstrip, rstrip_rstrip.
Qed.

Lemma strip_single (s : string) :
  Spec.all_chars Notions.no_comma s = true ->
  Notions.single_value (Py.strip s).
Proof.
  intros Hs. split; [| apply strip_strip].
  unfold Py.strip. by apply rstrip_no_comma, lstrip_no_comma.
Qed.

Lemma split_single (s : string) :
  Notions.single_value s -> Py.split_comma s = [s].
Proof. intros [Hs _]. unfold Py.split_comma. by rewrite split_go_single. Qed.

Lemma bind_fixed {A} (f : A -> list A) (l : list A) :
  (forall x, x ∈ l -> f x = [x]) -> l ≫= f = l.
Proof.
  induction l as [|x l IH]; intros H; [done |]. cbn.
  rewrite (H x) by apply list_elem_of_here. cbn. f_equal.
  apply IH. intros y Hy. apply H. by apply list_elem_of_further.
Qed.

Lemma explode_row_cells (ic inm : nat) (r r' : list cell) :
  r' ∈ explode_row ic inm r ->
  exists c n,
    Notions.single_value c /\ Notions.single_value n
    /\ r' = <[inm := Str n]> (<[ic := Str c]> r).
Proof.
  unfold explode_row.
  destruct (bool_decide _); [| by intros ?%elem_of_nil].
  intros Hin. apply list_elem_of_fmap in Hin as ([c n] & -> & Hcn).
  apply elem_of_zip_l in Hcn as Hc. apply elem_of_zip_r in Hcn as Hn.
  cbn [fst snd] in *. exists (Py.strip c), (Py.strip n).
  pose proof (split_go_pieces false "" (astype_str (cell_at ic r)) eq_refl)
    as Hcodes.
  pose proof (split_go_pieces false "" (astype_str (cell_at inm r)) eq_refl)
    as Hnames.
  rewrite Forall_forall in Hcodes, Hnames.
  split_and!; [apply strip_single, Hcodes, Hc
              | apply strip_single, Hnames, Hn | done].
Qed.

Lemma explode_row_fixed (ic inm : nat) (r : list cell) (c n : string) :
  ic <> inm -> (ic < length r)%nat -> (inm < length r)%nat ->
  Notions.single_value c -> Notions.single_value n ->
  let r' := <[inm := Str n]> (<[ic := Str c]> r) in
  cell_at ic r' = Str c /\ cell_at inm r' = Str n
  /\ explode_row ic inm r' = [r'].
Proof.
  intros Hne Hic Hinm Hc Hn r'.
  assert (Hlc : r' !! ic = Some (Str c)).
  { unfold r'. rewrite list_lookup_insert_ne by done.
    by rewrite list_lookup_insert_eq. }
  assert (Hln : r' !! inm = Some (Str n)).
  { unfold r'. rewrite list_lookup_insert_eq; [done |].
    by rewrite length_insert. }
  assert (Hcc : cell_at ic r' = Str c)
    by (by apply list_lookup_total_correct).
  assert (Hcn : cell_at inm r' = Str n)
    by (by apply list_lookup_total_correct).
  split_and!; [done | done |].
  unfold explode_row. rewrite Hcc, Hcn. cbn [astype_str].
  rewrite (split_single c Hc), (split_single n Hn).
  rewrite bool_decide_eq_true_2 by done.
  cbn [zip zip_with fmap list_fmap fst snd].
  destruct Hc as [_ Hc], Hn as [_ Hn]. rewrite Hc, Hn.
  f_equal. rewrite (list_insert_id r' ic) by done.
  by rewrite list_insert_id.
Qed.
(** X22.  Exploding is idempotent and leaves single values.  On a frame
    whose rows have one cell per column, every row of the exploded frame
    holds, in the key column and in the name column, one trimmed text
    without a comma; so exploding the exploded frame again gives the same
    frame, and an already exploded record set can be aggregated again
    without its rows changing. *)
Theorem explode_is_idempotent (df : DataFrame) :
  Forall (fun r => length r = length (df_columns df)) (df_rows df) ->
  let df' := _safe_explode_countries __init__ df in
  _safe_explode_countries __init__ df' = df'
  /\ forall ic inm r',
       col_index "country_alpha_3_code" (df_columns df) = Some ic ->
       col_index "country" (df_columns df) = Some inm ->
       r' ∈ df_rows df' ->
       exists c n,
         cell_at ic r' = Str c /\ cell_at inm r' = Str n
         /\ Notions.single_value c /\ Notions.single_value n.
Proof.
  intros Hwf. cbv zeta.
  assert (Hrows : forall ic inm r',
            col_index "country_alpha_3_code" (df_columns df) = Some ic ->
            col_index "country" (df_columns df) = Some inm ->
            r' ∈ df_rows df ≫= explode_row ic inm ->
            exists c n,
              cell_at ic r' = Str c /\ cell_at inm r' = Str n
              /\ Notions.single_value c /\ Notions.single_value n
              /\ explode_row ic inm r' = [r']).
  { intros ic inm r' Hic Hinm Hr'.
    apply list_elem_of_bind in Hr' as (r & Hr' & Hr).
    apply explode_row_cells in Hr' as (c & n & Hc & Hn & ->).
    rewrite Forall_forall in Hwf. specialize (Hwf r Hr).
    apply col_index_lookup in Hic, Hinm.
    assert (Hne : ic <> inm).
    { intros ->. rewrite Hic in Hinm. discriminate Hinm. }
    apply lookup_lt_Some in Hic, Hinm. rewrite <- Hwf in Hic, Hinm.
    destruct (explode_row_fixed ic inm r c n Hne Hic Hinm Hc Hn)
      as (H1 & H2 & H3).
    exists c, n. by split_and!. }
  unfold _safe_explode_countries.
  change (grouping_key __init__) with "country_alpha_3_code".
  destruct (col_index "country_alpha_3_code" (df_columns df)) as [ic|] eqn:Hic.
  - destruct (col_index "country" (df_columns df)) as [inm|] eqn:Hinm.
    + cbn [df_columns df_rows]. rewrite Hic, Hinm. split.
      * f_equal. apply bind_fixed. intros r' Hr'.
        by destruct (Hrows ic inm r' eq_refl eq_refl Hr')
          as (c & n & _ & _ & _ & _ & ->).
      * intros ic' inm' r' [= <-] [= <-] Hr'.
        destruct (Hrows ic inm r' eq_refl eq_refl Hr')
          as (c & n & ? & ? & ? & ? & _).
        by exists c, n.
    + rewrite Hic, Hinm. split; [done | by intros ? ? ? _ [=]].
  - rewrite Hic. split; [done | by intros ? ? ? [=]].
Qed.
End ExplodeTwice.

Lemma explode_is_idempotent_witness :
  Aggregator._safe_explode_countries Aggregator.__init__
    (Aggregator._safe_explode_countries Aggregator.__init__ Samples.df_multi)
  = Aggregator._safe_explode_countries Aggregator.__init__ Samples.df_multi.
Proof.
  refine (proj1 (explode_is_idempotent Samples.df_multi _)).
  repeat constructor.
Defined.

(** ** Normalizing the response of the model *)

Section Normalization.
Import GeminiClient.
Variable repr : info -> string.

Lemma get_set (k k' : string) (v dflt : value) (d : list (string * value)) :
  get k (set k' v d) dflt = if decide (k = k') then v else get k d dflt.
Proof.
  induction d as [|[k0 v0] d IH]; cbn.
  - destruct (decide (k' = k)) as [->|Hne].
    + by rewrite decide_True.
    + by rewrite decide_False.
  - destruct (decide (k0 = k')) as [->|Hne]; cbn.
    + destruct (decide (k' = k)) as [->|Hne'].
      * by rewrite decide_True.
      * by rewrite decide_False.
    + destruct (decide (k0 = k)) as [->|Hne'].
      * by rewrite decide_False.
      * exact IH.
Qed.

Lemma set_keys (k k' : string) (v : value) (d : list (string * value)) :
  k ∈ (set k' v d).*1 <-> k = k' \/ k ∈ d.*1.
Proof.
  induction d as [|[k0 v0] d IH]; cbn.
  - rewrite list_elem_of_singleton. split; [by left |].
    intros [? | ?%elem_of_nil]; done.
  - destruct (decide (k0 = k')) as [->|Hne]; cbn.
    + rewrite !elem_of_cons. tauto.
    + rewrite !elem_of_cons, IH. tauto.
Qed.

Lemma set_fresh (k : string) (v : value) (d : list (string * value)) :
  k ∉ d.*1 -> set k v d = (d ++ [(k, v)])%list.
Proof.
  induction d as [|[k0 v0] d IH]; intros Hk; [done |]. cbn in *.
  apply not_elem_of_cons in Hk as [Hne Hk].
  rewrite decide_False by done. by rewrite IH.
Qed.

Lemma field_values_structured (field : string) (i : info) :
  Notions.structured (field, i) ->
  exists value just, field_values repr field i = Ok (value, just).
Proof.
  intros [[d Hd] | Hc]; cbn in *.
  - subst i. cbn. eauto.
  - destruct i as [d|v]; cbn; [eauto |].
    rewrite bool_decide_eq_true_2 by done. eauto.
Qed.

Lemma normalize_from_ok (record : list (string * info))
    (acc : list (string * value)) :
  Forall Notions.structured record ->
  exists out,
    normalize_from repr record acc = Ok out
    /\ (forall k,
          k ∈ out.*1
          <-> k ∈ acc.*1
              \/ exists f, f ∈ record.*1
                           /\ (k = f \/ k = f ++ "_justification"))
    /\ (forall k dflt,
          (forall f, f ∈ record.*1 ->
                     k <> f /\ k <> f ++ "_justification") ->
          get k out dflt = get k acc dflt).
Proof.
  intros Hall. revert acc.
  induction Hall as [|[f i] record Hfi _ IH]; intros acc.
  - exists acc. split_and!; [done | | done].
    intros k. split; [by left |].
    intros [? | (f & Hf & _)]; [done | by apply elem_of_nil in Hf].
  - destruct (field_values_structured f i Hfi) as (value & just & Hv).
    cbn [normalize_from]. rewrite Hv.
    destruct (IH (set (f ++ "_justification") just
                    (set f (if truthy value then value
                            else PStr "Not specified") acc)))
      as (out & Hout & Hkeys & Hget).
    exists out. split_and!; [done | |].
    + intros k. rewrite Hkeys, !set_keys. cbn [fmap list_fmap fst].
      split.
      * intros [[-> | [-> | Hk]] | (g & Hg & Hkg)].
        -- right. exists f. split; [apply list_elem_of_here | by right].
        -- right. exists f. split; [apply list_elem_of_here | by left].
        -- by left.
        -- right. exists g. split; [by apply list_elem_of_further | done].
      * intros [Hk | (g & Hg & Hkg)]; [by left; right; right |].
        apply elem_of_cons in Hg as [-> | Hg].
        -- left. destruct Hkg as [-> | ->]; [right; by left | by left].
        -- right. eauto.
    + intros k dflt Hk. rewrite Hget.
      * destruct (Hk f (list_elem_of_here _ _)) as [H1 H2].
        rewrite !get_set. by rewrite !decide_False.
      * intros g Hg. apply Hk. by apply list_elem_of_further.
Qed.

Lemma normalize_from_raise (before after : list (string * info))
    (f : string) (v : value) (acc : list (string * value)) :
  Forall Notions.structured before ->
  f ∉ ["country"; "country_alpha_3_code"] ->
  normalize_from repr (before ++ (f, InfoValue v) :: after) acc
  = Raise (ValueError ("Field '" ++ f ++ "' has unexpected structure: "
                       ++ repr (InfoValue v))).
Proof.
  intros Hall Hf. revert acc.
  induction Hall as [|[g i] before Hgi _ IH]; intros acc.
  - cbn. by rewrite bool_decide_eq_false_2.
  - destruct (field_values_structured g i Hgi) as (value & just & Hv).
    change (((g, i) :: before) ++ (f, InfoValue v) :: after)%list
      with ((g, i) :: (before ++ (f, InfoValue v) :: after))%list.
    cbn [normalize_from]. rewrite Hv. apply IH.
Qed.

Lemma normalize_from_truthy (record : list (string * info))
    (acc out : list (string * value)) :
  Forall Notions.structured record ->
  NoDup record.*1 ->
  (forall f, f ∈ record.*1 -> Py.endswith f "_justification" = false) ->
  normalize_from repr record acc = Ok out ->
  forall f, f ∈ record.*1 -> truthy (get f out PNone) = true.
Proof.
  intros Hall. revert acc.
  induction Hall as [|[f i] record Hfi Hall IH]; intros acc Hnd Hsuf Hout g Hg.
  { by apply elem_of_nil in Hg. }
  change (NoDup (f :: record.*1)) in Hnd.
  apply NoDup_cons in Hnd as [Hf Hnd].
  change (g ∈ f :: record.*1) in Hg.
  destruct (field_values_structured f i Hfi) as (value & just & Hv).
  cbn [normalize_from] in Hout. rewrite Hv in Hout.
  assert (Hsuf' : forall h, h ∈ record.*1 ->
                            Py.endswith h "_justification" = false).
  { intros h Hh. apply Hsuf. by apply list_elem_of_further. }
  apply elem_of_cons in Hg as [-> | Hg]; [| by eapply IH].
  destruct (normalize_from_ok record
              (set (f ++ "_justification") just
                 (set f (if truthy value then value
                         else PStr "Not specified") acc)) Hall)
    as (out' & Hout' & _ & Hget).
  rewrite Hout in Hout'. injection Hout' as <-.
  assert (Hfsuf : Py.endswith f "_justification" = false)
    by apply Hsuf, list_elem_of_here.
  rewrite Hget.
  - rewrite !get_set.
    rewrite decide_False by (by apply not_justification).
    rewrite decide_True by done. by destruct (truthy value) eqn:Ht.
  - intros h Hh. split; [by intros -> | by apply not_justification].
Qed.

(** X23.  What [_normalize] does with a response.  It raises
    [ValueError] exactly for a response with a field, other than the two
    country fields, that does not map to a [dict], naming the first such
    field.  Otherwise its result has, for every field of the response,
    the field and its justification as keys and no other key; and when no
    field of the response is itself a justification, the value under
    every field is true in the sense of [or]: never [None], never the
    empty text, ["Not specified"] taking their place. *)
Theorem normalize_outcome (record : list (string * info)) :
  (forall before f v after,
     record = (before ++ (f, InfoValue v) :: after)%list ->
     Forall Notions.structured before ->
     f ∉ ["country"; "country_alpha_3_code"] ->
     _normalize repr record
     = Raise (ValueError ("Field '" ++ f ++ "' has unexpected structure: "
                          ++ repr (InfoValue v))))
  /\ (Forall Notions.structured record ->
      exists normalized,
        _normalize repr record = Ok normalized
        /\ (forall k,
              k ∈ normalized.*1
              <-> exists f, f ∈ record.*1
                            /\ (k = f \/ k = f ++ "_justification"))
        /\ (NoDup record.*1 ->
            (forall f, f ∈ record.*1 ->
                       Py.endswith f "_justification" = false) ->
            forall f, f ∈ record.*1 ->
                      truthy (get f normalized PNone) = true)).
Proof.
  split.
  - intros before f v after -> Hall Hf. by apply normalize_from_raise.
  - intros Hall.
    destruct (normalize_from_ok record [] Hall) as (out & Hout & Hkeys & _).
    exists out. split_and!; [done | |].
    + intros k. rewrite Hkeys. split; [| by right].
      intros [Hk | ?]; [by apply elem_of_nil in Hk | done].
    + intros Hnd Hsuf. by apply (normalize_from_truthy record [] out).
Qed.
End Normalization.

Lemma normalize_outcome_witness :
  GeminiClient._normalize (fun _ => "...")
    [("hpv", GeminiClient.InfoDict [("value", GeminiClient.PStr "yes")]);
     ("note", GeminiClient.InfoValue (GeminiClient.PStr "free text"))]
  = Raise (ValueError "Field 'note' has unexpected structure: ...").
Proof.
  refine (proj1 (normalize_outcome (fun _ => "...") _)
            [("hpv", GeminiClient.InfoDict [("value", GeminiClient.PStr "yes")])]
            "note" (GeminiClient.PStr "free text") [] eq_refl _ _).
  - constructor; [left; by eexists | constructor].
  - apply (bool_decide_unpack _). vm_compute. exact I.
Defined.

Lemma retry_protocol_run_witness :
  (JobLifecycle.retry_failed_records Samples.read_text Samples.exists_
     Samples.client_process 7%N
     (JobLifecycle.prepare_retry_and_get_cleaned_csv Samples.read_text 7%N
        Cases.ended_world).2).1
  = Ok tt.
Proof.
  refine (proj1 (proj2 (retry_protocol_run Samples.read_text Samples.exists_
                          Samples.client_process 7%N Cases.ended_world
                          Samples.done_with_errors
                          [Samples.line_a; Cases.line_b_failed] _ _ _ _ _))).
  - reflexivity.
  - reflexivity.
  - reflexivity.
  - reflexivity.
  - apply Forall_forall. intros d _. reflexivity.
Defined.
